(** * Remote-browser streaming server: a shallow embedding

    The development follows the TypeScript/JavaScript sources of the
    server: the session store ([sessionService.ts]), the browser pool
    ([browserService.ts]), the frame codec ([utils/compression.ts]),
    the device presets ([utils/deviceProfiles.ts]), the per-client
    stream engine ([streamingService.js]) and the socket router
    ([socketService.js]).

    Conventions.
    - JavaScript numbers that the code uses as integers (millisecond
      clocks, fps, quality, counters) are [Z].
    - Every [Date.now()] / [new Date()] the code reads is an explicit
      argument of the function that reads it.
    - Results of the external browser, of [uuidv4] and of [pako] are
      arguments as well: the model quantifies over what they return.
    - A JavaScript [Map] whose iteration order matters is an association
      list in insertion order; the other maps are [gmap]s.
    - The server is single-threaded: a handler runs alone until it
      awaits.  The frame loop is cut at its one [await], so that
      messages can arrive while a screenshot is being taken; the
      [init] and [disconnect] handlers are taken as one step each.
      The delay passed to [setTimeout] is not modelled: a timer may
      fire at any later point. *)

From Stdlib Require Import ZArith Lia Bool Ascii String List.
From Stdlib.Strings Require Import Byte.
From Stdlib Require Import DecimalString.
From stdpp Require Import gmap strings list fin_maps.

Open Scope Z_scope.

(* ===================================================================== *)
(** * Part I: the program *)
(* ===================================================================== *)

(** ** sessionService.ts *)

Module SessionService.

Inductive SessionType := ANONYMOUS | AUTHENTICATED | ADMIN.

Record Resolution := { res_width : Z; res_height : Z }.

Record Settings := {
  fps : Z;
  quality : Z;
  adaptiveBitrate : bool;
  resolution : Resolution
}.

Record Session := {
  id : string;
  token : string;
  type : SessionType;
  userId : option string;
  username : option string;
  browserId : option string;
  createdAt : Z;
  lastActivity : Z;
  ipAddress : string;
  userAgent : string;
  settings : Settings;
  metadata : list (string * string)
}.

(** The two module-level maps: [sessions] and [tokenToSessionMap]. *)
Record Store := {
  sessions : gmap string Session;
  tokenToSessionMap : gmap string string
}.

Definition SESSION_TIMEOUT : Z := 2 * 60 * 60 * 1000.
Definition SESSION_CLEANUP_INTERVAL : Z := 15 * 60 * 1000.

(** [session.lastActivity = new Date()] on the object held by the map. *)
Definition set_lastActivity (now : Z) (s : Session) : Session :=
  {| id := id s; token := token s; type := type s; userId := userId s;
     username := username s; browserId := browserId s;
     createdAt := createdAt s; lastActivity := now;
     ipAddress := ipAddress s; userAgent := userAgent s;
     settings := settings s; metadata := metadata s |}.

(** The key [getSession] ends up looking for: a token is first turned
    into the id it is indexed under. *)
Definition resolve (idOrToken : string) (st : Store) : string :=
  match tokenToSessionMap st !! idOrToken with
  | Some sid => sid
  | None => idOrToken
  end.

(** [getSession(idOrToken)]; [now] is the value of [new Date()].  The
    session object is shared between the map and the caller, so the
    write to [lastActivity] is a write into the store. *)
Definition getSession (idOrToken : string) (now : Z) (st : Store)
  : option Session * Store :=
  let key := resolve idOrToken st in
  match sessions st !! key with
  | Some s =>
      let s' := set_lastActivity now s in
      (Some s', {| sessions := <[key := s']> (sessions st);
                   tokenToSessionMap := tokenToSessionMap st |})
  | None => (None, st)
  end.

(** [deleteSession(sessionId)]. *)
Definition deleteSession (sessionId : string) (st : Store) : bool * Store :=
  match sessions st !! sessionId with
  | None => (false, st)
  | Some s =>
      (true, {| sessions := delete sessionId (sessions st);
                tokenToSessionMap := delete (token s) (tokenToSessionMap st) |})
  end.

(** [validateSession(token)].  [now_get] is the clock read inside
    [getSession], [now_check] the one read by [validateSession] itself
    for the expiry test. *)
Definition validateSession (tok : string) (now_get now_check : Z) (st : Store)
  : option Session * Store :=
  match getSession tok now_get st with
  | (None, st') => (None, st')
  | (Some s, st') =>
      let timeSinceLastActivity := now_check - lastActivity s in
      if timeSinceLastActivity >? SESSION_TIMEOUT
      then (None, snd (deleteSession (id s) st'))
      else (Some s, st')
  end.

(** [cleanupInactiveSessions()], the periodic reaper. *)
Definition expired (now : Z) (s : Session) : bool :=
  now - lastActivity s >? SESSION_TIMEOUT.

Definition cleanupInactiveSessions (now : Z) (st : Store) : Store :=
  map_fold
    (fun sid s acc =>
       if expired now s
       then {| sessions := delete sid (sessions acc);
               tokenToSessionMap := delete (token s) (tokenToSessionMap acc) |}
       else acc)
    st (sessions st).

(** *** The other operations of the session store *)

(** A [Partial<Session['settings']>]: the declared fields, each
    present or not. *)
Record PartialSettings := {
  p_fps : option Z;
  p_quality : option Z;
  p_adaptiveBitrate : option bool;
  p_resolution : option Resolution
}.

(** [{ ...base, ...partial }] on the declared fields. *)
Definition spread_settings (base : Settings) (partial : PartialSettings) : Settings :=
  {| fps := match p_fps partial with Some v => v | None => fps base end;
     quality := match p_quality partial with Some v => v | None => quality base end;
     adaptiveBitrate :=
       match p_adaptiveBitrate partial with
       | Some v => v
       | None => adaptiveBitrate base
       end;
     resolution :=
       match p_resolution partial with
       | Some v => v
       | None => resolution base
       end |}.

(** Assignment of one key of a metadata object: an existing key keeps
    its place, a new one goes last. *)
Fixpoint assign_key (k v : string) (o : list (string * string))
  : list (string * string) :=
  match o with
  | [] => [(k, v)]
  | (k', v') :: r =>
      if String.eqb k k' then (k, v) :: r else (k', v') :: assign_key k v r
  end.

(** [{ ...base, ...extra }] on metadata objects. *)
Definition spread_metadata (base extra : list (string * string))
  : list (string * string) :=
  fold_left (fun acc kv => assign_key (fst kv) (snd kv) acc) extra base.

(** The argument of [createSession]. *)
Record CreateOptions := {
  o_type : option SessionType;
  o_userId : option string;
  o_username : option string;
  o_ipAddress : string;
  o_userAgent : string;
  o_settings : option PartialSettings;
  o_metadata : option (list (string * string))
}.

Definition default_settings : Settings :=
  {| fps := 30; quality := 80; adaptiveBitrate := true;
     resolution := {| res_width := 1920; res_height := 1080 |} |}.

(** [createSession(options)]; [sessionId] and [sessionToken] are the
    two [uuidv4()], [now] the clock. *)
Definition createSession (sessionId sessionToken : string) (now : Z)
    (options : CreateOptions) (st : Store) : Session * Store :=
  let session :=
    {| id := sessionId;
       token := sessionToken;
       type := match o_type options with Some t => t | None => ANONYMOUS end;
       userId := o_userId options;
       username := o_username options;
       browserId := None;
       createdAt := now;
       lastActivity := now;
       ipAddress := o_ipAddress options;
       userAgent := o_userAgent options;
       settings :=
         match o_settings options with
         | Some partial => spread_settings default_settings partial
         | None => default_settings
         end;
       metadata := match o_metadata options with Some m => m | None => [] end |} in
  (session,
   {| sessions := <[sessionId := session]> (sessions st);
      tokenToSessionMap := <[sessionToken := sessionId]> (tokenToSessionMap st) |}).

(** The argument of [updateSession]: it cannot name [id], [token] or
    [createdAt]. *)
Record Updates := {
  u_type : option SessionType;
  u_userId : option string;
  u_username : option string;
  u_browserId : option string;
  u_ipAddress : option string;
  u_userAgent : option string;
  u_settings : option PartialSettings;
  u_metadata : option (list (string * string))
}.

(** [if (updates.x) session.x = updates.x] on a string field: an
    absent or empty string leaves the field as it is. *)
Definition truthy_or (x : option string) (old : string) : string :=
  match x with
  | Some v => if String.eqb v EmptyString then old else v
  | None => old
  end.

(** The same on a field that may be unset. *)
Definition truthy_or_opt (x : option string) (old : option string) : option string :=
  match x with
  | Some v => if String.eqb v EmptyString then old else Some v
  | None => old
  end.

Definition apply_updates (now : Z) (updates : Updates) (s : Session) : Session :=
  {| id := id s;
     token := token s;
     type := match u_type updates with Some t => t | None => type s end;
     userId := truthy_or_opt (u_userId updates) (userId s);
     username := truthy_or_opt (u_username updates) (username s);
     browserId := truthy_or_opt (u_browserId updates) (browserId s);
     createdAt := createdAt s;
     lastActivity := now;
     ipAddress := truthy_or (u_ipAddress updates) (ipAddress s);
     userAgent := truthy_or (u_userAgent updates) (userAgent s);
     settings :=
       match u_settings updates with
       | Some partial => spread_settings (settings s) partial
       | None => settings s
       end;
     metadata :=
       match u_metadata updates with
       | Some m => spread_metadata (metadata s) m
       | None => metadata s
       end |}.

(** [updateSession(sessionId, updates)]. *)
Definition updateSession (sessionId : string) (updates : Updates) (now : Z)
    (st : Store) : option Session * Store :=
  match sessions st !! sessionId with
  | None => (None, st)
  | Some s =>
      let s' := apply_updates now updates s in
      (Some s', {| sessions := <[sessionId := s']> (sessions st);
                   tokenToSessionMap := tokenToSessionMap st |})
  end.

Definition address_updates (ip ua : string) : Updates :=
  {| u_type := None; u_userId := None; u_username := None; u_browserId := None;
     u_ipAddress := Some ip; u_userAgent := Some ua;
     u_settings := None; u_metadata := None |}.

Definition is_truthy (x : option string) : bool :=
  match x with
  | Some v => negb (String.eqb v EmptyString)
  | None => false
  end.

(** [getOrCreateSession(idOrToken, options)].  [now] is the clock of
    the lookup or of the creation, [now_update] the one read by
    [updateSession] when the address has changed; [sessionId] and
    [sessionToken] are the uuids a creation would draw. *)
Definition getOrCreateSession (idOrToken : option string) (options : CreateOptions)
    (sessionId sessionToken : string) (now now_update : Z) (st : Store)
  : Session * Store :=
  let create st0 := createSession sessionId sessionToken now options st0 in
  if is_truthy idOrToken then
    match getSession (match idOrToken with Some v => v | None => EmptyString end)
            now st with
    | (Some session, st1) =>
        if negb (String.eqb (ipAddress session) (o_ipAddress options))
           || negb (String.eqb (userAgent session) (o_userAgent options))
        then
          match updateSession (id session)
                  (address_updates (o_ipAddress options) (o_userAgent options))
                  now_update st1 with
          | (Some session', st2) =>
              (* the object returned is the one the lookup found: it is
                 the updated one when it is stored under its own id *)
              (if String.eqb (id session)
                    (resolve (match idOrToken with Some v => v | None => EmptyString end) st)
               then session' else session, st2)
          | (None, st2) => (session, st2)
          end
        else (session, st1)
    | (None, st1) => create st1
    end
  else create st.

(** [getSessionSettings(sessionId)]: a copy of the settings. *)
Definition getSessionSettings (sessionId : string) (st : Store) : option Settings :=
  match sessions st !! sessionId with
  | None => None
  | Some s => Some (settings s)
  end.

(** [updateSessionBrowserId(sessionId, browserId)]. *)
Definition updateSessionBrowserId (sessionId browser : string) (now : Z)
    (st : Store) : bool * Store :=
  match sessions st !! sessionId with
  | None => (false, st)
  | Some s =>
      let s' :=
        {| id := id s; token := token s; type := type s; userId := userId s;
           username := username s; browserId := Some browser;
           createdAt := createdAt s; lastActivity := now;
           ipAddress := ipAddress s; userAgent := userAgent s;
           settings := settings s; metadata := metadata s |} in
      (true, {| sessions := <[sessionId := s']> (sessions st);
                tokenToSessionMap := tokenToSessionMap st |})
  end.

(** [getSessionCount()]. *)
Definition getSessionCount (st : Store) : nat := size (sessions st).

(** The calls of the session service, with what the outside world
    contributes to each. *)
Inductive Call :=
| CreateSession (sessionId sessionToken : string) (now : Z) (options : CreateOptions)
| GetSession (idOrToken : string) (now : Z)
| UpdateSession (sessionId : string) (updates : Updates) (now : Z)
| DeleteSession (sessionId : string)
| GetOrCreateSession (idOrToken : option string) (options : CreateOptions)
    (sessionId sessionToken : string) (now now_update : Z)
| ValidateSession (tok : string) (now_get now_check : Z)
| UpdateSessionBrowserId (sessionId browser : string) (now : Z)
| CleanupInactiveSessions (now : Z).

Definition call (c : Call) (st : Store) : Store :=
  match c with
  | CreateSession i t now o => snd (createSession i t now o st)
  | GetSession k now => snd (getSession k now st)
  | UpdateSession i u now => snd (updateSession i u now st)
  | DeleteSession i => snd (deleteSession i st)
  | GetOrCreateSession k o i t now now' => snd (getOrCreateSession k o i t now now' st)
  | ValidateSession t n1 n2 => snd (validateSession t n1 n2 st)
  | UpdateSessionBrowserId i b now => snd (updateSessionBrowserId i b now st)
  | CleanupInactiveSessions now => cleanupInactiveSessions now st
  end.

(** The uuids a call draws, if it creates a session. *)
Definition draws (c : Call) (st : Store) : option (string * string) :=
  match c with
  | CreateSession i t _ _ => Some (i, t)
  | GetOrCreateSession k o i t now _ =>
      if is_truthy k then
        match getSession (match k with Some v => v | None => EmptyString end) now st with
        | (Some _, _) => None
        | (None, _) => Some (i, t)
        end
      else Some (i, t)
  | _ => None
  end.

(** The uuids drawn along a run are new: not the id of a stored
    session, not an indexed token. *)
Fixpoint fresh_uuids (cs : list Call) (st : Store) : Prop :=
  match cs with
  | [] => True
  | c :: r =>
      match draws c st with
      | Some (i, t) => sessions st !! i = None /\ tokenToSessionMap st !! t = None
      | None => True
      end
      /\ fresh_uuids r (call c st)
  end.

Definition run (cs : list Call) (st : Store) : Store :=
  fold_left (fun acc c => call c acc) cs st.

(** The two maps agree: a session is stored under its own id and its
    token leads to it, and every indexed token is the token of the
    session it leads to. *)
Definition consistent (st : Store) : Prop :=
  (forall k s, sessions st !! k = Some s ->
               id s = k /\ tokenToSessionMap st !! token s = Some k)
  /\ (forall t k, tokenToSessionMap st !! t = Some k ->
                  exists s, sessions st !! k = Some s /\ token s = t).

Definition empty_store : Store :=
  {| sessions := ∅; tokenToSessionMap := ∅ |}.

End SessionService.

(** ** Base64 as Node's [Buffer] implements it *)

Module Base64.

Definition bytes := list Byte.byte.

Definition alphabet : string :=
  "ABCDEFGHIJKLMNOPQRSTUVWXYZabcdefghijklmnopqrstuvwxyz0123456789+/".

(** The character of a 6-bit value. *)
Definition enc6 (n : N) : ascii :=
  match String.get (N.to_nat n) alphabet with
  | Some c => c
  | None => "="%char
  end.

(** The 6-bit value of a character, as in Node's decoding table: the
    standard and the URL-safe alphabets are both accepted. *)
Definition unbase64 (c : ascii) : option N :=
  let n := N_of_ascii c in
  if ((65 <=? n) && (n <=? 90))%N then Some (n - 65)%N
  else if ((97 <=? n) && (n <=? 122))%N then Some (n - 71)%N
  else if ((48 <=? n) && (n <=? 57))%N then Some (n + 4)%N
  else if ((n =? 43) || (n =? 45))%N then Some 62%N
  else if ((n =? 47) || (n =? 95))%N then Some 63%N
  else None.

Definition byte_of_N (n : N) : Byte.byte :=
  match Byte.of_N (n mod 256) with
  | Some b => b
  | None => Byte.x00
  end.

(** [buf.toString('base64')]. *)
Fixpoint encode (bs : bytes) : string :=
  match bs with
  | [] => EmptyString
  | [a] =>
      let x := Byte.to_N a in
      String (enc6 (x / 4)) (String (enc6 (x mod 4 * 16)) "==")
  | [a; b] =>
      let x := Byte.to_N a in
      let y := Byte.to_N b in
      String (enc6 (x / 4))
        (String (enc6 (x mod 4 * 16 + y / 16))
           (String (enc6 (y mod 16 * 4)) "="))
  | a :: b :: c :: rest =>
      let x := Byte.to_N a in
      let y := Byte.to_N b in
      let z := Byte.to_N c in
      String (enc6 (x / 4))
        (String (enc6 (x mod 4 * 16 + y / 16))
           (String (enc6 (y mod 16 * 4 + z / 64))
              (String (enc6 (z mod 64)) (encode rest))))
  end.

(** The 6-bit values [Buffer.from(s, 'base64')] reads: characters
    outside the alphabet are skipped, the first [=] ends the input. *)
Fixpoint sextets (s : string) : list N :=
  match s with
  | EmptyString => []
  | String c r =>
      if Ascii.eqb c "="%char then []
      else match unbase64 c with
           | Some v => v :: sextets r
           | None => sextets r
           end
  end.

Fixpoint bytes_of_sextets (l : list N) : bytes :=
  match l with
  | a :: b :: c :: d :: r =>
      byte_of_N (a * 4 + b / 16)
        :: byte_of_N (b mod 16 * 16 + c / 4)
        :: byte_of_N (c mod 4 * 64 + d)
        :: bytes_of_sextets r
  | [a; b; c] =>
      [byte_of_N (a * 4 + b / 16); byte_of_N (b mod 16 * 16 + c / 4)]
  | [a; b] => [byte_of_N (a * 4 + b / 16)]
  | _ => []
  end.

(** [Buffer.from(s, 'base64')]. *)
Definition decode (s : string) : bytes := bytes_of_sextets (sextets s).

End Base64.

(** ** utils/compression.ts *)

Module Compression.
Import Base64.

(** The two entry points of [pako] the module imports.  [deflate]
    takes the compression level of its options argument; [inflate]
    throws on malformed input ([None]). *)
Class Pako := {
  deflate : Z -> bytes -> bytes;
  inflate : bytes -> option bytes
}.

(** The contract of the library: inflating a deflated stream gives
    the input back, whatever the level. *)
Definition pako_lossless `{Pako} : Prop :=
  forall level x, inflate (deflate level x) = Some x.

Section WithPako.
Context `{Pako}.

(** [compressData(data)] on a [Uint8Array]. *)
Definition compressData (data : bytes) : bytes := deflate 6 data.

(** [decompressData(data)] with [asString = false]. *)
Definition decompressData (data : bytes) : option bytes := inflate data.

(** [s.split(sep)] for a one-character separator. *)
Fixpoint split (sep : ascii) (s : string) : list string :=
  match s with
  | EmptyString => [EmptyString]
  | String c r =>
      if Ascii.eqb c sep then EmptyString :: split sep r
      else match split sep r with
           | h :: t => String c h :: t
           | [] => [String c EmptyString]
           end
  end.

(** [base64Data.split(',')[1] || base64Data]: the empty string is
    falsy, like [undefined]. *)
Definition base64WithoutPrefix (base64Data : string) : string :=
  match split ","%char base64Data with
  | _ :: EmptyString :: _ => base64Data
  | _ :: payload :: _ => payload
  | _ => base64Data
  end.

(** [compressBase64(base64Data)]. *)
Definition compressBase64 (base64Data : string) : string :=
  let binaryData := decode (base64WithoutPrefix base64Data) in
  let compressed := compressData binaryData in
  encode compressed.

(** [decompressBase64(compressedBase64, withPrefix, mimeType)];
    [None] when [inflate] throws. *)
Definition decompressBase64 (compressedBase64 : string)
    (withPrefix : bool) (mimeType : string) : option string :=
  let binaryData := decode compressedBase64 in
  match decompressData binaryData with
  | None => None
  | Some decompressed =>
      let result := encode decompressed in
      Some (if withPrefix
            then ("data:" ++ mimeType ++ ";base64," ++ result)%string
            else result)
  end.

End WithPako.

(** A stand-in for the library, used to run the functions above on
    concrete inputs: a one-byte header carrying the level, then the
    data as it is. *)
Definition stored_deflate (level : Z) (x : bytes) : bytes :=
  byte_of_N (Z.to_N level) :: x.

Definition stored_inflate (x : bytes) : option bytes :=
  match x with
  | [] => None
  | _ :: r => Some r
  end.

Definition stored : Pako :=
  {| deflate := stored_deflate; inflate := stored_inflate |}.

(** Whether a character occurs in a string. *)
Fixpoint occurs (c : ascii) (s : string) : bool :=
  match s with
  | EmptyString => false
  | String c' r => Ascii.eqb c' c || occurs c r
  end.

End Compression.

(** ** browserService.ts *)

Module BrowserService.
Import Base64.

Record BrowserInstance := {
  id : string;
  url : string;
  lastActivity : Z;
  viewportWidth : Z;
  viewportHeight : Z
}.

(** [activeBrowsers]: a [Map] from id to instance.  [createBrowser]
    iterates over it, so the insertion order is kept. *)
Definition Pool := list (string * BrowserInstance).

Fixpoint get (k : string) (m : Pool) : option BrowserInstance :=
  match m with
  | [] => None
  | (k', v) :: r => if String.eqb k k' then Some v else get k r
  end.

(** [Map.set]: an existing key keeps its place. *)
Fixpoint set (k : string) (v : BrowserInstance) (m : Pool) : Pool :=
  match m with
  | [] => [(k, v)]
  | (k', v') :: r =>
      if String.eqb k k' then (k, v) :: r else (k', v') :: set k v r
  end.

Fixpoint delete (k : string) (m : Pool) : Pool :=
  match m with
  | [] => []
  | (k', v') :: r =>
      if String.eqb k k' then delete k r else (k', v') :: delete k r
  end.

Definition size (m : Pool) : Z := Z.of_nat (length m).

Definition DEFAULT_MAX_BROWSERS : Z := 5.
Definition BROWSER_TIMEOUT : Z := 15 * 60 * 1000.
Definition DEFAULT_VIEWPORT_WIDTH : Z := 1920.
Definition DEFAULT_VIEWPORT_HEIGHT : Z := 1080.

(** One round of the loop that looks for the oldest browser: the
    pair is [(oldestId, oldestTimestamp)]. *)
Definition oldest_step (acc : string * Z) (e : string * BrowserInstance)
  : string * Z :=
  if lastActivity (snd e) <? snd acc
  then (fst e, lastActivity (snd e))
  else acc.

(** The whole loop, started from [oldestId = ''] and
    [oldestTimestamp = Date.now()]. *)
Definition findOldest (now : Z) (m : Pool) : string * Z :=
  fold_left oldest_step m (EmptyString, now).

(** Truthiness of a JavaScript string. *)
Definition truthy (s : string) : bool := negb (String.eqb s EmptyString).

(** [closeBrowser(id)].  [closed_ok] tells whether closing the page,
    the context and the browser went through; when one of them throws
    the entry is removed all the same and the result is [false]. *)
Definition closeBrowser (bid : string) (closed_ok : bool) (m : Pool)
  : bool * Pool :=
  match get bid m with
  | None => (false, m)
  | Some _ => (closed_ok, delete bid m)
  end.

(** What the outside world contributes to one [createBrowser] call:
    the clock read when looking for the oldest browser, the outcome
    of the eviction's close, and the launch: [None] when launching or
    the first navigation throws, else the fresh uuid and the clock
    read when the instance is stored. *)
Record CreateEnv := {
  now_select : Z;
  evict_ok : bool;
  launched : option (string * Z)
}.

(** The admission step of [createBrowser]. *)
Definition make_room (MAX_BROWSERS : Z) (env : CreateEnv) (m : Pool) : Pool :=
  if size m >=? MAX_BROWSERS then
    let oldestId := fst (findOldest (now_select env) m) in
    if truthy oldestId
    then snd (closeBrowser oldestId (evict_ok env) m)
    else m
  else m.

(** [createBrowser(initialUrl, viewportWidth, viewportHeight)];
    [None] stands for the rethrown error. *)
Definition createBrowser (MAX_BROWSERS : Z)
    (initialUrl : string) (viewportWidth viewportHeight : Z)
    (env : CreateEnv) (m : Pool) : option string * Pool :=
  let m1 := make_room MAX_BROWSERS env m in
  match launched env with
  | None => (None, m1)
  | Some (uuid, now_store) =>
      (Some uuid,
       set uuid {| id := uuid; url := initialUrl; lastActivity := now_store;
                   viewportWidth := viewportWidth;
                   viewportHeight := viewportHeight |} m1)
  end.

Definition touch (now : Z) (b : BrowserInstance) : BrowserInstance :=
  {| id := id b; url := url b; lastActivity := now;
     viewportWidth := viewportWidth b; viewportHeight := viewportHeight b |}.

Inductive ImageFormat := jpeg | png.

Definition format_name (f : ImageFormat) : string :=
  match f with jpeg => "jpeg" | png => "png" end.

Record ScreenshotOptions := {
  opt_quality : option Z;
  opt_fullPage : bool;
  opt_isKeyframe : option bool;
  opt_format : option ImageFormat;
  opt_omitBackground : bool
}.

(** [getScreenshot(id, options)] up to its [await]: the lookup and
    the update of [lastActivity]; [None] when the id is unknown and
    the function returns [null] at once. *)
Definition screenshot_enter (bid : string) (now : Z) (m : Pool) : option Pool :=
  match get bid m with
  | None => None
  | Some instance => Some (set bid (touch now instance) m)
  end.

(** The rest of [getScreenshot].  [env_type] is [SCREENSHOT_TYPE] of
    the environment, [capture] what [page.screenshot] gives: the
    image bytes, or [None] when it throws.  Every error ends in the
    [catch], which logs it and returns [null]. *)
Definition screenshot_exit (options : ScreenshotOptions)
    (env_type : option ImageFormat) (capture : option bytes) : option string :=
  let screenshotType :=
    match opt_format options with
    | Some f => f
    | None => match env_type with Some f => f | None => jpeg end
    end in
  match capture with
  | None => None
  | Some screenshot =>
      Some ("data:image/" ++ format_name screenshotType
              ++ ";base64," ++ encode screenshot)%string
  end.

Definition getScreenshot (bid : string) (options : ScreenshotOptions)
    (env_type : option ImageFormat) (now : Z) (capture : option bytes)
    (m : Pool) : option string * Pool :=
  match screenshot_enter bid now m with
  | None => (None, m)
  | Some m' => (screenshot_exit options env_type capture, m')
  end.

(** The calls the pool-capacity property speaks about. *)
Inductive Call :=
| Create (initialUrl : string) (w h : Z) (env : CreateEnv)
| Close (bid : string) (closed_ok : bool).

Definition call (MAX_BROWSERS : Z) (c : Call) (m : Pool) : Pool :=
  match c with
  | Create u w h env => snd (createBrowser MAX_BROWSERS u w h env m)
  | Close bid ok => snd (closeBrowser bid ok m)
  end.

Definition run (MAX_BROWSERS : Z) (cs : list Call) (m : Pool) : Pool :=
  fold_left (fun acc c => call MAX_BROWSERS c acc) cs m.

(** *** The other operations of the pool *)

Definition set_url (u : string) (b : BrowserInstance) : BrowserInstance :=
  {| id := id b; url := u; lastActivity := lastActivity b;
     viewportWidth := viewportWidth b; viewportHeight := viewportHeight b |}.

Definition set_viewport (w h : Z) (b : BrowserInstance) : BrowserInstance :=
  {| id := id b; url := url b; lastActivity := lastActivity b;
     viewportWidth := w; viewportHeight := h |}.

(** The URL [navigateTo] goes to: [https://] is put in front of a URL
    that starts with neither [http://] nor [https://]. *)
Definition normalise_url (u : string) : string :=
  if negb (String.prefix "http://" u) && negb (String.prefix "https://" u)
  then ("https://" ++ u)%string
  else u.

(** [navigateTo(id, url)].  [loaded] tells whether [page.goto] went
    through; when it throws, the [catch] returns [false] and the
    stored URL is the old one. *)
Definition navigateTo (bid u : string) (now : Z) (loaded : bool) (m : Pool)
  : bool * Pool :=
  match get bid m with
  | None => (false, m)
  | Some instance =>
      let touched := touch now instance in
      if loaded
      then (true, set bid (set_url (normalise_url u) touched) m)
      else (false, set bid touched m)
  end.

(** The verbs of the [switch] in [executeAction]. *)
Definition actions : list string :=
  ["click"; "doubleClick"; "mouseDown"; "mouseUp"; "mouseMove"; "type";
   "key"; "keyDown"; "keyUp"; "scroll"; "scrollBy"; "hover"; "reload";
   "goBack"; "goForward"]%string.

Definition known_action (action : string) : bool :=
  existsb (String.eqb action) actions.

(** [executeAction(id, action, params)].  [done] tells whether the
    call into the page went through; the [default] branch returns
    [false] for any other verb. *)
Definition executeAction (bid action : string) (now : Z) (done : bool) (m : Pool)
  : bool * Pool :=
  match get bid m with
  | None => (false, m)
  | Some instance =>
      let m' := set bid (touch now instance) m in
      if known_action action then (done, m') else (false, m')
  end.

(** [getCurrentUrl(id)]: the URL the page reports, [None] for an
    unknown id or when the page throws. *)
Definition getCurrentUrl (bid : string) (page_url : option string) (m : Pool)
  : option string :=
  match get bid m with
  | None => None
  | Some _ => page_url
  end.

(** [resizeViewport(id, width, height)]; [resized] tells whether
    [page.setViewportSize] went through. *)
Definition resizeViewport (bid : string) (w h : Z) (resized : bool) (m : Pool)
  : bool * Pool :=
  match get bid m with
  | None => (false, m)
  | Some instance =>
      if resized then (true, set bid (set_viewport w h instance) m)
      else (false, m)
  end.

Definition idle (now : Z) (b : BrowserInstance) : bool :=
  now - lastActivity b >? BROWSER_TIMEOUT.

(** [cleanupInactiveBrowsers()]: [closeBrowser] for every entry idle
    for more than the timeout, the closes taken to completion;
    [closed_ok] gives the outcome of each. *)
Definition cleanupInactiveBrowsers (now : Z) (closed_ok : string -> bool) (m : Pool)
  : Pool :=
  fold_left
    (fun acc e =>
       if idle now (snd e)
       then snd (closeBrowser (fst e) (closed_ok (fst e)) acc)
       else acc)
    m m.

(** [getActiveBrowserIds()] and [getActiveBrowserCount()]. *)
Definition getActiveBrowserIds (m : Pool) : list string := map fst m.

Definition getActiveBrowserCount (m : Pool) : Z := size m.

(** Every call of the pool. *)
Inductive Operation :=
| OpCreate (initialUrl : string) (w h : Z) (env : CreateEnv)
| OpClose (bid : string) (closed_ok : bool)
| OpScreenshot (bid : string) (options : ScreenshotOptions)
    (env_type : option ImageFormat) (now : Z) (capture : option bytes)
| OpNavigate (bid u : string) (now : Z) (loaded : bool)
| OpExecute (bid action : string) (now : Z) (done : bool)
| OpResize (bid : string) (w h : Z) (resized : bool)
| OpCleanup (now : Z) (closed_ok : string -> bool).

Definition operate (MAX_BROWSERS : Z) (o : Operation) (m : Pool) : Pool :=
  match o with
  | OpCreate u w h env => snd (createBrowser MAX_BROWSERS u w h env m)
  | OpClose bid ok => snd (closeBrowser bid ok m)
  | OpScreenshot bid options ty now capture =>
      snd (getScreenshot bid options ty now capture m)
  | OpNavigate bid u now loaded => snd (navigateTo bid u now loaded m)
  | OpExecute bid action now done => snd (executeAction bid action now done m)
  | OpResize bid w h resized => snd (resizeViewport bid w h resized m)
  | OpCleanup now ok => cleanupInactiveBrowsers now ok m
  end.

(** A run in which every [createBrowser] that finds the pool full also
    finds an instance older than its clock, and draws a uuid. *)
Fixpoint timely (MAX_BROWSERS : Z) (os : list Operation) (m : Pool) : Prop :=
  match os with
  | [] => True
  | o :: r =>
      match o with
      | OpCreate _ _ _ env =>
          (size m < MAX_BROWSERS
           \/ Exists (fun e => lastActivity (snd e) < now_select env) m)
          /\ match launched env with
             | Some (uuid, _) => uuid <> EmptyString
             | None => True
             end
      | _ => True
      end
      /\ timely MAX_BROWSERS r (operate MAX_BROWSERS o m)
  end.

Definition operate_all (MAX_BROWSERS : Z) (os : list Operation) (m : Pool) : Pool :=
  fold_left (fun acc o => operate MAX_BROWSERS o acc) os m.

(** *** Calls that overlap

    [createBrowser] is asynchronous: it reads the pool before its
    awaits and writes it after them, and other calls run in between.
    Its awaits cut a call into three stretches: up to
    [await closeBrowser(oldestId)] (the size test, the scan, and the
    lookup with which [closeBrowser] begins), the rest of
    [closeBrowser] (the delete, in the [try] or in the [catch]), and
    what follows the launch (the insert).  [operate] above takes a
    call in one piece, which is what happens when it runs alone. *)

(** Where a call of [createBrowser] waits. *)
Inductive Stage :=
| Closing (victim : string)
| Launching.

(** The pool and the calls of [createBrowser] that are under way. *)
Record Flight := {
  landed : Pool;
  flying : gmap nat Stage
}.

Definition on_ground (m : Pool) : Flight := {| landed := m; flying := ∅ |}.

(** One stretch of a call [c] of [createBrowser], or a whole other
    operation. *)
Inductive Stretch :=
| Enters (c : nat) (now : Z)
| Closed (c : nat)
| Stores (c : nat) (initialUrl : string) (w h : Z) (launch : option (string * Z))
| Whole_call (o : Operation).

Definition stretch (MAX_BROWSERS : Z) (x : Stretch) (f : Flight) : Flight :=
  match x with
  | Enters c now =>
      let stage :=
        if size (landed f) >=? MAX_BROWSERS then
          let oldestId := fst (findOldest now (landed f)) in
          if truthy oldestId then
            match get oldestId (landed f) with
            | Some _ => Closing oldestId
            | None => Launching
            end
          else Launching
        else Launching in
      {| landed := landed f; flying := <[c := stage]> (flying f) |}
  | Closed c =>
      match flying f !! c with
      | Some (Closing victim) =>
          {| landed := delete victim (landed f);
             flying := <[c := Launching]> (flying f) |}
      | _ => f
      end
  | Stores c initialUrl w h launch =>
      match flying f !! c with
      | Some Launching =>
          {| landed :=
               match launch with
               | Some (uuid, now_store) =>
                   set uuid {| id := uuid; url := initialUrl;
                               lastActivity := now_store;
                               viewportWidth := w; viewportHeight := h |}
                     (landed f)
               | None => landed f
               end;
             flying := base.delete c (flying f) |}
      | _ => f
      end
  | Whole_call o =>
      {| landed := operate MAX_BROWSERS o (landed f); flying := flying f |}
  end.

Definition fly (MAX_BROWSERS : Z) (xs : list Stretch) (f : Flight) : Flight :=
  fold_left (fun acc x => stretch MAX_BROWSERS x acc) xs f.

(** The stretches of operations that run one at a time: each
    [createBrowser] goes through its three stretches before the next
    operation starts. *)
Definition one_at_a_time (os : list Operation) : list Stretch :=
  flat_map
    (fun o =>
       match o with
       | OpCreate u w h env =>
           [Enters O (now_select env); Closed O; Stores O u w h (launched env)]
       | _ => [Whole_call o]
       end) os.

End BrowserService.

(** ** utils/deviceProfiles.ts *)

Module DeviceProfiles.

Inductive DeviceType := DESKTOP | TABLET | MOBILE | TV | UNKNOWN.

Inductive ConnectionSpeed := slow | medium | fast.

Record Preset := {
  fps : Z;
  quality : Z;
  adaptiveBitrate : bool;
  keyframeInterval : Z
}.

Definition is_mobile (d : DeviceType) : bool :=
  match d with MOBILE => true | _ => false end.

Definition is_desktop (d : DeviceType) : bool :=
  match d with DESKTOP => true | _ => false end.

Definition is_fast (c : ConnectionSpeed) : bool :=
  match c with fast => true | _ => false end.

(** [calculateStreamSettings(connectionSpeed, deviceType)]: the
    defaults, the switch on the connection, the device adjustment. *)
Definition calculateStreamSettings (connectionSpeed : ConnectionSpeed)
    (deviceType : DeviceType) : Preset :=
  let settings :=
    match connectionSpeed with
    | slow => {| fps := 15; quality := 60; adaptiveBitrate := true;
                 keyframeInterval := 15 |}
    | medium => {| fps := 24; quality := 75; adaptiveBitrate := true;
                   keyframeInterval := 10 |}
    | fast => {| fps := 30; quality := 85; adaptiveBitrate := true;
                 keyframeInterval := 8 |}
    end in
  if is_mobile deviceType then
    {| fps := Z.min (fps settings) 24; quality := quality settings - 5;
       adaptiveBitrate := adaptiveBitrate settings;
       keyframeInterval := keyframeInterval settings |}
  else if is_desktop deviceType && is_fast connectionSpeed then
    {| fps := 60; quality := quality settings;
       adaptiveBitrate := adaptiveBitrate settings;
       keyframeInterval := keyframeInterval settings |}
  else settings.

(** The local [gcd] of [calculateAspectRatio],
    [(a, b) => b === 0 ? a : gcd(b, a % b)], with the number of calls
    as fuel.  [%] takes the sign of the dividend, as [Z.rem]. *)
Fixpoint gcd_calls (fuel : nat) (a b : Z) : Z :=
  match fuel with
  | O => a
  | S k => if b =? 0 then a else gcd_calls k b (Z.rem a b)
  end.

(** A remainder is closer to 0 than the divisor, so [1 + |b|] calls
    are always enough: [gcd] satisfies the equation of the source for
    all integers ([gcd_unfold] in Part II). *)
Definition gcd (a b : Z) : Z := gcd_calls (S (Z.abs_nat b)) a b.

(** [Number.MAX_SAFE_INTEGER]: up to it every whole number is a
    double, [%] and an exact [/] on whole numbers are exact, and a
    template literal prints all the digits. *)
Definition MAX_SAFE_INTEGER : Z := 2 ^ 53 - 1.

(** A whole number up to [MAX_SAFE_INTEGER] in size, as a template
    literal prints it.  (Beyond 10^21 the source prints an exponent,
    ['1e+21'], which this does not follow.) *)
Definition number_string (n : Z) : string := NilZero.string_of_int (Z.to_int n).

(** [calculateAspectRatio(width, height)] on whole numbers up to
    [MAX_SAFE_INTEGER] in size.  The divisor divides both, so the
    quotients of the source are whole; it is 0 only for 0 and 0,
    where the source prints the two [NaN]. *)
Definition calculateAspectRatio (width height : Z) : string :=
  let divisor := gcd width height in
  if divisor =? 0 then "NaN:NaN"%string
  else (number_string (width / divisor) ++ ":"
          ++ number_string (height / divisor))%string.

(** [estimateConnectionSpeed(downloadSpeed, rtt, connectionType)].
    The speed in Mbps and the round trip in ms are fractions
    [num / den] with [den] positive; an absent number is [None], and
    0 is falsy like an absent one, as is the empty string. *)
Definition list_includes (x : string) (l : list string) : bool :=
  existsb (String.eqb x) l.

Definition estimateConnectionSpeed (downloadSpeed rtt : option (Z * positive))
    (connectionType : option string) : ConnectionSpeed :=
  let by_type :=
    match connectionType with
    | Some c =>
        if String.eqb c "" then medium
        else if list_includes c ["slow-2g"; "2g"; "cellular"]%string then slow
        else if list_includes c ["3g"; "dsl"]%string then medium
        else if list_includes c ["4g"; "5g"; "wifi"; "ethernet"]%string then fast
        else medium
    | None => medium
    end in
  let by_rtt :=
    match rtt with
    | Some (num, den) =>
        if num =? 0 then by_type
        else if num >? 300 * Z.pos den then slow
        else if num >? 100 * Z.pos den then medium
        else fast
    | None => by_type
    end in
  match downloadSpeed with
  | Some (num, den) =>
      if num =? 0 then by_rtt
      else if num <? Z.pos den then slow
      else if num <? 5 * Z.pos den then medium
      else fast
  | None => by_rtt
  end.

End DeviceProfiles.

(** ** streamingService.js *)

Module StreamingService.

Definition DEFAULT_FPS : Z := 30.
Definition MIN_FPS : Z := 5.
Definition MAX_FPS : Z := 60.
Definition KEYFRAME_INTERVAL : Z := 10.
Definition MIN_QUALITY : Z := 20.
Definition MAX_QUALITY : Z := 95.
Definition DEFAULT_QUALITY : Z := 80.
Definition LATENCY_THRESHOLD_HIGH : Z := 200.
Definition LATENCY_THRESHOLD_MEDIUM : Z := 100.

(** The settings object [initializeStream] builds and stores in
    [clientStreams]; [latency] is added by the latency handler.  Its
    numbers are whole, as they are in the source when every number a
    payload has carried was whole ([Stored] below has the case of a
    payload that carried something else). *)
Record StreamSettings := {
  browserId : string;
  fps : Z;
  quality : Z;
  width : Z;
  height : Z;
  active : bool;
  adaptiveBitrate : bool;
  lastFrameTime : Z;
  frameCount : Z;
  bytesSent : Z;
  keyframeCount : Z;
  lastFullFrame : option string;
  previousFrame : option string;
  connectionQuality : DeviceProfiles.ConnectionSpeed;
  deviceType : DeviceProfiles.DeviceType;
  sessionId : option string;
  latency : option Z
}.

(** Field assignments. *)
Definition set_fps (v : Z) (s : StreamSettings)
  : StreamSettings :=
  {| browserId := browserId s; fps := v; quality := quality s;
     width := width s; height := height s; active := active s;
     adaptiveBitrate := adaptiveBitrate s; lastFrameTime := lastFrameTime s;
     frameCount := frameCount s; bytesSent := bytesSent s;
     keyframeCount := keyframeCount s; lastFullFrame := lastFullFrame s;
     previousFrame := previousFrame s;
     connectionQuality := connectionQuality s; deviceType := deviceType s;
     sessionId := sessionId s; latency := latency s |}.

Definition set_quality (v : Z) (s : StreamSettings)
  : StreamSettings :=
  {| browserId := browserId s; fps := fps s; quality := v; width := width s;
     height := height s; active := active s;
     adaptiveBitrate := adaptiveBitrate s; lastFrameTime := lastFrameTime s;
     frameCount := frameCount s; bytesSent := bytesSent s;
     keyframeCount := keyframeCount s; lastFullFrame := lastFullFrame s;
     previousFrame := previousFrame s;
     connectionQuality := connectionQuality s; deviceType := deviceType s;
     sessionId := sessionId s; latency := latency s |}.

Definition set_width (v : Z) (s : StreamSettings)
  : StreamSettings :=
  {| browserId := browserId s; fps := fps s; quality := quality s;
     width := v; height := height s; active := active s;
     adaptiveBitrate := adaptiveBitrate s; lastFrameTime := lastFrameTime s;
     frameCount := frameCount s; bytesSent := bytesSent s;
     keyframeCount := keyframeCount s; lastFullFrame := lastFullFrame s;
     previousFrame := previousFrame s;
     connectionQuality := connectionQuality s; deviceType := deviceType s;
     sessionId := sessionId s; latency := latency s |}.

Definition set_height (v : Z) (s : StreamSettings)
  : StreamSettings :=
  {| browserId := browserId s; fps := fps s; quality := quality s;
     width := width s; height := v; active := active s;
     adaptiveBitrate := adaptiveBitrate s; lastFrameTime := lastFrameTime s;
     frameCount := frameCount s; bytesSent := bytesSent s;
     keyframeCount := keyframeCount s; lastFullFrame := lastFullFrame s;
     previousFrame := previousFrame s;
     connectionQuality := connectionQuality s; deviceType := deviceType s;
     sessionId := sessionId s; latency := latency s |}.

Definition set_active (v : bool) (s : StreamSettings)
  : StreamSettings :=
  {| browserId := browserId s; fps := fps s; quality := quality s;
     width := width s; height := height s; active := v;
     adaptiveBitrate := adaptiveBitrate s; lastFrameTime := lastFrameTime s;
     frameCount := frameCount s; bytesSent := bytesSent s;
     keyframeCount := keyframeCount s; lastFullFrame := lastFullFrame s;
     previousFrame := previousFrame s;
     connectionQuality := connectionQuality s; deviceType := deviceType s;
     sessionId := sessionId s; latency := latency s |}.

Definition set_adaptiveBitrate (v : bool) (s : StreamSettings)
  : StreamSettings :=
  {| browserId := browserId s; fps := fps s; quality := quality s;
     width := width s; height := height s; active := active s;
     adaptiveBitrate := v; lastFrameTime := lastFrameTime s;
     frameCount := frameCount s; bytesSent := bytesSent s;
     keyframeCount := keyframeCount s; lastFullFrame := lastFullFrame s;
     previousFrame := previousFrame s;
     connectionQuality := connectionQuality s; deviceType := deviceType s;
     sessionId := sessionId s; latency := latency s |}.

Definition set_lastFrameTime (v : Z) (s : StreamSettings)
  : StreamSettings :=
  {| browserId := browserId s; fps := fps s; quality := quality s;
     width := width s; height := height s; active := active s;
     adaptiveBitrate := adaptiveBitrate s; lastFrameTime := v;
     frameCount := frameCount s; bytesSent := bytesSent s;
     keyframeCount := keyframeCount s; lastFullFrame := lastFullFrame s;
     previousFrame := previousFrame s;
     connectionQuality := connectionQuality s; deviceType := deviceType s;
     sessionId := sessionId s; latency := latency s |}.

Definition set_frameCount (v : Z) (s : StreamSettings)
  : StreamSettings :=
  {| browserId := browserId s; fps := fps s; quality := quality s;
     width := width s; height := height s; active := active s;
     adaptiveBitrate := adaptiveBitrate s; lastFrameTime := lastFrameTime s;
     frameCount := v; bytesSent := bytesSent s;
     keyframeCount := keyframeCount s; lastFullFrame := lastFullFrame s;
     previousFrame := previousFrame s;
     connectionQuality := connectionQuality s; deviceType := deviceType s;
     sessionId := sessionId s; latency := latency s |}.

Definition set_bytesSent (v : Z) (s : StreamSettings)
  : StreamSettings :=
  {| browserId := browserId s; fps := fps s; quality := quality s;
     width := width s; height := height s; active := active s;
     adaptiveBitrate := adaptiveBitrate s; lastFrameTime := lastFrameTime s;
     frameCount := frameCount s; bytesSent := v;
     keyframeCount := keyframeCount s; lastFullFrame := lastFullFrame s;
     previousFrame := previousFrame s;
     connectionQuality := connectionQuality s; deviceType := deviceType s;
     sessionId := sessionId s; latency := latency s |}.

Definition set_keyframeCount (v : Z) (s : StreamSettings)
  : StreamSettings :=
  {| browserId := browserId s; fps := fps s; quality := quality s;
     width := width s; height := height s; active := active s;
     adaptiveBitrate := adaptiveBitrate s; lastFrameTime := lastFrameTime s;
     frameCount := frameCount s; bytesSent := bytesSent s;
     keyframeCount := v; lastFullFrame := lastFullFrame s;
     previousFrame := previousFrame s;
     connectionQuality := connectionQuality s; deviceType := deviceType s;
     sessionId := sessionId s; latency := latency s |}.

Definition set_lastFullFrame (v : option string) (s : StreamSettings)
  : StreamSettings :=
  {| browserId := browserId s; fps := fps s; quality := quality s;
     width := width s; height := height s; active := active s;
     adaptiveBitrate := adaptiveBitrate s; lastFrameTime := lastFrameTime s;
     frameCount := frameCount s; bytesSent := bytesSent s;
     keyframeCount := keyframeCount s; lastFullFrame := v;
     previousFrame := previousFrame s;
     connectionQuality := connectionQuality s; deviceType := deviceType s;
     sessionId := sessionId s; latency := latency s |}.

Definition set_previousFrame (v : option string) (s : StreamSettings)
  : StreamSettings :=
  {| browserId := browserId s; fps := fps s; quality := quality s;
     width := width s; height := height s; active := active s;
     adaptiveBitrate := adaptiveBitrate s; lastFrameTime := lastFrameTime s;
     frameCount := frameCount s; bytesSent := bytesSent s;
     keyframeCount := keyframeCount s; lastFullFrame := lastFullFrame s;
     previousFrame := v; connectionQuality := connectionQuality s;
     deviceType := deviceType s; sessionId := sessionId s;
     latency := latency s |}.

Definition set_connectionQuality (v : DeviceProfiles.ConnectionSpeed) (s : StreamSettings)
  : StreamSettings :=
  {| browserId := browserId s; fps := fps s; quality := quality s;
     width := width s; height := height s; active := active s;
     adaptiveBitrate := adaptiveBitrate s; lastFrameTime := lastFrameTime s;
     frameCount := frameCount s; bytesSent := bytesSent s;
     keyframeCount := keyframeCount s; lastFullFrame := lastFullFrame s;
     previousFrame := previousFrame s; connectionQuality := v;
     deviceType := deviceType s; sessionId := sessionId s;
     latency := latency s |}.

Definition set_latency (v : option Z) (s : StreamSettings)
  : StreamSettings :=
  {| browserId := browserId s; fps := fps s; quality := quality s;
     width := width s; height := height s; active := active s;
     adaptiveBitrate := adaptiveBitrate s; lastFrameTime := lastFrameTime s;
     frameCount := frameCount s; bytesSent := bytesSent s;
     keyframeCount := keyframeCount s; lastFullFrame := lastFullFrame s;
     previousFrame := previousFrame s;
     connectionQuality := connectionQuality s; deviceType := deviceType s;
     sessionId := sessionId s; latency := v |}.

(** The payload of [init] as the router hands it over, and of
    [stream-settings], when its fields are of their declared types
    and its numbers are whole; an absent field is [None].  [Field]
    below stands for the other values an [fps] or a [quality] can
    arrive with. *)
Record InitialSettings := {
  i_fps : option Z;
  i_quality : option Z;
  i_width : option Z;
  i_height : option Z;
  i_adaptiveBitrate : option bool;
  i_connectionQuality : option DeviceProfiles.ConnectionSpeed
}.

(** [x || d] on a number that may be absent: [0] is falsy. *)
Definition num_or (x : option Z) (d : Z) : Z :=
  match x with
  | Some v => if v =? 0 then d else v
  | None => d
  end.

(** [x !== undefined ? x : d]. *)
Definition defined_or {A} (x : option A) (d : A) : A :=
  match x with Some v => v | None => d end.

(** The settings object of [initializeStream(socket, browserId,
    initialSettings)].  [device] is [detectDeviceType] of the
    socket's user agent, [resolution] the value
    [getOptimalResolution] returns, [now] the clock. *)
Definition initialSettingsObject (browser : string) (init : InitialSettings)
    (device : DeviceProfiles.DeviceType) (session : option string)
    (resolution : Z * Z) (now : Z) : StreamSettings :=
  let connection := defined_or (i_connectionQuality init) DeviceProfiles.medium in
  let streamSettings := DeviceProfiles.calculateStreamSettings connection device in
  let fps0 := num_or (i_fps init) (DeviceProfiles.fps streamSettings) in
  let quality0 := num_or (i_quality init) (DeviceProfiles.quality streamSettings) in
  let adaptive := defined_or (i_adaptiveBitrate init)
                    (DeviceProfiles.adaptiveBitrate streamSettings) in
  {| browserId := browser;
     fps := Z.min MAX_FPS (Z.max MIN_FPS fps0);
     quality := Z.min MAX_QUALITY (Z.max MIN_QUALITY quality0);
     width := fst resolution;
     height := snd resolution;
     active := true;
     adaptiveBitrate := adaptive;
     lastFrameTime := now;
     frameCount := 0;
     bytesSent := 0;
     keyframeCount := 0;
     lastFullFrame := None;
     previousFrame := None;
     connectionQuality := connection;
     deviceType := device;
     sessionId := session;
     latency := None |}.

Definition connection_eqb (a b : DeviceProfiles.ConnectionSpeed) : bool :=
  match a, b with
  | DeviceProfiles.slow, DeviceProfiles.slow
  | DeviceProfiles.medium, DeviceProfiles.medium
  | DeviceProfiles.fast, DeviceProfiles.fast => true
  | _, _ => false
  end.

(** The body of the [stream-settings] listener on the current
    settings object. *)
Definition update_fps (m : InitialSettings) (cur : StreamSettings) : StreamSettings :=
  match i_fps m with
  | None => cur
  | Some v =>
      let newFps := Z.max MIN_FPS (Z.min MAX_FPS v) in
      if negb (newFps =? fps cur) then set_fps newFps cur else cur
  end.

Definition update_quality (m : InitialSettings) (cur : StreamSettings) : StreamSettings :=
  match i_quality m with
  | None => cur
  | Some v =>
      let newQuality := Z.max MIN_QUALITY (Z.min MAX_QUALITY v) in
      if negb (newQuality =? quality cur) then set_quality newQuality cur else cur
  end.

Definition update_resolution (m : InitialSettings) (cur : StreamSettings) : StreamSettings :=
  match i_width m, i_height m with
  | None, None => cur
  | _, _ =>
      let newWidth := num_or (i_width m) (width cur) in
      let newHeight := num_or (i_height m) (height cur) in
      if negb (newWidth =? width cur) || negb (newHeight =? height cur)
      then set_height newHeight (set_width newWidth cur)
      else cur
  end.

Definition update_adaptive (m : InitialSettings) (cur : StreamSettings) : StreamSettings :=
  match i_adaptiveBitrate m with
  | None => cur
  | Some v =>
      if negb (Bool.eqb v (adaptiveBitrate cur)) then set_adaptiveBitrate v cur else cur
  end.

Definition update_connection (m : InitialSettings) (cur : StreamSettings) : StreamSettings :=
  match i_connectionQuality m with
  | None => cur
  | Some v =>
      if negb (connection_eqb v (connectionQuality cur))
      then set_connectionQuality v cur else cur
  end.

Definition onStreamSettings (m : InitialSettings) (cur : StreamSettings) : StreamSettings :=
  let s1 := update_fps m cur in
  let s2 := update_quality m s1 in
  let s3 := update_resolution m s2 in
  let s4 := update_adaptive m s3 in
  let s5 := update_connection m s4 in
  (* Force a keyframe on settings change *)
  set_keyframeCount 0 s5.

(** Truthiness of [settings.latency]. *)
Definition latency_truthy (l : option Z) : bool :=
  match l with
  | Some v => negb (v =? 0)
  | None => false
  end.

(** [adjustQualityBasedOnLatency(settings)]. *)
Definition adjustQualityBasedOnLatency (s : StreamSettings) : StreamSettings :=
  match latency s with
  | None => s
  | Some l =>
      if l =? 0 then s
      else if l >? LATENCY_THRESHOLD_HIGH then
        let s1 := if quality s >? MIN_QUALITY + 10
                  then set_quality (Z.max MIN_QUALITY (quality s - 5)) s
                  else s in
        if fps s1 >? MIN_FPS + 5
        then set_fps (Z.max MIN_FPS (fps s1 - 2)) s1
        else s1
      else if l >? LATENCY_THRESHOLD_MEDIUM then
        if quality s >? MIN_QUALITY + 5
        then set_quality (Z.max MIN_QUALITY (quality s - 2)) s
        else s
      else
        let s1 := if quality s <? DEFAULT_QUALITY
                  then set_quality (Z.min MAX_QUALITY (quality s + 1)) s
                  else s in
        if fps s1 <? DEFAULT_FPS
        then set_fps (Z.min DEFAULT_FPS (fps s1 + 1)) s1
        else s1
  end.

(** The body of the [latency-report] listener. *)
Definition onLatencyReport (reported : Z) (s : StreamSettings) : StreamSettings :=
  let s1 := set_latency (Some reported) s in
  if adaptiveBitrate s1 && latency_truthy (latency s1)
  then adjustQualityBasedOnLatency s1
  else s1.

(** A [frame] message. *)
Record Frame := {
  image : string;
  isKeyframe : bool;
  frame_quality : Z;
  timestamp : Z
}.

(** The adaptive block of [getNextFrame].  With [elapsed > 0] and
    integer [fps], [1000 / elapsed < fps * 0.9] is
    [10000 < 9 * fps * elapsed] and [1000 / elapsed > fps * 1.1] is
    [10000 > 11 * fps * elapsed]; the two sides are never equal, so
    rounding does not decide the comparison. *)
Definition adaptQuality (elapsed : Z) (s : StreamSettings) : StreamSettings :=
  if adaptiveBitrate s && (elapsed >? 0) then
    if (10000 <? 9 * fps s * elapsed) && (quality s >? 20)
    then set_quality (Z.max 20 (quality s - 5)) s
    else if (10000 >? 11 * fps s * elapsed) && (quality s <? 95)
    then set_quality (Z.min 95 (quality s + 2)) s
    else s
  else s.

(** [getNextFrame] from the clock read to the call of
    [getScreenshot]: the adaptive block, the keyframe decision, the
    counter. *)
Definition frame_begin (now : Z) (s : StreamSettings) : StreamSettings * bool :=
  let elapsed := now - lastFrameTime s in
  let s1 := adaptQuality elapsed s in
  let isKeyframe := Z.rem (keyframeCount s1) KEYFRAME_INTERVAL =? 0 in
  (set_keyframeCount (keyframeCount s1 + 1) s1, isKeyframe).

Definition str_length (x : string) : Z := Z.of_nat (String.length x).

(** [getNextFrame] after the [await]: [screenshot] is what
    [getScreenshot] resolved to, [compress] is [compressBase64]. *)
Definition frame_end (compress : string -> string) (now : Z) (isKeyframe : bool)
    (screenshot : option string) (s : StreamSettings)
  : StreamSettings * list Frame :=
  match screenshot with
  | None => (s, [])
  | Some shot =>
      let s1 := set_lastFrameTime now (set_frameCount (frameCount s + 1) s) in
      let compressedFrame := compress shot in
      let s2 :=
        if isKeyframe
        then set_bytesSent (bytesSent s1 + str_length compressedFrame)
               (set_lastFullFrame (Some shot) s1)
        else set_bytesSent (bytesSent s1 + str_length compressedFrame) s1 in
      (set_previousFrame (Some shot) s2,
       [{| image := compressedFrame; isKeyframe := isKeyframe;
           frame_quality := quality s2; timestamp := now |}])
  end.

(** [applyQualityPreset(socketId, preset)] on the settings object. *)
Inductive QualityPreset := low | medium | high | ultra.

Definition qualityPresets (p : QualityPreset) : Z * Z * Z :=
  match p with
  | low => (15, 60, 15)
  | medium => (24, 75, 10)
  | high => (30, 85, 8)
  | ultra => (60, 90, 5)
  end.

Definition applyQualityPreset (p : QualityPreset) (s : StreamSettings) : StreamSettings :=
  let '(f, q, _) := qualityPresets p in
  set_keyframeCount 0 (set_quality q (set_fps f s)).

(** *** The producer loops

    [startStreamLoop] creates a closure with its own [isStreaming]
    flag and a reference to the settings object it was given.  The
    settings objects live in [objects]; [clientStreams] maps a socket
    id to the index of its current object, and a loop keeps the index
    it was started with. *)

Inductive Phase :=
| Timer
| Awaiting (now : Z) (isKeyframe : bool) (options : BrowserService.ScreenshotOptions)
| Stopped.

Record Loop := {
  loop_socket : string;
  loop_settings : nat;
  isStreaming : bool;
  phase : Phase
}.

Definition set_phase (p : Phase) (l : Loop) : Loop :=
  {| loop_socket := loop_socket l; loop_settings := loop_settings l;
     isStreaming := isStreaming l; phase := p |}.

Definition set_isStreaming (b : bool) (l : Loop) : Loop :=
  {| loop_socket := loop_socket l; loop_settings := loop_settings l;
     isStreaming := b; phase := phase l |}.

Record Engine := {
  clientStreams : gmap string nat;
  objects : list StreamSettings;
  loops : list Loop;
  listeners : gmap string nat;
  emitted : list (string * Frame)
}.

Definition empty_engine : Engine :=
  {| clientStreams := ∅; objects := []; loops := []; listeners := ∅;
     emitted := [] |}.

Definition write_object (r : nat) (s : StreamSettings) (e : Engine) : Engine :=
  {| clientStreams := clientStreams e; objects := <[r := s]> (objects e);
     loops := loops e; listeners := listeners e; emitted := emitted e |}.

Definition write_loop (i : nat) (l : Loop) (e : Engine) : Engine :=
  {| clientStreams := clientStreams e; objects := objects e;
     loops := <[i := l]> (loops e); listeners := listeners e;
     emitted := emitted e |}.

Definition emit (sock : string) (fs : list Frame) (e : Engine) : Engine :=
  {| clientStreams := clientStreams e; objects := objects e;
     loops := loops e; listeners := listeners e;
     emitted := emitted e ++ map (pair sock) fs |}.

(** The two clock reads of one [getNextFrame] before it awaits: its
    own, and the one of [getScreenshot]. *)
Record Clock := { now : Z; now_shot : Z }.

Definition phase_is_timer (p : Phase) : bool :=
  match p with Timer => true | _ => false end.

Definition phase_is_stopped (p : Phase) : bool :=
  match p with Stopped => true | _ => false end.

(** The options [getNextFrame] passes to [getScreenshot]. *)
Definition frame_options (q : Z) (kf : bool) : BrowserService.ScreenshotOptions :=
  {| BrowserService.opt_quality := Some q;
     BrowserService.opt_fullPage := false;
     BrowserService.opt_isKeyframe := Some kf;
     BrowserService.opt_format := None;
     BrowserService.opt_omitBackground := false |}.

Section Loops.
Variable compress : string -> string.
Variable SCREENSHOT_TYPE : option BrowserService.ImageFormat.

(** [getNextFrame()] of loop [i], up to the [await].  When the
    browser is unknown [getScreenshot] resolves to [null] at once and
    the call goes on to its end, the next timer. *)
Definition getNextFrame (i : nat) (clk : Clock) (e : Engine)
    (pool : BrowserService.Pool) : Engine * BrowserService.Pool :=
  match loops e !! i with
  | None => (e, pool)
  | Some l =>
      match objects e !! loop_settings l with
      | None => (e, pool)
      | Some s =>
          if negb (isStreaming l) || negb (active s)
          then (write_loop i (set_phase Stopped l) e, pool)
          else
            let '(s1, kf) := frame_begin (now clk) s in
            let e1 := write_object (loop_settings l) s1 e in
            let options := frame_options (quality s1) kf in
            match BrowserService.screenshot_enter (browserId s1) (now_shot clk) pool with
            | None => (write_loop i (set_phase Timer l) e1, pool)
            | Some pool' =>
                (write_loop i (set_phase (Awaiting (now clk) kf options) l) e1, pool')
            end
      end
  end.

(** The timer of loop [i] fires. *)
Definition onTimer (i : nat) (clk : Clock) (e : Engine)
    (pool : BrowserService.Pool) : Engine * BrowserService.Pool :=
  match loops e !! i with
  | Some l => if phase_is_timer (phase l) then getNextFrame i clk e pool else (e, pool)
  | None => (e, pool)
  end.

(** The screenshot loop [i] waits for arrives: the rest of
    [getNextFrame], which ends by scheduling the next call.  The
    [catch] of [getNextFrame], which clears [isStreaming], needs an
    exception to be reached: [getScreenshot] has none to give, it
    catches every error itself and resolves to [null]. *)
Definition onScreenshot (i : nat) (capture : option Base64.bytes) (e : Engine) : Engine :=
  match loops e !! i with
  | Some l =>
      match phase l, objects e !! loop_settings l with
      | Awaiting t kf options, Some s =>
          let shot := BrowserService.screenshot_exit options SCREENSHOT_TYPE capture in
          let '(s', frames) := frame_end compress t kf shot s in
          emit (loop_socket l) frames
            (write_loop i (set_phase Timer l) (write_object (loop_settings l) s' e))
      | _, _ => e
      end
  | None => e
  end.

(** [startStreamLoop(socket, settings)]: a new closure, and its
    first [getNextFrame()] at once. *)
Definition startStreamLoop (sock : string) (r : nat) (clk : Clock) (e : Engine)
    (pool : BrowserService.Pool) : Engine * BrowserService.Pool :=
  let i := length (loops e) in
  let l := {| loop_socket := sock; loop_settings := r; isStreaming := true;
              phase := Timer |} in
  getNextFrame i clk
    {| clientStreams := clientStreams e; objects := objects e;
       loops := loops e ++ [l]; listeners := listeners e;
       emitted := emitted e |} pool.

Definition listener_count (sock : string) (e : Engine) : nat :=
  match listeners e !! sock with Some n => n | None => O end.

(** [initializeStream(socket, browserId, initialSettings)]: a
    fresh settings object replaces the socket's entry, a loop is
    started on it, and one more set of listeners is registered. *)
Definition initializeStream (sock : string) (device : DeviceProfiles.DeviceType)
    (session : option string) (browser : string) (init : InitialSettings)
    (resolution : Z * Z) (t : Z) (clk : Clock) (e : Engine)
    (pool : BrowserService.Pool) : Engine * BrowserService.Pool :=
  let settings := initialSettingsObject browser init device session resolution t in
  let r := length (objects e) in
  let e1 := {| clientStreams := <[sock := r]> (clientStreams e);
               objects := objects e ++ [settings];
               loops := loops e; listeners := listeners e;
               emitted := emitted e |} in
  let '(e2, pool') := startStreamLoop sock r clk e1 pool in
  ({| clientStreams := clientStreams e2; objects := objects e2;
      loops := loops e2;
      listeners := <[sock := S (listener_count sock e2)]> (listeners e2);
      emitted := emitted e2 |}, pool').

(** One [stream-settings] listener. *)
Definition streamSettingsListener (sock : string) (m : InitialSettings)
    (e : Engine) : Engine :=
  match clientStreams e !! sock with
  | None => e
  | Some r =>
      match objects e !! r with
      | None => e
      | Some cur => write_object r (onStreamSettings m cur) e
      end
  end.

(** One [latency-report] listener. *)
Definition latencyListener (sock : string) (reported : Z) (e : Engine) : Engine :=
  match clientStreams e !! sock with
  | None => e
  | Some r =>
      match objects e !! r with
      | None => e
      | Some cur => write_object r (onLatencyReport reported cur) e
      end
  end.

(** One [stream-control] listener; [t] is the clock it reads when
    the stream is resumed. *)
Definition streamControlListener (sock : string) (streaming : bool) (t : Z)
    (clk : Clock) (st : Engine * BrowserService.Pool)
  : Engine * BrowserService.Pool :=
  let '(e, pool) := st in
  match clientStreams e !! sock with
  | None => st
  | Some r =>
      match objects e !! r with
      | None => st
      | Some settings =>
          let wasActive := active settings in
          let settings' := set_active streaming settings in
          let e1 := write_object r settings' e in
          if active settings' && negb wasActive
             && (t - lastFrameTime settings' >? 1000)
          then startStreamLoop sock r clk e1 pool
          else (e1, pool)
      end
  end.

(** The [disconnect] listeners of the streaming service: the entry
    of the socket goes, and every loop started for the socket has
    its flag cleared. *)
Definition disconnectListeners (sock : string) (e : Engine) : Engine :=
  {| clientStreams := delete sock (clientStreams e);
     objects := objects e;
     loops := map (fun l => if String.eqb (loop_socket l) sock
                             then set_isStreaming false l else l) (loops e);
     listeners := delete sock (listeners e);
     emitted := emitted e |}.

(** A message reaches every listener registered for it. *)
Definition onStreamSettingsMsg (sock : string) (m : InitialSettings) (e : Engine) : Engine :=
  Nat.iter (listener_count sock e) (streamSettingsListener sock m) e.

Definition onLatencyMsg (sock : string) (reported : Z) (e : Engine) : Engine :=
  Nat.iter (listener_count sock e) (latencyListener sock reported) e.

Definition onStreamControlMsg (sock : string) (streaming : bool) (t : Z)
    (clk : Clock) (e : Engine) (pool : BrowserService.Pool)
  : Engine * BrowserService.Pool :=
  Nat.iter (listener_count sock e) (streamControlListener sock streaming t clk) (e, pool).

End Loops.

(** A loop that still has a continuation and was not cancelled. *)
Definition runnable (l : Loop) : bool :=
  isStreaming l && negb (phase_is_stopped (phase l)).

Definition runnable_loops (sock : string) (e : Engine) : list Loop :=
  filter (fun l => String.eqb (loop_socket l) sock && runnable l = true) (loops e).

Definition frames_of (sock : string) (e : Engine) : list Frame :=
  map snd (filter (fun p => String.eqb (fst p) sock = true) (emitted e)).

(** The keyframe flags of [n] successive calls of [getNextFrame] on a
    settings object, all at clock [t]. *)
Fixpoint keyframe_flags (n : nat) (t : Z) (s : StreamSettings) : list bool :=
  match n with
  | O => []
  | S k => snd (frame_begin t s) :: keyframe_flags k t (fst (frame_begin t s))
  end.



(** *** Payload values that are not whole numbers

    [InitialSettings] stands for the payloads whose [fps] and
    [quality] are whole numbers or absent, and [StreamSettings] for
    the settings objects that come of them.  The handlers do not check
    what they are given: [initializeStream] and the [stream-settings]
    listener hand the value of the payload to [Math.min] and
    [Math.max] as it is.  The definitions below follow one such
    number through the two handlers for the values [InitialSettings]
    leaves out. *)

(** A payload field as [||], [Math.min] and [Math.max] treat it:
    absent ([undefined]), a whole number, or a value that is not a
    number and does not convert to one, such as the string ['abc'] or
    an object, which is truthy and which [ToNumber] turns into
    [NaN]. *)
Inductive Field :=
| Missing
| Whole (v : Z)
| Unnumeric.

(** A number as a settings object holds it. *)
Inductive Stored :=
| Number (v : Z)
| NaN.

(** [Math.max(a, b)] and [Math.min(a, b)]: [NaN] when an argument
    is. *)
Definition math_max (a b : Stored) : Stored :=
  match a, b with
  | Number x, Number y => Number (Z.max x y)
  | _, _ => NaN
  end.

Definition math_min (a b : Stored) : Stored :=
  match a, b with
  | Number x, Number y => Number (Z.min x y)
  | _, _ => NaN
  end.

(** [ToNumber] of a field. *)
Definition to_number (x : Field) : Stored :=
  match x with
  | Whole v => Number v
  | Missing => NaN
  | Unnumeric => NaN
  end.

Definition field_truthy (x : Field) : bool :=
  match x with
  | Whole v => negb (v =? 0)
  | Missing => false
  | Unnumeric => true
  end.


(** [Math.min(hi, Math.max(lo, x || preset))], the [fps] and the
    [quality] of the settings object [initializeStream] builds. *)
Definition initial_number (lo hi : Z) (x : Field) (preset : Z) : Stored :=
  let chosen := if field_truthy x then to_number x else Number preset in
  math_min (Number hi) (math_max (Number lo) chosen).




(** *** Successive ticks of one loop

    [getNextFrame] from its clock read to its end, once for each
    element of [ticks]: the clock of the tick and what
    [page.screenshot] gave ([None] when it threw, or when the browser
    was not in the pool and [getScreenshot] returned [null] at once).
    For each tick the result has the keyframe flag it decided and the
    frames it sent. *)
Fixpoint run_ticks (compress : string -> string)
    (SCREENSHOT_TYPE : option BrowserService.ImageFormat)
    (ticks : list (Z * option Base64.bytes)) (s : StreamSettings)
  : list (bool * list Frame) * StreamSettings :=
  match ticks with
  | [] => ([], s)
  | (t, capture) :: r =>
      let '(s1, kf) := frame_begin t s in
      let shot := BrowserService.screenshot_exit (frame_options (quality s1) kf)
                    SCREENSHOT_TYPE capture in
      let '(s2, frames) := frame_end compress t kf shot s1 in
      let '(rest, s3) := run_ticks compress SCREENSHOT_TYPE r s2 in
      ((kf, frames) :: rest, s3)
  end.

(** The references of the engine are in order: every settings entry
    and every loop points at an object that exists, no object is the
    current one of two sockets, and the object a loop works on is
    nobody's current object but possibly its own socket's. *)
Definition owned (e : Engine) : Prop :=
  (forall sock r, clientStreams e !! sock = Some r -> (r < length (objects e))%nat)
  /\ (forall s1 s2 r,
        clientStreams e !! s1 = Some r -> clientStreams e !! s2 = Some r -> s1 = s2)
  /\ (forall i l, loops e !! i = Some l ->
        (loop_settings l < length (objects e))%nat
        /\ forall sock, clientStreams e !! sock = Some (loop_settings l) ->
                        sock = loop_socket l).

(** Loops that differ from those of [ls] in phase and flag only. *)
Definition same_loops (ls ls' : list Loop) : Prop :=
  forall j x, ls' !! j = Some x ->
    exists y, ls !! j = Some y
              /\ loop_socket x = loop_socket y /\ loop_settings x = loop_settings y.

(** What the listeners of [sock] may do to the engine: write to the
    current object of [sock] and start loops on it.  The entries and
    the frames sent stay, and so does [owned]. *)
Definition confined (sock : string) (e e' : Engine) : Prop :=
  clientStreams e' = clientStreams e
  /\ emitted e' = emitted e
  /\ (owned e -> owned e')
  /\ (forall k, (forall r, clientStreams e !! sock = Some r -> r <> k) ->
        objects e' !! k = objects e !! k).

(** What the [disconnect] listener that [startStreamLoop] attaches
    does to one loop: the flag of a loop of that socket is cleared. *)
Definition cancel_for (sock : string) (l : Loop) : Loop :=
  if String.eqb (loop_socket l) sock then set_isStreaming false l else l.

End StreamingService.

(** ** socketService.js *)

Module SocketService.
Import StreamingService.

(** What the handlers read from a socket: its id, the device class
    [detectDeviceType] finds in its user agent, its session id. *)
Record Socket := {
  socket_id : string;
  socket_device : DeviceProfiles.DeviceType;
  socket_session : option string
}.

(** The payload of [init]. *)
Record InitData := {
  d_url : option string;
  d_width : option Z;
  d_height : option Z;
  d_fps : option Z;
  d_quality : option Z;
  d_adaptiveBitrate : option bool
}.

Definition DEFAULT_URL : string := "https://www.google.com".

(** The process: the pool, [socketBrowserMap], the streaming service. *)
Record State := {
  activeBrowsers : BrowserService.Pool;
  socketBrowserMap : gmap string string;
  engine : Engine
}.

Definition initial : State :=
  {| activeBrowsers := []; socketBrowserMap := ∅; engine := empty_engine |}.

Inductive Event :=
| Init (sock : Socket) (data : InitData) (env : BrowserService.CreateEnv)
       (resolution : Z * Z) (t : Z) (clk : Clock)
| StreamSettingsMsg (sock : string) (m : InitialSettings)
| StreamControlMsg (sock : string) (streaming : bool) (t : Z) (clk : Clock)
| LatencyReportMsg (sock : string) (reported : Z)
| Disconnect (sock : string) (closed_ok : bool)
| TimerFires (loop : nat) (clk : Clock)
| ScreenshotResolves (loop : nat) (capture : option Base64.bytes).

Section Router.
Variable MAX_BROWSERS : Z.
Variable compress : string -> string.
Variable SCREENSHOT_TYPE : option BrowserService.ImageFormat.

Definition stream_init (sock : Socket) (data : InitData) : InitialSettings :=
  {| i_fps := d_fps data; i_quality := d_quality data;
     i_width := d_width data; i_height := d_height data;
     i_adaptiveBitrate := d_adaptiveBitrate data;
     i_connectionQuality := None |}.

(** The [init] handler: the browser of the socket is reused when
    there is one, and the stream is initialised in both cases. *)
Definition onInit (sock : Socket) (data : InitData)
    (env : BrowserService.CreateEnv) (resolution : Z * Z) (t : Z)
    (clk : Clock) (st : State) : State :=
  let start browser pool map :=
    let '(e, pool') :=
      initializeStream (socket_id sock) (socket_device sock)
        (socket_session sock) browser (stream_init sock data)
        resolution t clk (engine st) pool in
    {| activeBrowsers := pool'; socketBrowserMap := map; engine := e |} in
  match socketBrowserMap st !! socket_id sock with
  | Some browserId => start browserId (activeBrowsers st) (socketBrowserMap st)
  | None =>
      match BrowserService.createBrowser MAX_BROWSERS
              (defined_or (d_url data) DEFAULT_URL)
              (num_or (d_width data) 1920) (num_or (d_height data) 1080)
              env (activeBrowsers st) with
      | (None, pool) =>
          {| activeBrowsers := pool; socketBrowserMap := socketBrowserMap st;
             engine := engine st |}
      | (Some browserId, pool) =>
          start browserId pool (<[socket_id sock := browserId]> (socketBrowserMap st))
      end
  end.

(** The [disconnect] handlers of the router and of the streaming
    service. *)
Definition onDisconnect (sock : string) (closed_ok : bool) (st : State) : State :=
  let e := disconnectListeners sock (engine st) in
  match socketBrowserMap st !! sock with
  | None =>
      {| activeBrowsers := activeBrowsers st;
         socketBrowserMap := socketBrowserMap st; engine := e |}
  | Some browserId =>
      {| activeBrowsers :=
           snd (BrowserService.closeBrowser browserId closed_ok (activeBrowsers st));
         socketBrowserMap := delete sock (socketBrowserMap st);
         engine := e |}
  end.

Definition step (st : State) (ev : Event) : State :=
  match ev with
  | Init sock data env resolution t clk => onInit sock data env resolution t clk st
  | StreamSettingsMsg sock m =>
      {| activeBrowsers := activeBrowsers st;
         socketBrowserMap := socketBrowserMap st;
         engine := onStreamSettingsMsg sock m (engine st) |}
  | StreamControlMsg sock streaming t clk =>
      let '(e, pool) :=
        onStreamControlMsg sock streaming t clk (engine st)
          (activeBrowsers st) in
      {| activeBrowsers := pool; socketBrowserMap := socketBrowserMap st;
         engine := e |}
  | LatencyReportMsg sock reported =>
      {| activeBrowsers := activeBrowsers st;
         socketBrowserMap := socketBrowserMap st;
         engine := onLatencyMsg sock reported (engine st) |}
  | Disconnect sock closed_ok => onDisconnect sock closed_ok st
  | TimerFires i clk =>
      let '(e, pool) := onTimer i clk (engine st) (activeBrowsers st) in
      {| activeBrowsers := pool; socketBrowserMap := socketBrowserMap st;
         engine := e |}
  | ScreenshotResolves i capture =>
      {| activeBrowsers := activeBrowsers st;
         socketBrowserMap := socketBrowserMap st;
         engine := onScreenshot compress SCREENSHOT_TYPE i capture (engine st) |}
  end.

Definition run (evs : list Event) (st : State) : State :=
  fold_left step evs st.

End Router.

(** The socket an event belongs to: the sender of a message, the
    socket of the loop whose timer fires or whose screenshot arrives. *)
Definition event_socket (st : State) (ev : Event) : option string :=
  match ev with
  | Init sock _ _ _ _ _ => Some (socket_id sock)
  | StreamSettingsMsg sock _ => Some sock
  | StreamControlMsg sock _ _ _ => Some sock
  | LatencyReportMsg sock _ => Some sock
  | Disconnect sock _ => Some sock
  | TimerFires i _ => option_map loop_socket (loops (engine st) !! i)
  | ScreenshotResolves i _ => option_map loop_socket (loops (engine st) !! i)
  end.

(** What a handler passes to its [callback]. *)
Record Ack := {
  ack_success : bool;
  ack_error : option string;
  ack_url : option string
}.

Definition no_browser : Ack :=
  {| ack_success := false; ack_error := Some "No browser instance found"%string;
     ack_url := None |}.

(** [socketBrowserMap.get(socket.id)] under [if (!browserId)]. *)
Definition browser_of (sock : string) (st : State) : option string :=
  match socketBrowserMap st !! sock with
  | Some b => if String.eqb b "" then None else Some b
  | None => None
  end.

Definition with_pool (pool : BrowserService.Pool) (st : State) : State :=
  {| activeBrowsers := pool; socketBrowserMap := socketBrowserMap st;
     engine := engine st |}.

(** The [navigate] handler; [now], [loaded] and [page_url] are what
    the clock, [page.goto] and [page.url()] give. *)
Definition onNavigate (sock u : string) (now : Z) (loaded : bool)
    (page_url : option string) (st : State) : Ack * State :=
  match browser_of sock st with
  | None => (no_browser, st)
  | Some browserId =>
      let '(success, pool) :=
        BrowserService.navigateTo browserId u now loaded (activeBrowsers st) in
      let currentUrl := BrowserService.getCurrentUrl browserId page_url pool in
      ({| ack_success := success; ack_error := None; ack_url := currentUrl |},
       with_pool pool st)
  end.

(** The [action] handler, with its special case. *)
Definition onAction (sock action : string) (now : Z) (done : bool)
    (page_url : option string) (st : State) : Ack * State :=
  match browser_of sock st with
  | None => (no_browser, st)
  | Some browserId =>
      if String.eqb action "getCurrentUrl"
      then ({| ack_success := true; ack_error := None;
               ack_url := BrowserService.getCurrentUrl browserId page_url
                            (activeBrowsers st) |}, st)
      else
        let '(success, pool) :=
          BrowserService.executeAction browserId action now done (activeBrowsers st) in
        ({| ack_success := success; ack_error := None; ack_url := None |},
         with_pool pool st)
  end.

(** The [resize] handler. *)
Definition onResize (sock : string) (w h : Z) (resized : bool) (st : State)
  : Ack * State :=
  match browser_of sock st with
  | None => (no_browser, st)
  | Some browserId =>
      let '(success, pool) :=
        BrowserService.resizeViewport browserId w h resized (activeBrowsers st) in
      ({| ack_success := success; ack_error := None; ack_url := None |},
       with_pool pool st)
  end.

(** The three requests a client makes on its browser, with what the
    clock and the page give while they are served. *)
Inductive Request :=
| Navigate (u : string) (now : Z) (loaded : bool) (page_url : option string)
| Action (action : string) (now : Z) (done : bool) (page_url : option string)
| Resize (w h : Z) (resized : bool).

Definition handle (sock : string) (q : Request) (st : State) : Ack * State :=
  match q with
  | Navigate u now loaded page_url => onNavigate sock u now loaded page_url st
  | Action action now done page_url => onAction sock action now done page_url st
  | Resize w h resized => onResize sock w h resized st
  end.

(** Requests served one after the other. *)
Definition serve (reqs : list (string * Request)) (st : State) : State :=
  fold_left (fun acc r => snd (handle (fst r) (snd r) acc)) reqs st.

(** The requests that use a browser without counting as use: a
    resize, and the [getCurrentUrl] action. *)
Definition quiet (q : Request) : bool :=
  match q with
  | Resize _ _ _ => true
  | Action action _ _ _ => String.eqb action "getCurrentUrl"
  | Navigate _ _ _ _ => false
  end.

End SocketService.

(** ** Concrete inputs used by the examples of Part II *)

Module Scenarios.

(** A session created at time 0 and never touched since. *)
Definition old_session : SessionService.Session :=
  {| SessionService.id := "sid-1";
     SessionService.token := "tok-1";
     SessionService.type := SessionService.ANONYMOUS;
     SessionService.userId := None;
     SessionService.username := None;
     SessionService.browserId := None;
     SessionService.createdAt := 0;
     SessionService.lastActivity := 0;
     SessionService.ipAddress := "10.0.0.1";
     SessionService.userAgent := "ua";
     SessionService.settings :=
       {| SessionService.fps := 30; SessionService.quality := 80;
          SessionService.adaptiveBitrate := true;
          SessionService.resolution :=
            {| SessionService.res_width := 1920;
               SessionService.res_height := 1080 |} |};
     SessionService.metadata := [] |}.

Definition old_store : SessionService.Store :=
  {| SessionService.sessions := {[ "sid-1"%string := old_session ]};
     SessionService.tokenToSessionMap := {[ "tok-1"%string := "sid-1"%string ]} |}.

(** Three hours and one millisecond after the session was last used. *)
Definition three_hours_later : Z := 3 * 60 * 60 * 1000 + 1.

(** Two [createBrowser] calls that read the same millisecond: the
    first stores its instance at 1000, the second looks for the
    oldest browser at 1000. *)
Definition first_create : BrowserService.CreateEnv :=
  {| BrowserService.now_select := 1000;
     BrowserService.evict_ok := true;
     BrowserService.launched := Some ("browser-a"%string, 1000) |}.

Definition second_create : BrowserService.CreateEnv :=
  {| BrowserService.now_select := 1000;
     BrowserService.evict_ok := true;
     BrowserService.launched := Some ("browser-b"%string, 1000) |}.

Definition back_to_back : list BrowserService.Call :=
  [BrowserService.Create "https://example.org" 1920 1080 first_create;
   BrowserService.Create "https://example.org" 1920 1080 second_create].

(** A desktop stream at the default fps and quality, adaptive. *)
Definition default_init : StreamingService.InitialSettings :=
  {| StreamingService.i_fps := Some 30;
     StreamingService.i_quality := Some 80;
     StreamingService.i_width := None;
     StreamingService.i_height := None;
     StreamingService.i_adaptiveBitrate := Some true;
     StreamingService.i_connectionQuality := None |}.

Definition default_stream : StreamingService.StreamSettings :=
  StreamingService.initialSettingsObject "browser-a" default_init
    DeviceProfiles.DESKTOP None (1920, 1080) 0.

(** Streams declared on a fast and on a slow connection. *)
Definition on_connection (c : DeviceProfiles.ConnectionSpeed)
  : StreamingService.StreamSettings :=
  StreamingService.initialSettingsObject "browser-a"
    {| StreamingService.i_fps := None;
       StreamingService.i_quality := None;
       StreamingService.i_width := None;
       StreamingService.i_height := None;
       StreamingService.i_adaptiveBitrate := None;
       StreamingService.i_connectionQuality := Some c |}
    DeviceProfiles.DESKTOP None (1920, 1080) 0.

(** A server with the default capacity, the stand-in codec and no
    [SCREENSHOT_TYPE], and one desktop client. *)
Definition server (events : list SocketService.Event)
    (st : SocketService.State) : SocketService.State :=
  SocketService.run BrowserService.DEFAULT_MAX_BROWSERS
    (@Compression.compressBase64 Compression.stored) None events st.

Definition socket_1 : SocketService.Socket :=
  {| SocketService.socket_id := "socket-1";
     SocketService.socket_device := DeviceProfiles.DESKTOP;
     SocketService.socket_session := None |}.

Definition no_data : SocketService.InitData :=
  {| SocketService.d_url := None; SocketService.d_width := None;
     SocketService.d_height := None; SocketService.d_fps := None;
     SocketService.d_quality := None;
     SocketService.d_adaptiveBitrate := None |}.

Definition at_time (t : Z) : StreamingService.Clock :=
  {| StreamingService.now := t; StreamingService.now_shot := t |}.

Definition init_at (t : Z) : SocketService.Event :=
  SocketService.Init socket_1 no_data first_create (1920, 1080) t (at_time t).

Definition image_1 : Base64.bytes := ["A"%byte; "B"%byte; "C"%byte].
Definition image_2 : Base64.bytes := ["D"%byte; "E"%byte; "F"%byte].

(** The client has sent [init]; its loop waits for the first
    screenshot. *)
Definition after_init : SocketService.State :=
  server [init_at 1000] SocketService.initial.

(** A [stream-settings] message that asks for quality 50. *)
Definition quality_50 : StreamingService.InitialSettings :=
  {| StreamingService.i_fps := None;
     StreamingService.i_quality := Some 50;
     StreamingService.i_width := None;
     StreamingService.i_height := None;
     StreamingService.i_adaptiveBitrate := None;
     StreamingService.i_connectionQuality := None |}.

(** The loop of the client and its settings object, as they are in
    [after_init]. *)
Definition first_object : StreamingService.StreamSettings :=
  fst (StreamingService.frame_begin 1000
         (StreamingService.initialSettingsObject "browser-a"
            (SocketService.stream_init socket_1 no_data)
            DeviceProfiles.DESKTOP None (1920, 1080) 1000)).

Definition first_loop : StreamingService.Loop :=
  {| StreamingService.loop_socket := "socket-1";
     StreamingService.loop_settings := 0%nat;
     StreamingService.isStreaming := true;
     StreamingService.phase :=
       StreamingService.Awaiting 1000 true (StreamingService.frame_options 75 true) |}.

(** The pool once the screenshot of the tick at 1040 has been asked
    for. *)
Definition pool_at_1040 : BrowserService.Pool :=
  match BrowserService.screenshot_enter "browser-a" 1040
          (SocketService.activeBrowsers after_init) with
  | Some pool => pool
  | None => []
  end.

End Scenarios.

(** ** Further concrete inputs *)

Module Cases.

(** A client at 10.0.0.7 with no preferences. *)
Definition visitor : SessionService.CreateOptions :=
  {| SessionService.o_type := None;
     SessionService.o_userId := None;
     SessionService.o_username := None;
     SessionService.o_ipAddress := "10.0.0.7";
     SessionService.o_userAgent := "ua-2";
     SessionService.o_settings := None;
     SessionService.o_metadata := None |}.

(** A day in the life of the store: two sessions are made, one is
    looked up, validated and bound to a browser, the reaper passes,
    the other is deleted. *)
Definition busy_day : list SessionService.Call :=
  [SessionService.CreateSession "sid-a" "tok-a" 0 visitor;
   SessionService.GetOrCreateSession (Some "tok-a"%string) visitor
     "sid-x" "tok-x" 10 11;
   SessionService.GetOrCreateSession (Some ""%string) visitor
     "sid-b" "tok-b" 20 21;
   SessionService.ValidateSession "tok-b" 30 30;
   SessionService.UpdateSessionBrowserId "sid-b" "browser-a" 40;
   SessionService.CleanupInactiveSessions 7200011;
   SessionService.DeleteSession "sid-b"].

(** Three browsers, last used at 100, 50 and 50: the pool is full for a
    capacity of three. *)
Definition browser (name : string) (t : Z) : string * BrowserService.BrowserInstance :=
  (name, {| BrowserService.id := name;
            BrowserService.url := "https://example.org";
            BrowserService.lastActivity := t;
            BrowserService.viewportWidth := 1920;
            BrowserService.viewportHeight := 1080 |}).

Definition three_browsers : BrowserService.Pool :=
  [browser "browser-a" 100; browser "browser-b" 50; browser "browser-c" 50].

Definition create_at (t : Z) (name : string) : BrowserService.CreateEnv :=
  {| BrowserService.now_select := t;
     BrowserService.evict_ok := true;
     BrowserService.launched := Some (name, t + 1) |}.

Definition no_options : BrowserService.ScreenshotOptions :=
  {| BrowserService.opt_quality := None;
     BrowserService.opt_fullPage := false;
     BrowserService.opt_isKeyframe := None;
     BrowserService.opt_format := None;
     BrowserService.opt_omitBackground := false |}.

(** Creations at a capacity of two, with activity, a failed launch and
    a pass of the reaper in between. *)
Definition pool_traffic : list BrowserService.Operation :=
  [BrowserService.OpCreate "https://a.example" 1920 1080 (create_at 0 "browser-a");
   BrowserService.OpCreate "b.example" 1280 720 (create_at 10 "browser-b");
   BrowserService.OpNavigate "browser-a" "c.example" 20 true;
   BrowserService.OpCreate "https://c.example" 1920 1080 (create_at 30 "browser-c");
   BrowserService.OpExecute "browser-a" "click" 40 true;
   BrowserService.OpResize "browser-c" 800 600 true;
   BrowserService.OpCreate "https://d.example" 1920 1080
     {| BrowserService.now_select := 50; BrowserService.evict_ok := false;
        BrowserService.launched := None |};
   BrowserService.OpCleanup 900042 (fun _ => true);
   BrowserService.OpCreate "https://e.example" 1920 1080 (create_at 900050 "browser-e")].

(** The client of [Scenarios.after_init] once its first frame has
    been sent: its loop waits for the timer. *)
Definition streaming : SocketService.State :=
  Scenarios.server
    [Scenarios.init_at 1000;
     SocketService.ScreenshotResolves 0 (Some Scenarios.image_1)]
    SocketService.initial.

Definition streaming_object : StreamingService.StreamSettings :=
  nth 0 (StreamingService.objects (SocketService.engine streaming))
    Scenarios.default_stream.

Definition streaming_loop : StreamingService.Loop :=
  StreamingService.set_phase StreamingService.Timer Scenarios.first_loop.

(** A second desktop client, and both clients streaming. *)
Definition socket_2 : SocketService.Socket :=
  {| SocketService.socket_id := "socket-2";
     SocketService.socket_device := DeviceProfiles.DESKTOP;
     SocketService.socket_session := None |}.

Definition two_clients : list SocketService.Event :=
  [Scenarios.init_at 1000;
   SocketService.Init socket_2 Scenarios.no_data (create_at 1010 "browser-b")
     (1920, 1080) 1012 (Scenarios.at_time 1012);
   SocketService.ScreenshotResolves 0 (Some Scenarios.image_1);
   SocketService.ScreenshotResolves 1 (Some Scenarios.image_2)].

End Cases.

(* ===================================================================== *)
(** * Part II: properties *)
(* ===================================================================== *)

Section SessionFacts.
Import SessionService.

Lemma getSession_hit idOrToken now st s :
  sessions st !! resolve idOrToken st = Some s ->
  getSession idOrToken now st =
    (Some (set_lastActivity now s),
     {| sessions := <[resolve idOrToken st := set_lastActivity now s]> (sessions st);
        tokenToSessionMap := tokenToSessionMap st |}).
Proof. intros H. unfold getSession. now rewrite H. Qed.

Lemma getSession_miss idOrToken now st :
  sessions st !! resolve idOrToken st = None ->
  getSession idOrToken now st = (None, st).
Proof. intros H. unfold getSession. now rewrite H. Qed.

(** A successful [getSession] only happens on a stored session. *)
Lemma getSession_Some_inv idOrToken now st s' st' :
  getSession idOrToken now st = (Some s', st') ->
  exists s, sessions st !! resolve idOrToken st = Some s
            /\ s' = set_lastActivity now s
            /\ st' = {| sessions := <[resolve idOrToken st := s']> (sessions st);
                        tokenToSessionMap := tokenToSessionMap st |}.
Proof.
  unfold getSession.
  destruct (sessions st !! resolve idOrToken st) as [s|] eqn:E; intros H.
  - inversion H; subst. exists s. auto.
  - discriminate.
Qed.

(** [validateSession] hands back what its inner [getSession] found,
    or nothing. *)
Lemma validateSession_Some_inv tok now_get now_check st s' st' :
  validateSession tok now_get now_check st = (Some s', st') ->
  getSession tok now_get st = (Some s', st').
Proof.
  unfold validateSession.
  destruct (getSession tok now_get st) as [[s|] st1] eqn:E.
  - destruct (_ >? _); intros H; inversion H; subst; reflexivity.
  - discriminate.
Qed.

(** The expiry test of [validateSession] compares the two clock reads
    of the call, not the age of the session. *)
Lemma validateSession_test tok now_get now_check st s :
  sessions st !! resolve tok st = Some s ->
  validateSession tok now_get now_check st =
    let s' := set_lastActivity now_get s in
    let st' := {| sessions := <[resolve tok st := s']> (sessions st);
                  tokenToSessionMap := tokenToSessionMap st |} in
    if now_check - now_get >? SESSION_TIMEOUT
    then (None, snd (deleteSession (id s) st'))
    else (Some s', st').
Proof.
  intros H. unfold validateSession. rewrite (getSession_hit _ _ _ _ H).
  reflexivity.
Qed.

(** However old the session, it is returned and stays indexed when
    the two clock reads are less than the timeout apart. *)
Lemma validateSession_keeps tok now_get now_check st s :
  sessions st !! resolve tok st = Some s ->
  now_check - now_get <= SESSION_TIMEOUT ->
  let r := validateSession tok now_get now_check st in
  fst r = Some (set_lastActivity now_get s)
  /\ sessions (snd r) !! resolve tok st = Some (set_lastActivity now_get s)
  /\ tokenToSessionMap (snd r) = tokenToSessionMap st.
Proof.
  intros H Hle. cbv zeta. rewrite (validateSession_test _ _ _ _ _ H). cbv zeta.
  destruct (now_check - now_get >? SESSION_TIMEOUT) eqn:E.
  - apply Z.gtb_lt in E. lia.
  - cbn. split; [reflexivity|]. split; [apply lookup_insert_eq | reflexivity].
Qed.

End SessionFacts.

(** C10.  A successful lookup through [getSession] -- directly, by id
    or by token, or as the lookup inside [validateSession] -- returns
    the stored session with [lastActivity] set to the clock read by the
    lookup and every other field as it was; the store holds the same
    updated session under the same id, other sessions and the token
    index are untouched. *)
Theorem getSession_refreshes_lastActivity
    (idOrToken : string) (now now_check : Z)
    (st st' : SessionService.Store) (s' : SessionService.Session) :
  SessionService.getSession idOrToken now st = (Some s', st')
  \/ SessionService.validateSession idOrToken now now_check st = (Some s', st') ->
  exists s key,
    key = SessionService.resolve idOrToken st
    /\ SessionService.sessions st !! key = Some s
    /\ SessionService.lastActivity s' = now
    /\ SessionService.id s' = SessionService.id s
    /\ SessionService.token s' = SessionService.token s
    /\ SessionService.type s' = SessionService.type s
    /\ SessionService.userId s' = SessionService.userId s
    /\ SessionService.username s' = SessionService.username s
    /\ SessionService.browserId s' = SessionService.browserId s
    /\ SessionService.createdAt s' = SessionService.createdAt s
    /\ SessionService.ipAddress s' = SessionService.ipAddress s
    /\ SessionService.userAgent s' = SessionService.userAgent s
    /\ SessionService.settings s' = SessionService.settings s
    /\ SessionService.metadata s' = SessionService.metadata s
    /\ SessionService.sessions st' !! key = Some s'
    /\ (forall k, k <> key ->
          SessionService.sessions st' !! k = SessionService.sessions st !! k)
    /\ SessionService.tokenToSessionMap st' = SessionService.tokenToSessionMap st.
Proof.
  intros H.
  assert (Hg : SessionService.getSession idOrToken now st = (Some s', st')).
  { destruct H as [H|H]; [exact H | exact (validateSession_Some_inv _ _ _ _ _ _ H)]. }
  destruct (getSession_Some_inv _ _ _ _ _ Hg) as (s & Hs & -> & ->).
  exists s, (SessionService.resolve idOrToken st). cbn.
  repeat split; try reflexivity; try assumption.
  - apply lookup_insert_eq.
  - intros k Hk. apply lookup_insert_ne. congruence.
Qed.

Lemma getSession_refreshes_lastActivity_witness :
  exists s key,
    key = SessionService.resolve "tok-1" Scenarios.old_store
    /\ SessionService.sessions Scenarios.old_store !! key = Some s
    /\ SessionService.lastActivity
         (SessionService.set_lastActivity 42 Scenarios.old_session) = 42
    /\ SessionService.id (SessionService.set_lastActivity 42 Scenarios.old_session)
       = SessionService.id s.
Proof.
  destruct (getSession_refreshes_lastActivity "tok-1" 42 42 Scenarios.old_store
              {| SessionService.sessions :=
                   <["sid-1"%string :=
                       SessionService.set_lastActivity 42 Scenarios.old_session]>
                     (SessionService.sessions Scenarios.old_store);
                 SessionService.tokenToSessionMap :=
                   SessionService.tokenToSessionMap Scenarios.old_store |}
              (SessionService.set_lastActivity 42 Scenarios.old_session))
    as (s & key & Hkey & Hs & Hla & Hid & _).
  - left. reflexivity.
  - exists s, key. repeat split; assumption.
Defined.

(** C4.  On the store holding one session last used at time 0,
    [validateSession] called three hours later (both clock reads
    there) returns the session instead of nothing, and the session and
    its token are still indexed: the lookup has just set
    [lastActivity] to the present, so the expiry test sees an age of
    zero. *)
Theorem validateSession_returns_stale_session :
  let t := Scenarios.three_hours_later in
  let r := SessionService.validateSession "tok-1" t t Scenarios.old_store in
  t - SessionService.lastActivity Scenarios.old_session > SessionService.SESSION_TIMEOUT
  /\ fst r = Some (SessionService.set_lastActivity t Scenarios.old_session)
  /\ SessionService.sessions (snd r) !! "sid-1"%string
     = Some (SessionService.set_lastActivity t Scenarios.old_session)
  /\ SessionService.tokenToSessionMap (snd r) !! "tok-1"%string = Some "sid-1"%string.
Proof.
  cbv zeta.
  assert (Hres : SessionService.resolve "tok-1" Scenarios.old_store = "sid-1"%string)
    by reflexivity.
  assert (Hs : SessionService.sessions Scenarios.old_store
                 !! SessionService.resolve "tok-1" Scenarios.old_store
               = Some Scenarios.old_session) by reflexivity.
  destruct (validateSession_keeps "tok-1" Scenarios.three_hours_later
              Scenarios.three_hours_later Scenarios.old_store
              Scenarios.old_session Hs) as (H1 & H2 & H3).
  { unfold SessionService.SESSION_TIMEOUT. lia. }
  rewrite Hres in H2.
  split; [reflexivity|]. split; [exact H1|]. split; [exact H2|].
  rewrite H3. reflexivity.
Qed.

Section PoolFacts.
Import BrowserService.

Lemma size_nonneg (m : Pool) : 0 <= size m.
Proof. unfold size. lia. Qed.

Lemma size_delete_le k (m : Pool) : size (delete k m) <= size m.
Proof.
  unfold size. induction m as [|[k' v'] r IH]; cbn [delete length]; [lia|].
  destruct (String.eqb k k'); cbn [length]; lia.
Qed.

Lemma size_delete_lt k (m : Pool) v :
  get k m = Some v -> size (delete k m) < size m.
Proof.
  unfold size. induction m as [|[k' v'] r IH]; cbn [get delete length]; [discriminate|].
  destruct (String.eqb k k') eqn:E; intros H.
  - pose proof (size_delete_le k r) as Hle. unfold size in Hle. lia.
  - specialize (IH H). cbn [length]. lia.
Qed.

Lemma size_set_le k v (m : Pool) : size (set k v m) <= size m + 1.
Proof.
  unfold size. induction m as [|[k' v'] r IH]; cbn [set length]; [lia|].
  destruct (String.eqb k k'); cbn [length]; lia.
Qed.

Lemma delete_absent k (m : Pool) :
  ~ In k (map fst m) -> delete k m = m.
Proof.
  induction m as [|[k' v'] r IH]; cbn [delete map fst In]; [reflexivity|].
  intros H. destruct (String.eqb_spec k k') as [->|Hne].
  - exfalso. apply H. now left.
  - f_equal. apply IH. intros Hin. apply H. now right.
Qed.

(** With distinct keys, as in a [Map], deleting a present key removes
    one entry. *)
Lemma size_delete_present k (m : Pool) v :
  List.NoDup (map fst m) -> get k m = Some v -> size (delete k m) = size m - 1.
Proof.
  unfold size. induction m as [|[k' v'] r IH]; cbn [get delete length map fst];
    [discriminate|].
  intros Hnd H. apply List.NoDup_cons_iff in Hnd as [Hnotin Hnd].
  destruct (String.eqb_spec k k') as [->|Hne].
  - rewrite (delete_absent _ _ Hnotin). lia.
  - specialize (IH Hnd H). cbn [length]. lia.
Qed.

Lemma get_In k v (m : Pool) : In (k, v) m -> exists v', get k m = Some v'.
Proof.
  induction m as [|[k' v'] r IH]; cbn [get In]; [tauto|].
  intros [H|H]; destruct (String.eqb_spec k k') as [->|Hne]; eauto.
  inversion H; subst. congruence.
Qed.

(** The loop that looks for the oldest browser, from any starting
    pair: the timestamp it ends with bounds every entry from below,
    and the pair is either the starting one or an entry strictly
    older than the starting timestamp. *)
Lemma oldest_fold (m : Pool) : forall acc,
  let r := fold_left oldest_step m acc in
  snd r <= snd acc
  /\ Forall (fun e => snd r <= lastActivity (snd e)) m
  /\ (r = acc
      \/ exists inst, In (fst r, inst) m
                      /\ lastActivity inst = snd r /\ snd r < snd acc).
Proof.
  induction m as [|e m IH]; intros acc; cbn [fold_left].
  - cbv zeta. split; [lia|]. split; [constructor | now left].
  - cbv zeta. specialize (IH (oldest_step acc e)). cbv zeta in IH.
    destruct IH as (Hle & Hall & Hcase).
    assert (Hstep : snd (oldest_step acc e) <= snd acc
                    /\ snd (oldest_step acc e) <= lastActivity (snd e)).
    { unfold oldest_step. destruct (lastActivity (snd e) <? snd acc) eqn:E.
      - apply Z.ltb_lt in E. cbn. lia.
      - apply Z.ltb_ge in E. lia. }
    destruct Hstep as [Hs1 Hs2].
    split; [lia|]. split.
    + constructor; [lia | exact Hall].
    + destruct Hcase as [Heq | (inst & Hin & Hla & Hlt)].
      * rewrite Heq. unfold oldest_step.
        destruct (lastActivity (snd e) <? snd acc) eqn:E.
        -- right. exists (snd e). cbn. apply Z.ltb_lt in E.
           split; [left; now destruct e | split; [reflexivity | exact E]].
        -- now left.
      * right. exists inst. split; [now right|]. split; [exact Hla | lia].
Qed.

(** No entry older than the starting timestamp: the loop changes
    nothing. *)
Lemma oldest_fold_none (m : Pool) : forall acc,
  Forall (fun e => snd acc <= lastActivity (snd e)) m ->
  fold_left oldest_step m acc = acc.
Proof.
  induction m as [|e m IH]; intros acc H; cbn [fold_left]; [reflexivity|].
  inversion H; subst.
  assert (Hs : oldest_step acc e = acc).
  { unfold oldest_step. destruct (lastActivity (snd e) <? snd acc) eqn:E;
      [apply Z.ltb_lt in E; lia | reflexivity]. }
  rewrite Hs. now apply IH.
Qed.

Lemma findOldest_none now (m : Pool) :
  Forall (fun e => now <= lastActivity (snd e)) m ->
  findOldest now m = (EmptyString, now).
Proof. intros H. unfold findOldest. now apply oldest_fold_none. Qed.

Lemma findOldest_victim now (m : Pool) :
  Exists (fun e => lastActivity (snd e) < now) m ->
  exists inst,
    In (fst (findOldest now m), inst) m
    /\ lastActivity inst = snd (findOldest now m)
    /\ lastActivity inst < now
    /\ Forall (fun e => lastActivity inst <= lastActivity (snd e)) m.
Proof.
  intros Hex. unfold findOldest.
  pose proof (oldest_fold m (EmptyString, now)) as H. cbv zeta in H.
  destruct H as (_ & Hall & [Heq | (inst & Hin & Hla & Hlt)]).
  - exfalso. rewrite Heq in Hall. cbn in Hall.
    apply List.Exists_exists in Hex as (e & Hin & Hlt).
    rewrite List.Forall_forall in Hall. specialize (Hall e Hin). lia.
  - exists inst. cbn in Hlt. rewrite Hla. repeat split; try assumption.
Qed.

Lemma truthy_nonempty k : k <> EmptyString -> truthy k = true.
Proof.
  intros H. unfold truthy. destruct (String.eqb_spec k EmptyString); [contradiction|reflexivity].
Qed.

(** When the pool is full and holds an instance older than the clock,
    admission closes one instance, one of the least recently used. *)
Lemma make_room_evicts_oldest MAX env (m : Pool) :
  MAX <= size m ->
  Exists (fun e => lastActivity (snd e) < now_select env) m ->
  Forall (fun e => fst e <> EmptyString) m ->
  List.NoDup (map fst m) ->
  exists victim inst,
    In (victim, inst) m
    /\ Forall (fun e => lastActivity inst <= lastActivity (snd e)) m
    /\ make_room MAX env m = delete victim m
    /\ size (make_room MAX env m) = size m - 1.
Proof.
  intros Hfull Hex Hkeys Hnd.
  destruct (findOldest_victim _ _ Hex) as (inst & Hin & _ & _ & Hmin).
  exists (fst (findOldest (now_select env) m)), inst.
  destruct (get_In _ _ _ Hin) as [v' Hget].
  assert (Hne : fst (findOldest (now_select env) m) <> EmptyString).
  { rewrite List.Forall_forall in Hkeys. exact (Hkeys _ Hin). }
  assert (Hadm : make_room MAX env m
                 = delete (fst (findOldest (now_select env) m)) m).
  { unfold make_room. destruct (size m >=? MAX) eqn:E.
    - rewrite (truthy_nonempty _ Hne). unfold closeBrowser. now rewrite Hget.
    - rewrite Z.geb_leb in E. apply Z.leb_gt in E. lia. }
  repeat split; try assumption.
  rewrite Hadm. exact (size_delete_present _ _ _ Hnd Hget).
Qed.

Lemma size_make_room_le MAX env (m : Pool) : size (make_room MAX env m) <= size m.
Proof.
  unfold make_room. destruct (size m >=? MAX); [|lia].
  destruct (truthy _); [|lia]. unfold closeBrowser.
  destruct (get _ m); cbn [snd]; [apply size_delete_le | lia].
Qed.

(** One [createBrowser] call keeps the pool within its capacity when
    there is room, or when an instance older than the clock exists. *)
Lemma createBrowser_within_capacity MAX u w h env (m : Pool) :
  1 <= MAX ->
  size m <= MAX ->
  size m < MAX
  \/ (Exists (fun e => lastActivity (snd e) < now_select env) m
      /\ Forall (fun e => fst e <> EmptyString) m) ->
  size (snd (createBrowser MAX u w h env m)) <= MAX.
Proof.
  intros Hmax Hle Hcase.
  assert (Hadm : size (make_room MAX env m) <= MAX - 1).
  { destruct (Z.lt_ge_cases (size m) MAX) as [Hlt|Hge].
    - pose proof (size_make_room_le MAX env m). lia.
    - destruct Hcase as [Hlt | [Hex Hkeys]]; [lia|].
      destruct (findOldest_victim _ _ Hex) as (inst & Hin & _ & _ & _).
      destruct (get_In _ _ _ Hin) as [v' Hget].
      assert (Hne : fst (findOldest (now_select env) m) <> EmptyString).
      { rewrite List.Forall_forall in Hkeys. exact (Hkeys _ Hin). }
      unfold make_room. destruct (size m >=? MAX) eqn:E.
      + rewrite (truthy_nonempty _ Hne). unfold closeBrowser. rewrite Hget.
        cbn [snd]. pose proof (size_delete_lt _ _ _ Hget). lia.
      + rewrite Z.geb_leb in E. apply Z.leb_gt in E. lia. }
  unfold createBrowser. destruct (launched env) as [[uuid t]|]; cbn [snd].
  - pose proof (size_set_le uuid
                  {| id := uuid; url := u; lastActivity := t;
                     viewportWidth := w; viewportHeight := h |}
                  (make_room MAX env m)). lia.
  - lia.
Qed.

Lemma size_set_fresh k v (m : Pool) :
  get k m = None -> size (set k v m) = size m + 1.
Proof.
  unfold size. induction m as [|[k' v'] r IH]; cbn [get set length]; [lia|].
  destruct (String.eqb k k'); [discriminate|].
  intros H. specialize (IH H). cbn [length]. lia.
Qed.

(** No instance older than the clock read by [createBrowser]: nothing
    is closed, and a successful launch takes a full pool over its
    capacity. *)
Lemma createBrowser_overflow MAX u w h env (m : Pool) uuid t :
  Forall (fun e => now_select env <= lastActivity (snd e)) m ->
  launched env = Some (uuid, t) ->
  get uuid m = None ->
  make_room MAX env m = m
  /\ size (snd (createBrowser MAX u w h env m)) = size m + 1.
Proof.
  intros Hall Hl Hfresh.
  assert (Hadm : make_room MAX env m = m).
  { unfold make_room. rewrite (findOldest_none _ _ Hall). cbn.
    now destruct (size m >=? MAX). }
  split; [exact Hadm|].
  unfold createBrowser. rewrite Hadm, Hl. cbn [snd].
  now apply size_set_fresh.
Qed.

End PoolFacts.

(** C1.  With [MAX_BROWSERS = 1], two [createBrowser] calls whose
    clock reads fall in the same millisecond leave two live instances:
    the second call finds the pool full, finds no instance strictly
    older than its clock, closes nothing and adds its own. *)
Theorem pool_exceeds_capacity :
  let MAX_BROWSERS := 1 in
  let after_first := BrowserService.run MAX_BROWSERS
                       [BrowserService.Create "https://example.org" 1920 1080
                          Scenarios.first_create] [] in
  let after_second := BrowserService.run MAX_BROWSERS Scenarios.back_to_back [] in
  BrowserService.size after_first = 1
  /\ BrowserService.size after_first >= MAX_BROWSERS
  /\ BrowserService.findOldest 1000 after_first = (EmptyString, 1000)
  /\ BrowserService.make_room MAX_BROWSERS Scenarios.second_create after_first
     = after_first
  /\ map fst after_second = ["browser-a"%string; "browser-b"%string]
  /\ BrowserService.size after_second = 2
  /\ BrowserService.size after_second > MAX_BROWSERS.
Proof.
  cbv zeta.
  set (m1 := BrowserService.run 1
               [BrowserService.Create "https://example.org" 1920 1080
                  Scenarios.first_create] []).
  assert (Hm1 : BrowserService.size m1 = 1) by reflexivity.
  destruct (createBrowser_overflow 1 "https://example.org" 1920 1080
              Scenarios.second_create m1 "browser-b" 1000) as [Hadm Hsize].
  { subst m1. cbn. repeat constructor. cbn. lia. }
  { reflexivity. }
  { reflexivity. }
  assert (Hrun : BrowserService.run 1 Scenarios.back_to_back []
                 = snd (BrowserService.createBrowser 1 "https://example.org" 1920 1080
                          Scenarios.second_create m1)) by reflexivity.
  split; [exact Hm1|]. split; [rewrite Hm1; lia|]. split; [reflexivity|].
  split; [exact Hadm|].
  split; [reflexivity|]. rewrite Hrun, Hsize, Hm1. split; [reflexivity | lia].
Qed.

Section ClampFacts.
Import StreamingService.















(** *** The same on the engine: every settings object stays clamped *)














End ClampFacts.

Section PayloadFacts.
Import StreamingService.



(** A value that is not a number comes out of both as [NaN]. *)
Lemma initial_number_unnumeric lo hi preset :
  initial_number lo hi Unnumeric preset = NaN.
Proof. reflexivity. Qed.



End PayloadFacts.



Section LatencyFacts.
Import StreamingService.

(** What one report above the high threshold does to an adaptive
    stream: the two guards are [quality > 30] and [fps > 10]. *)
Lemma onLatencyReport_high reported s :
  adaptiveBitrate s = true ->
  reported > LATENCY_THRESHOLD_HIGH ->
  quality (onLatencyReport reported s)
  = (if quality s >? 30 then Z.max 20 (quality s - 5) else quality s)
  /\ fps (onLatencyReport reported s)
     = (if fps s >? 10 then Z.max 5 (fps s - 2) else fps s)
  /\ adaptiveBitrate (onLatencyReport reported s) = true.
Proof.
  intros Ha Hl. unfold LATENCY_THRESHOLD_HIGH in Hl.
  unfold onLatencyReport. cbn [adaptiveBitrate latency set_latency latency_truthy].
  rewrite Ha.
  assert (E0 : (reported =? 0) = false) by (apply Z.eqb_neq; lia).
  rewrite E0. cbn [negb andb].
  unfold adjustQualityBasedOnLatency. cbn [latency set_latency]. rewrite E0.
  assert (E1 : (reported >? LATENCY_THRESHOLD_HIGH) = true).
  { unfold LATENCY_THRESHOLD_HIGH. apply Z.gtb_lt. lia. }
  rewrite E1. unfold MIN_QUALITY, MIN_FPS, set_latency.
  cbn [quality fps adaptiveBitrate].
  change (20 + 10) with 30. change (5 + 5) with 10.
  destruct (quality s >? 30); unfold set_quality; cbn [quality fps adaptiveBitrate];
    destruct (fps s >? 10); unfold set_fps; cbn [quality fps adaptiveBitrate];
    auto.
Qed.

(** [n] reports in a row from quality 80 and fps 30. *)
Lemma repeated_high_reports reported s n :
  adaptiveBitrate s = true ->
  reported > LATENCY_THRESHOLD_HIGH ->
  quality s = 80 -> fps s = 30 ->
  let s' := Nat.iter n (onLatencyReport reported) s in
  quality s' = Z.max 30 (80 - 5 * Z.of_nat n)
  /\ fps s' = Z.max 10 (30 - 2 * Z.of_nat n)
  /\ adaptiveBitrate s' = true.
Proof.
  intros Ha Hl Hq Hf. cbv zeta. induction n as [|n IH].
  - cbn [Nat.iter nat_rect]. rewrite Hq, Hf. split; [lia|]. split; [lia | exact Ha].
  - rewrite Nat.iter_succ. destruct IH as (IHq & IHf & IHa).
    destruct (onLatencyReport_high reported _ IHa Hl) as (Eq & Ef & Ea).
    rewrite Eq, Ef, IHq, IHf. split; [|split; [|exact Ea]].
    + destruct (Z.max 30 (80 - 5 * Z.of_nat n) >? 30) eqn:E.
      * apply Z.gtb_lt in E. lia.
      * rewrite Z.gtb_ltb in E. apply Z.ltb_ge in E. lia.
    + destruct (Z.max 10 (30 - 2 * Z.of_nat n) >? 10) eqn:E.
      * apply Z.gtb_lt in E. lia.
      * rewrite Z.gtb_ltb in E. apply Z.ltb_ge in E. lia.
Qed.

End LatencyFacts.

(** C8 as stated fails: after ten reports of 250 ms from quality 80
    and fps 30 the stream is at quality 30 and fps 10, and a further
    report of 250 ms changes neither, although 30 is above the floor
    20 and 10 above the floor 5; twenty reports do not reach 20 and
    5. *)
Lemma latency_downshift_stops_above_floor :
  let report := StreamingService.onLatencyReport 250 in
  let s10 := Nat.iter 10 report Scenarios.default_stream in
  let s20 := Nat.iter 20 report Scenarios.default_stream in
  StreamingService.adaptiveBitrate s10 = true
  /\ StreamingService.quality s10 = 30
  /\ StreamingService.fps s10 = 10
  /\ StreamingService.quality (report s10) = 30
  /\ StreamingService.fps (report s10) = 10
  /\ StreamingService.quality s20 <> 20
  /\ StreamingService.fps s20 <> 5.
Proof. cbv zeta. repeat split; try reflexivity; vm_compute; discriminate. Qed.

(** C8, amended.  On a latency report above 200 ms with adaptive on,
    quality goes down by 5 (not below 20) only when it is above 30,
    and fps by 2 (not below 5) only when it is above 10; otherwise
    they stay.  From quality 80 and fps 30, three such reports give
    quality 65 and fps 24, and ten or more give quality 30 and fps
    10. *)
Theorem latency_downshift_guarded
    (s : StreamingService.StreamSettings) (reported : Z) :
  StreamingService.adaptiveBitrate s = true ->
  reported > 200 ->
  let report := StreamingService.onLatencyReport reported in
  StreamingService.quality (report s)
  = (if StreamingService.quality s >? 30
     then Z.max 20 (StreamingService.quality s - 5)
     else StreamingService.quality s)
  /\ StreamingService.fps (report s)
     = (if StreamingService.fps s >? 10
        then Z.max 5 (StreamingService.fps s - 2)
        else StreamingService.fps s)
  /\ (StreamingService.quality s = 80 -> StreamingService.fps s = 30 ->
      StreamingService.quality (Nat.iter 3 report s) = 80 - 15
      /\ StreamingService.fps (Nat.iter 3 report s) = 30 - 6
      /\ forall n, (10 <= n)%nat ->
           StreamingService.quality (Nat.iter n report s) = 30
           /\ StreamingService.fps (Nat.iter n report s) = 10).
Proof.
  intros Ha Hl. cbv zeta.
  destruct (onLatencyReport_high reported s Ha Hl) as (Eq & Ef & _).
  split; [exact Eq|]. split; [exact Ef|].
  intros Hq Hf. split; [|split].
  - destruct (repeated_high_reports reported s 3 Ha Hl Hq Hf) as (E & _). rewrite E. lia.
  - destruct (repeated_high_reports reported s 3 Ha Hl Hq Hf) as (_ & E & _). rewrite E. lia.
  - intros n Hn.
    destruct (repeated_high_reports reported s n Ha Hl Hq Hf) as (E1 & E2 & _).
    rewrite E1, E2. lia.
Qed.

Lemma latency_downshift_guarded_witness :
  StreamingService.quality
    (Nat.iter 3 (StreamingService.onLatencyReport 250) Scenarios.default_stream) = 80 - 15
  /\ StreamingService.fps
       (Nat.iter 3 (StreamingService.onLatencyReport 250) Scenarios.default_stream) = 30 - 6.
Proof.
  destruct (latency_downshift_guarded Scenarios.default_stream 250) as (_ & _ & H).
  - reflexivity.
  - lia.
  - destruct H as (H3q & H3f & _); [reflexivity | reflexivity |].
    split; assumption.
Defined.

Section KeyframeFacts.
Import StreamingService.

Lemma keyframeCount_adaptQuality elapsed s :
  keyframeCount (adaptQuality elapsed s) = keyframeCount s.
Proof.
  unfold adaptQuality.
  repeat match goal with
         | |- context [if ?b then _ else _] => destruct b
         end; reflexivity.
Qed.

Lemma frame_begin_flag t s :
  snd (frame_begin t s) = (Z.rem (keyframeCount s) KEYFRAME_INTERVAL =? 0).
Proof. unfold frame_begin. cbn [snd]. now rewrite keyframeCount_adaptQuality. Qed.

Lemma frame_begin_counter t s :
  keyframeCount (fst (frame_begin t s)) = keyframeCount s + 1.
Proof. unfold frame_begin. cbn [fst keyframeCount set_keyframeCount].
  now rewrite keyframeCount_adaptQuality. Qed.

End KeyframeFacts.

(** C7 as stated fails: a stream declared on a fast connection, whose
    preset interval is 8, gets its keyframes at ticks 0 and 10 of its
    first seventeen, not at 8 and 16; one declared on a slow
    connection, whose preset interval is 15, gets the same flags. *)
Lemma keyframes_every_tenth_tick_on_fast_and_slow :
  let flags := [true; false; false; false; false; false; false; false; false;
                false; true; false; false; false; false; false; false] in
  DeviceProfiles.keyframeInterval
    (DeviceProfiles.calculateStreamSettings DeviceProfiles.fast DeviceProfiles.DESKTOP) = 8
  /\ StreamingService.connectionQuality (Scenarios.on_connection DeviceProfiles.fast)
     = DeviceProfiles.fast
  /\ StreamingService.keyframe_flags 17 0 (Scenarios.on_connection DeviceProfiles.fast)
     = flags
  /\ DeviceProfiles.keyframeInterval
       (DeviceProfiles.calculateStreamSettings DeviceProfiles.slow DeviceProfiles.DESKTOP) = 15
  /\ StreamingService.connectionQuality (Scenarios.on_connection DeviceProfiles.slow)
     = DeviceProfiles.slow
  /\ StreamingService.keyframe_flags 17 0 (Scenarios.on_connection DeviceProfiles.slow)
     = flags.
Proof. cbv zeta. repeat split; vm_compute; reflexivity. Qed.

Section CadenceFacts.
Import StreamingService.
Variable compress : string -> string.
Variable SCREENSHOT_TYPE : option BrowserService.ImageFormat.

Lemma keyframeCount_frame_end t kf shot s :
  keyframeCount (fst (frame_end compress t kf shot s)) = keyframeCount s.
Proof.
  unfold frame_end. destruct shot as [shot|]; [|reflexivity].
  destruct kf; reflexivity.
Qed.

(** One tick: the flag it decides, what it sends, and the counter it
    leaves. *)
Lemma run_ticks_cons t capture r s :
  let kf := Z.rem (keyframeCount s) 10 =? 0 in
  let s1 := fst (frame_begin t s) in
  let shot := BrowserService.screenshot_exit (frame_options (quality s1) kf)
                SCREENSHOT_TYPE capture in
  let s2 := fst (frame_end compress t kf shot s1) in
  run_ticks compress SCREENSHOT_TYPE ((t, capture) :: r) s
  = ((kf, snd (frame_end compress t kf shot s1))
       :: fst (run_ticks compress SCREENSHOT_TYPE r s2),
     snd (run_ticks compress SCREENSHOT_TYPE r s2))
  /\ keyframeCount s2 = keyframeCount s + 1.
Proof.
  cbv zeta. cbn [run_ticks].
  pose proof (frame_begin_flag t s) as Hflag.
  pose proof (frame_begin_counter t s) as Hcount.
  unfold KEYFRAME_INTERVAL in Hflag.
  destruct (frame_begin t s) as [s1 kf]. cbn [fst snd] in *. subst kf.
  rewrite keyframeCount_frame_end.
  destruct (frame_end compress t _ _ s1) as [s2 frames]. cbn [fst snd].
  destruct (run_ticks compress SCREENSHOT_TYPE r s2) as [rest s3].
  split; [reflexivity | exact Hcount].
Qed.

(** The flags of successive ticks: the counter goes up by one a tick,
    whatever the ticks send. *)
Lemma run_ticks_flags ticks : forall s k,
  keyframeCount s = k ->
  map fst (fst (run_ticks compress SCREENSHOT_TYPE ticks s))
  = map (fun i => Z.rem (k + Z.of_nat i) 10 =? 0) (seq 0 (length ticks))
  /\ keyframeCount (snd (run_ticks compress SCREENSHOT_TYPE ticks s))
     = k + Z.of_nat (length ticks).
Proof.
  induction ticks as [|[t capture] r IH]; intros s k Hk.
  - cbn. split; [reflexivity | lia].
  - destruct (run_ticks_cons t capture r s) as [E Hc]. cbv zeta in E, Hc.
    rewrite E. cbn [fst snd map length seq].
    destruct (IH _ (k + 1) ltac:(rewrite Hc; lia)) as [IHf IHc].
    rewrite IHf, IHc. split.
    + rewrite Hk, Z.add_0_r. f_equal.
      rewrite <- seq_shift, map_map. apply map_ext. intros i.
      do 2 f_equal. lia.
    + lia.
Qed.

(** The same cadence for the flags of successive calls alone. *)
Lemma keyframe_flags_cadence n : forall t s k,
  keyframeCount s = k ->
  keyframe_flags n t s
  = map (fun i => Z.rem (k + Z.of_nat i) 10 =? 0) (seq 0 n).
Proof.
  induction n as [|n IH]; intros t s k Hk; [reflexivity|].
  cbn [keyframe_flags seq map].
  rewrite frame_begin_flag. unfold KEYFRAME_INTERVAL.
  rewrite (IH t _ (k + 1)) by (rewrite frame_begin_counter; lia).
  rewrite Hk, Z.add_0_r. f_equal.
  rewrite <- seq_shift, map_map. apply map_ext. intros i.
  do 2 f_equal. lia.
Qed.

(** What each tick sends: nothing without a screenshot, one frame
    with the flag of the tick with one. *)
Lemma run_ticks_frames ticks : forall s,
  Forall2
    (fun tick out =>
       match snd tick with
       | None => snd out = []
       | Some _ => exists f, snd out = [f] /\ isKeyframe f = fst out
                             /\ timestamp f = fst tick
       end)
    ticks (fst (run_ticks compress SCREENSHOT_TYPE ticks s)).
Proof.
  induction ticks as [|[t capture] r IH]; intros s; [constructor|].
  destruct (run_ticks_cons t capture r s) as [E _]. cbv zeta in E.
  rewrite E. cbn [fst]. constructor; [|apply IH].
  cbn [fst snd]. unfold BrowserService.screenshot_exit, frame_end.
  destruct capture as [img|]; [|reflexivity].
  cbv zeta. cbn [snd]. eexists. split; [reflexivity|]. split; reflexivity.
Qed.

End CadenceFacts.

(** C7, amended.  The preset table gives a keyframe interval by
    connection class (15, 10, 8), but the loop does not read it.  Over
    any run of ticks of a loop, whatever their clocks and whether or
    not their screenshots succeed, the tick number [i] is a keyframe
    tick exactly when [keyframeCount + i] is a multiple of 10 -- every
    tenth tick, for every connection class -- and the counter has gone
    up by the number of ticks; the flags of successive calls of
    [getNextFrame] ([keyframe_flags]) follow the same rule.  A tick
    with a screenshot sends one frame, which carries the flag of the
    tick; a tick without one sends nothing, a keyframe tick
    included. *)
Theorem keyframe_interval_is_constant_ten
    (compress : string -> string)
    (SCREENSHOT_TYPE : option BrowserService.ImageFormat)
    (ticks : list (Z * option Base64.bytes))
    (s : StreamingService.StreamSettings)
    (c : DeviceProfiles.ConnectionSpeed) (d : DeviceProfiles.DeviceType) :
  let out := StreamingService.run_ticks compress SCREENSHOT_TYPE ticks s in
  DeviceProfiles.keyframeInterval
    (DeviceProfiles.calculateStreamSettings DeviceProfiles.slow d) = 15
  /\ DeviceProfiles.keyframeInterval
       (DeviceProfiles.calculateStreamSettings DeviceProfiles.medium d) = 10
  /\ DeviceProfiles.keyframeInterval
       (DeviceProfiles.calculateStreamSettings DeviceProfiles.fast d) = 8
  /\ map fst (fst out)
     = map (fun i => Z.rem (StreamingService.keyframeCount s + Z.of_nat i) 10 =? 0)
         (seq 0 (length ticks))
  /\ map fst (fst (StreamingService.run_ticks compress SCREENSHOT_TYPE ticks
                     (StreamingService.set_connectionQuality c s)))
     = map fst (fst out)
  /\ StreamingService.keyframeCount (snd out)
     = StreamingService.keyframeCount s + Z.of_nat (length ticks)
  /\ (forall n t,
        StreamingService.keyframe_flags n t s
        = map (fun i => Z.rem (StreamingService.keyframeCount s + Z.of_nat i) 10 =? 0)
            (seq 0 n))
  /\ Forall2
       (fun tick sent =>
          match snd tick with
          | None => snd sent = []
          | Some _ =>
              exists f, snd sent = [f]
                        /\ StreamingService.isKeyframe f = fst sent
                        /\ StreamingService.timestamp f = fst tick
          end)
       ticks (fst out).
Proof.
  cbv zeta.
  destruct (run_ticks_flags compress SCREENSHOT_TYPE ticks s _ eq_refl) as [Hf Hc].
  destruct (run_ticks_flags compress SCREENSHOT_TYPE ticks
              (StreamingService.set_connectionQuality c s) _ eq_refl) as [Hf' _].
  split; [now destruct d|]. split; [now destruct d|]. split; [now destruct d|].
  split; [exact Hf|]. split; [rewrite Hf', Hf; reflexivity|].
  split; [exact Hc|].
  split; [intros n t; apply keyframe_flags_cadence; reflexivity|].
  apply run_ticks_frames.
Qed.

Section LoopFacts.
Import StreamingService.
Variable compress : string -> string.
Variable SCREENSHOT_TYPE : option BrowserService.ImageFormat.

Lemma browserId_adaptQuality elapsed s :
  browserId (adaptQuality elapsed s) = browserId s.
Proof.
  unfold adaptQuality.
  repeat match goal with
         | |- context [if ?b then _ else _] => destruct b
         end; reflexivity.
Qed.

Lemma browserId_frame_begin t s : browserId (fst (frame_begin t s)) = browserId s.
Proof. unfold frame_begin. cbn [fst]. apply browserId_adaptQuality. Qed.

(** A failed screenshot leaves the settings object as it is and emits
    nothing. *)
Lemma frame_end_failed t kf s : frame_end compress t kf None s = (s, []).
Proof. reflexivity. Qed.

(** A screenshot that arrived is emitted, with the flag decided
    before the wait and the clock of the tick. *)
Lemma frame_end_emits t kf shot s :
  exists f, snd (frame_end compress t kf (Some shot) s) = [f]
            /\ isKeyframe f = kf /\ timestamp f = t
            /\ frame_quality f = quality s.
Proof.
  unfold frame_end. cbn [snd]. eexists. split; [reflexivity|].
  cbn [isKeyframe timestamp frame_quality]. repeat split.
  destruct kf; reflexivity.
Qed.

(** The timer of a running loop fires: the frame is begun and the
    loop waits for its screenshot. *)
Lemma onTimer_running i clk e pool l s pool' :
  loops e !! i = Some l ->
  phase l = Timer ->
  isStreaming l = true ->
  objects e !! loop_settings l = Some s ->
  active s = true ->
  BrowserService.screenshot_enter (browserId s) (now_shot clk) pool = Some pool' ->
  onTimer i clk e pool =
    (write_loop i
       (set_phase (Awaiting (now clk) (snd (frame_begin (now clk) s))
                     (frame_options (quality (fst (frame_begin (now clk) s)))
                        (snd (frame_begin (now clk) s)))) l)
       (write_object (loop_settings l) (fst (frame_begin (now clk) s)) e),
     pool').
Proof.
  intros Hl Hp Hs Ho Ha Hb. unfold onTimer. rewrite Hl, Hp. cbn [phase_is_timer].
  unfold getNextFrame. rewrite Hl, Ho, Hs, Ha. cbn [negb orb].
  pose proof (browserId_frame_begin (now clk) s) as Hid.
  destruct (frame_begin (now clk) s) as [s1 kf]. cbn [fst snd] in *.
  rewrite Hid, Hb. reflexivity.
Qed.

(** The screenshot a loop waits for arrives, or fails. *)
Lemma onScreenshot_awaiting i capture e l t kf options s :
  loops e !! i = Some l ->
  phase l = Awaiting t kf options ->
  objects e !! loop_settings l = Some s ->
  onScreenshot compress SCREENSHOT_TYPE i capture e =
    let shot := BrowserService.screenshot_exit options SCREENSHOT_TYPE capture in
    emit (loop_socket l) (snd (frame_end compress t kf shot s))
      (write_loop i (set_phase Timer l)
         (write_object (loop_settings l) (fst (frame_end compress t kf shot s)) e)).
Proof.
  intros Hl Hp Ho. unfold onScreenshot. rewrite Hl, Hp, Ho. cbv zeta.
  destruct (frame_end compress t kf _ s) as [s' frames]. reflexivity.
Qed.

Lemma lookup_write_loop i l e l0 :
  loops e !! i = Some l0 -> loops (write_loop i l e) !! i = Some l.
Proof.
  intros H. cbn. apply list_lookup_insert_eq. exact (lookup_lt_Some _ _ _ H).
Qed.

Lemma lookup_write_object r s e s0 :
  objects e !! r = Some s0 -> objects (write_object r s e) !! r = Some s.
Proof.
  intros H. cbn. apply list_lookup_insert_eq. exact (lookup_lt_Some _ _ _ H).
Qed.

(** A whole tick of a running loop whose screenshot arrives: one
    frame is emitted, flagged as the counter of the settings object
    decides when the tick starts. *)
Lemma full_tick i e l s clk pool pool' img :
  loops e !! i = Some l ->
  phase l = Timer ->
  isStreaming l = true ->
  objects e !! loop_settings l = Some s ->
  active s = true ->
  BrowserService.screenshot_enter (browserId s) (now_shot clk) pool = Some pool' ->
  let e2 := fst (onTimer i clk e pool) in
  let e3 := onScreenshot compress SCREENSHOT_TYPE i (Some img) e2 in
  exists f, emitted e3 = emitted e ++ [(loop_socket l, f)]
            /\ timestamp f = now clk
            /\ isKeyframe f = snd (frame_begin (now clk) s).
Proof.
  intros Hl Hp Hs Ho Ha Hb. cbv zeta.
  rewrite (onTimer_running i clk e pool l s pool' Hl Hp Hs Ho Ha Hb). cbn [fst].
  set (s1 := fst (frame_begin (now clk) s)).
  set (kf1 := snd (frame_begin (now clk) s)).
  set (l2 := set_phase (Awaiting (now clk) kf1 (frame_options (quality s1) kf1)) l).
  set (e2 := write_loop i l2 (write_object (loop_settings l) s1 e)).
  assert (Hl2 : loops e2 !! i = Some l2).
  { subst e2. apply (lookup_write_loop _ _ _ l). exact Hl. }
  assert (Ho2 : objects e2 !! loop_settings l2 = Some s1).
  { subst e2 l2. cbn [loop_settings set_phase].
    change (objects (write_loop i ?x ?y)) with (objects y).
    apply (lookup_write_object _ _ _ s). exact Ho. }
  rewrite (onScreenshot_awaiting i (Some img) e2 l2 (now clk) kf1
             (frame_options (quality s1) kf1) s1 Hl2 eq_refl Ho2). cbv zeta.
  unfold BrowserService.screenshot_exit at 1 2.
  match goal with
  | |- context [frame_end compress ?a ?b (Some ?sh) ?c] =>
      destruct (frame_end_emits a b sh c) as (f & Hf & Hk & Ht & _)
  end.
  exists f. cbn [emit emitted]. rewrite Hf.
  subst e2. cbn [emitted write_loop write_object].
  subst l2. cbn [loop_socket set_phase map].
  split; [reflexivity|]. split; [exact Ht | exact Hk].
Qed.

(** The screenshot a loop waits for fails: nothing is emitted, the
    settings object is as it was, and the loop is back on its timer. *)
Lemma failed_screenshot i e l t kf options s :
  loops e !! i = Some l ->
  phase l = Awaiting t kf options ->
  objects e !! loop_settings l = Some s ->
  let e1 := onScreenshot compress SCREENSHOT_TYPE i None e in
  emitted e1 = emitted e
  /\ loops e1 !! i = Some (set_phase Timer l)
  /\ objects e1 !! loop_settings l = Some s.
Proof.
  intros Hl Hp Ho. cbv zeta.
  rewrite (onScreenshot_awaiting i None e l t kf options s Hl Hp Ho). cbv zeta.
  assert (Hx : BrowserService.screenshot_exit options SCREENSHOT_TYPE None = None)
    by (unfold BrowserService.screenshot_exit; reflexivity).
  rewrite Hx, frame_end_failed. cbn [fst snd].
  split; [cbn; apply app_nil_r|]. split.
  - cbn. apply list_lookup_insert_eq. exact (lookup_lt_Some _ _ _ Hl).
  - cbn. apply list_lookup_insert_eq. exact (lookup_lt_Some _ _ _ Ho).
Qed.

End LoopFacts.

(** C3 as stated fails: the first screenshot of a client fails, yet
    its loop is still runnable afterwards, and the next tick, whose
    screenshot arrives, sends a frame to the same socket without any
    new [init]. *)
Lemma loop_survives_failed_snapshot :
  let failed := Scenarios.server [SocketService.ScreenshotResolves 0 None]
                  Scenarios.after_init in
  let later := Scenarios.server
                 [SocketService.TimerFires 0 (Scenarios.at_time 1040);
                  SocketService.ScreenshotResolves 0 (Some Scenarios.image_1)]
                 failed in
  StreamingService.frames_of "socket-1" (SocketService.engine failed) = []
  /\ length (StreamingService.runnable_loops "socket-1" (SocketService.engine failed))
     = 1%nat
  /\ map StreamingService.timestamp
       (StreamingService.frames_of "socket-1" (SocketService.engine later)) = [1040].
Proof. cbv zeta. repeat split; vm_compute; reflexivity. Qed.

(** C3, amended.  For a running loop that waits for a screenshot: when
    the capture fails, [getScreenshot] gives [null], the tick emits no
    frame, and the loop does not end: it is back on its timer and
    runnable; when the timer fires and the next screenshot arrives, a
    frame is emitted on the same socket. *)
Theorem failed_snapshot_skips_frame_only
    (compress : string -> string)
    (SCREENSHOT_TYPE : option BrowserService.ImageFormat)
    (i : nat) (e : StreamingService.Engine) (l : StreamingService.Loop)
    (t : Z) (kf : bool) (options : BrowserService.ScreenshotOptions)
    (s : StreamingService.StreamSettings) (clk : StreamingService.Clock)
    (pool pool' : BrowserService.Pool) (img : Base64.bytes) :
  StreamingService.loops e !! i = Some l ->
  StreamingService.phase l = StreamingService.Awaiting t kf options ->
  StreamingService.isStreaming l = true ->
  StreamingService.objects e !! StreamingService.loop_settings l = Some s ->
  StreamingService.active s = true ->
  BrowserService.screenshot_enter (StreamingService.browserId s)
    (StreamingService.now_shot clk) pool = Some pool' ->
  let e1 := StreamingService.onScreenshot compress SCREENSHOT_TYPE i None e in
  let e2 := fst (StreamingService.onTimer i clk e1 pool) in
  let e3 := StreamingService.onScreenshot compress SCREENSHOT_TYPE i (Some img) e2 in
  (forall bid t0 m,
      fst (BrowserService.getScreenshot bid options SCREENSHOT_TYPE t0 None m) = None)
  /\ StreamingService.emitted e1 = StreamingService.emitted e
  /\ (exists l1, StreamingService.loops e1 !! i = Some l1
                 /\ StreamingService.runnable l1 = true)
  /\ exists f,
       StreamingService.emitted e3
       = StreamingService.emitted e ++ [(StreamingService.loop_socket l, f)]
       /\ StreamingService.timestamp f = StreamingService.now clk.
Proof.
  intros Hl Hp Hs Ho Ha Hb. cbv zeta.
  destruct (failed_screenshot compress SCREENSHOT_TYPE i e l t kf options s Hl Hp Ho)
    as (He1 & Hl1 & Ho1).
  split.
  { intros bid t0 m. unfold BrowserService.getScreenshot.
    destruct (BrowserService.screenshot_enter bid t0 m); reflexivity. }
  split; [exact He1|]. split.
  { exists (StreamingService.set_phase StreamingService.Timer l).
    split; [exact Hl1|]. unfold StreamingService.runnable. cbn. now rewrite Hs. }
  destruct (full_tick compress SCREENSHOT_TYPE i _ _ s clk pool pool' img
              Hl1 eq_refl Hs Ho1 Ha Hb) as (f & Hf & Ht & _).
  exists f. rewrite Hf, He1. split; [reflexivity | exact Ht].
Qed.

Lemma failed_snapshot_skips_frame_only_witness :
  let compress := @Compression.compressBase64 Compression.stored in
  let e := SocketService.engine Scenarios.after_init in
  let e1 := StreamingService.onScreenshot compress None 0 None e in
  let e2 := fst (StreamingService.onTimer 0 (Scenarios.at_time 1040) e1
                   (SocketService.activeBrowsers Scenarios.after_init)) in
  let e3 := StreamingService.onScreenshot compress None 0
              (Some Scenarios.image_1) e2 in
  StreamingService.emitted e1 = StreamingService.emitted e
  /\ exists f,
       StreamingService.emitted e3
       = StreamingService.emitted e ++ [("socket-1"%string, f)]
       /\ StreamingService.timestamp f = 1040.
Proof.
  cbv zeta.
  destruct (failed_snapshot_skips_frame_only
              (@Compression.compressBase64 Compression.stored) None 0
              (SocketService.engine Scenarios.after_init)
              Scenarios.first_loop 1000 true
              (StreamingService.frame_options 75 true)
              Scenarios.first_object (Scenarios.at_time 1040)
              (SocketService.activeBrowsers Scenarios.after_init)
              Scenarios.pool_at_1040 Scenarios.image_1)
    as (_ & H1 & _ & H3).
  - vm_compute. reflexivity.
  - reflexivity.
  - reflexivity.
  - vm_compute. reflexivity.
  - reflexivity.
  - vm_compute. reflexivity.
  - split; [exact H1 | exact H3].
Defined.

Section SettingsFacts.
Import StreamingService.

Ltac case_updates :=
  repeat match goal with
         | |- context [match ?x with Some _ => _ | None => _ end] => destruct x
         | |- context [if ?b then _ else _] => destruct b
         end.

(** The settings handler resets the counter and leaves the browser and
    the pause flag alone. *)
Lemma onStreamSettings_fields m cur :
  keyframeCount (onStreamSettings m cur) = 0
  /\ active (onStreamSettings m cur) = active cur
  /\ browserId (onStreamSettings m cur) = browserId cur.
Proof.
  unfold onStreamSettings. split; [reflexivity|].
  unfold update_connection, update_adaptive, update_resolution, update_quality,
    update_fps.
  split; case_updates; reflexivity.
Qed.

Lemma streamSettingsListener_once sock m e r cur :
  clientStreams e !! sock = Some r ->
  objects e !! r = Some cur ->
  let e' := streamSettingsListener sock m e in
  clientStreams e' = clientStreams e
  /\ loops e' = loops e
  /\ emitted e' = emitted e
  /\ listeners e' = listeners e
  /\ objects e' !! r = Some (onStreamSettings m cur).
Proof.
  intros Hc Ho. cbv zeta. unfold streamSettingsListener. rewrite Hc, Ho.
  repeat split. cbn. apply list_lookup_insert_eq. exact (lookup_lt_Some _ _ _ Ho).
Qed.

(** The message reaches every registered listener; after at least one
    of them the counter of the current settings object is 0. *)
Lemma streamSettingsListener_iter sock m r n : forall e cur,
  clientStreams e !! sock = Some r ->
  objects e !! r = Some cur ->
  let e' := Nat.iter n (streamSettingsListener sock m) e in
  clientStreams e' = clientStreams e
  /\ loops e' = loops e
  /\ emitted e' = emitted e
  /\ exists cur', objects e' !! r = Some cur'
                  /\ active cur' = active cur
                  /\ browserId cur' = browserId cur
                  /\ (n <> O -> keyframeCount cur' = 0).
Proof.
  induction n as [|n IH]; intros e cur Hc Ho; cbv zeta.
  - cbn. repeat split. exists cur. repeat split; [exact Ho | congruence].
  - rewrite Nat.iter_succ.
    destruct (IH e cur Hc Ho) as (Hc' & Hl' & He' & cur' & Ho' & Ha' & Hb' & _).
    rewrite <- Hc' in Hc.
    destruct (streamSettingsListener_once sock m _ r cur' Hc Ho')
      as (Hc2 & Hl2 & He2 & _ & Ho2).
    destruct (onStreamSettings_fields m cur') as (Hk & Ha & Hb).
    split; [congruence|]. split; [congruence|]. split; [congruence|].
    exists (onStreamSettings m cur'). split; [exact Ho2|].
    split; [congruence|]. split; [congruence|]. intros _. exact Hk.
Qed.

End SettingsFacts.

(** C5 as stated fails: the [stream-settings] message arrives while
    the loop waits for the screenshot of its second frame, whose flag
    was decided before the message; that frame is the next one
    emitted, and it is not a keyframe. *)
Lemma frame_in_flight_is_not_keyframe :
  let before := Scenarios.server
                  [SocketService.ScreenshotResolves 0 (Some Scenarios.image_1);
                   SocketService.TimerFires 0 (Scenarios.at_time 1040)]
                  Scenarios.after_init in
  let changed := Scenarios.server
                   [SocketService.StreamSettingsMsg "socket-1" Scenarios.quality_50]
                   before in
  let next := Scenarios.server
                [SocketService.ScreenshotResolves 0 (Some Scenarios.image_2)]
                changed in
  map StreamingService.isKeyframe
    (StreamingService.frames_of "socket-1" (SocketService.engine changed)) = [true]
  /\ map StreamingService.keyframeCount
       (StreamingService.objects (SocketService.engine changed)) = [0]
  /\ map StreamingService.isKeyframe
       (StreamingService.frames_of "socket-1" (SocketService.engine next))
     = [true; false]
  /\ map StreamingService.frame_quality
       (StreamingService.frames_of "socket-1" (SocketService.engine next))
     = [75; 50].
Proof. cbv zeta. repeat split; vm_compute; reflexivity. Qed.

(** The same when the screenshot of the first tick after the message
    fails: the tick has used up the counter value 0, and the frame of
    the following tick is not a keyframe. *)
Example failed_tick_uses_up_the_keyframe :
  let next := Scenarios.server
                [SocketService.ScreenshotResolves 0 (Some Scenarios.image_1);
                 SocketService.StreamSettingsMsg "socket-1" Scenarios.quality_50;
                 SocketService.TimerFires 0 (Scenarios.at_time 1040);
                 SocketService.ScreenshotResolves 0 None;
                 SocketService.TimerFires 0 (Scenarios.at_time 1080);
                 SocketService.ScreenshotResolves 0 (Some Scenarios.image_2)]
                Scenarios.after_init in
  map StreamingService.isKeyframe
    (StreamingService.frames_of "socket-1" (SocketService.engine next))
  = [true; false].
Proof. vm_compute. reflexivity. Qed.

(** C5, amended.  After a [stream-settings] message for a connected
    client whose loop is on its timer, the next tick of the loop
    decides on a keyframe, and when its screenshot arrives the frame
    it emits, the next one on the socket, has [isKeyframe = true]. *)
Theorem settings_change_forces_keyframe
    (compress : string -> string)
    (SCREENSHOT_TYPE : option BrowserService.ImageFormat)
    (sock : string) (m : StreamingService.InitialSettings)
    (i : nat) (e : StreamingService.Engine) (l : StreamingService.Loop)
    (s : StreamingService.StreamSettings) (clk : StreamingService.Clock)
    (pool pool' : BrowserService.Pool) (img : Base64.bytes) :
  StreamingService.loops e !! i = Some l ->
  StreamingService.loop_socket l = sock ->
  StreamingService.phase l = StreamingService.Timer ->
  StreamingService.isStreaming l = true ->
  StreamingService.clientStreams e !! sock = Some (StreamingService.loop_settings l) ->
  StreamingService.objects e !! StreamingService.loop_settings l = Some s ->
  StreamingService.active s = true ->
  StreamingService.listener_count sock e <> O ->
  BrowserService.screenshot_enter (StreamingService.browserId s)
    (StreamingService.now_shot clk) pool = Some pool' ->
  let e1 := StreamingService.onStreamSettingsMsg sock m e in
  let e2 := fst (StreamingService.onTimer i clk e1 pool) in
  let e3 := StreamingService.onScreenshot compress SCREENSHOT_TYPE i (Some img) e2 in
  StreamingService.emitted e1 = StreamingService.emitted e
  /\ exists f,
       StreamingService.emitted e3 = StreamingService.emitted e ++ [(sock, f)]
       /\ StreamingService.isKeyframe f = true.
Proof.
  intros Hl Hsock Hp Hs Hc Ho Ha Hn Hb. cbv zeta.
  unfold StreamingService.onStreamSettingsMsg.
  destruct (streamSettingsListener_iter sock m (StreamingService.loop_settings l)
              (StreamingService.listener_count sock e) e s Hc Ho)
    as (_ & Hl1 & He1 & cur' & Ho1 & Ha1 & Hb1 & Hk1).
  specialize (Hk1 Hn).
  split; [exact He1|].
  rewrite <- Hl1 in Hl. rewrite <- Ha1 in Ha. rewrite <- Hb1 in Hb.
  destruct (full_tick compress SCREENSHOT_TYPE i _ l cur' clk pool pool' img
              Hl Hp Hs Ho1 Ha Hb) as (f & Hf & _ & Hkf).
  exists f. rewrite Hf, He1, Hsock. split; [reflexivity|].
  rewrite Hkf, frame_begin_flag, Hk1. reflexivity.
Qed.

Lemma settings_change_forces_keyframe_witness :
  let compress := @Compression.compressBase64 Compression.stored in
  let e := SocketService.engine
             (Scenarios.server
                [SocketService.ScreenshotResolves 0 (Some Scenarios.image_1)]
                Scenarios.after_init) in
  let e1 := StreamingService.onStreamSettingsMsg "socket-1" Scenarios.quality_50 e in
  let e2 := fst (StreamingService.onTimer 0 (Scenarios.at_time 1040) e1
                   (SocketService.activeBrowsers Scenarios.after_init)) in
  let e3 := StreamingService.onScreenshot compress None 0
              (Some Scenarios.image_2) e2 in
  exists f,
    StreamingService.emitted e3
    = StreamingService.emitted e ++ [("socket-1"%string, f)]
    /\ StreamingService.isKeyframe f = true.
Proof.
  cbv zeta.
  destruct (settings_change_forces_keyframe
              (@Compression.compressBase64 Compression.stored) None
              "socket-1" Scenarios.quality_50 0
              (SocketService.engine
                 (Scenarios.server
                    [SocketService.ScreenshotResolves 0 (Some Scenarios.image_1)]
                    Scenarios.after_init))
              (StreamingService.set_phase StreamingService.Timer Scenarios.first_loop)
              (fst (StreamingService.frame_end
                      (@Compression.compressBase64 Compression.stored) 1000 true
                      (BrowserService.screenshot_exit
                         (StreamingService.frame_options 75 true) None
                         (Some Scenarios.image_1))
                      Scenarios.first_object))
              (Scenarios.at_time 1040)
              (SocketService.activeBrowsers Scenarios.after_init)
              Scenarios.pool_at_1040 Scenarios.image_2)
    as (_ & H).
  - vm_compute. reflexivity.
  - reflexivity.
  - reflexivity.
  - reflexivity.
  - vm_compute. reflexivity.
  - vm_compute. reflexivity.
  - reflexivity.
  - vm_compute. discriminate.
  - vm_compute. reflexivity.
  - exact H.
Defined.

Section InitFacts.
Import StreamingService.

Lemma get_screenshot_enter b inst t pool :
  BrowserService.get b pool = Some inst ->
  exists pool', BrowserService.screenshot_enter b t pool = Some pool'.
Proof. intros H. unfold BrowserService.screenshot_enter. rewrite H. eauto. Qed.

(** [startStreamLoop] on an active settings object whose browser is in
    the pool: the loops there were are untouched, and one more loop,
    runnable and waiting for its first screenshot, is appended. *)
Lemma startStreamLoop_appends sock r clk e pool s inst :
  objects e !! r = Some s ->
  active s = true ->
  BrowserService.get (browserId s) pool = Some inst ->
  exists l, loops (fst (startStreamLoop sock r clk e pool)) = loops e ++ [l]
            /\ loop_socket l = sock
            /\ loop_settings l = r
            /\ runnable l = true.
Proof.
  intros Ho Ha Hg. unfold startStreamLoop, getNextFrame.
  cbn [loops objects].
  rewrite list_lookup_middle by reflexivity.
  cbn [loop_settings isStreaming]. rewrite Ho, Ha. cbn [negb orb].
  pose proof (browserId_frame_begin (now clk) s) as Hid.
  destruct (frame_begin (now clk) s) as [s1 kf]. cbn [fst] in Hid.
  rewrite Hid.
  destruct (get_screenshot_enter _ _ (now_shot clk) _ Hg) as [pool' Hp].
  rewrite Hp. cbn [fst write_loop write_object loops].
  eexists. split.
  - rewrite insert_app_r_alt by lia. rewrite Nat.sub_diag. cbn. reflexivity.
  - cbn. repeat split.
Qed.

(** [init] from a socket that already has its browser: the browser is
    reused, and a further loop is started next to the ones the socket
    has. *)
Lemma onInit_again_adds_loop MAX sock data env resolution t clk st b inst :
  SocketService.socketBrowserMap st !! SocketService.socket_id sock = Some b ->
  BrowserService.get b (SocketService.activeBrowsers st) = Some inst ->
  let st' := SocketService.onInit MAX sock data env resolution t clk st in
  SocketService.socketBrowserMap st' = SocketService.socketBrowserMap st
  /\ exists l, loops (SocketService.engine st') = loops (SocketService.engine st) ++ [l]
               /\ loop_socket l = SocketService.socket_id sock
               /\ runnable l = true.
Proof.
  intros Hm Hg. cbv zeta. unfold SocketService.onInit. rewrite Hm.
  unfold initializeStream.
  match goal with
  | |- context [startStreamLoop ?a ?r ?c ?e1 ?p] =>
      destruct (startStreamLoop_appends a r c e1 p
                  (initialSettingsObject b (SocketService.stream_init sock data)
                     (SocketService.socket_device sock)
                     (SocketService.socket_session sock) resolution t) inst)
        as (l & Hl & Hs & _ & Hr);
      [ cbn [objects]; apply list_lookup_middle; reflexivity
      | reflexivity
      | exact Hg
      | destruct (startStreamLoop a r c e1 p) as [e2 pool'] ]
  end.
  cbn [fst] in Hl. cbn [SocketService.socketBrowserMap SocketService.engine loops].
  split; [reflexivity|]. exists l. cbn [loops] in Hl. auto.
Qed.

End InitFacts.

(** C9.  A client sends [init] twice.  The second [init] reuses the
    browser of the socket and starts a second loop next to the first:
    two loops of the socket are runnable, each on its own settings
    object, and both go on sending frames to the socket. *)
Theorem second_init_starts_second_loop :
  let once := Scenarios.after_init in
  let twice := Scenarios.server [Scenarios.init_at 1500] once in
  let streaming :=
    Scenarios.server
      [SocketService.ScreenshotResolves 0 (Some Scenarios.image_1);
       SocketService.ScreenshotResolves 1 (Some Scenarios.image_2);
       SocketService.TimerFires 0 (Scenarios.at_time 1540);
       SocketService.TimerFires 1 (Scenarios.at_time 1541);
       SocketService.ScreenshotResolves 0 (Some Scenarios.image_1);
       SocketService.ScreenshotResolves 1 (Some Scenarios.image_2)] twice in
  length (StreamingService.runnable_loops "socket-1" (SocketService.engine once)) = 1%nat
  /\ SocketService.socketBrowserMap twice !! "socket-1"%string = Some "browser-a"%string
  /\ BrowserService.size (SocketService.activeBrowsers twice) = 1
  /\ length (StreamingService.runnable_loops "socket-1" (SocketService.engine twice))
     = 2%nat
  /\ map StreamingService.loop_settings
       (StreamingService.runnable_loops "socket-1" (SocketService.engine twice))
     = [0%nat; 1%nat]
  /\ map StreamingService.timestamp
       (StreamingService.frames_of "socket-1" (SocketService.engine streaming))
     = [1000; 1500; 1540; 1541]
  /\ length (StreamingService.runnable_loops "socket-1" (SocketService.engine streaming))
     = 2%nat.
Proof.
  cbv zeta.
  assert (Hm : SocketService.socketBrowserMap Scenarios.after_init
                 !! SocketService.socket_id Scenarios.socket_1
               = Some "browser-a"%string) by (vm_compute; reflexivity).
  destruct (onInit_again_adds_loop BrowserService.DEFAULT_MAX_BROWSERS
              Scenarios.socket_1 Scenarios.no_data Scenarios.first_create
              (1920, 1080) 1500 (Scenarios.at_time 1500) Scenarios.after_init
              "browser-a"
              {| BrowserService.id := "browser-a";
                 BrowserService.url := SocketService.DEFAULT_URL;
                 BrowserService.lastActivity := 1000;
                 BrowserService.viewportWidth := 1920;
                 BrowserService.viewportHeight := 1080 |} Hm)
    as (Hmap & _).
  { vm_compute. reflexivity. }
  split; [vm_compute; reflexivity|].
  split.
  { change (Scenarios.server [Scenarios.init_at 1500] Scenarios.after_init)
      with (SocketService.onInit BrowserService.DEFAULT_MAX_BROWSERS
              Scenarios.socket_1 Scenarios.no_data Scenarios.first_create
              (1920, 1080) 1500 (Scenarios.at_time 1500) Scenarios.after_init).
    rewrite Hmap. exact Hm. }
  repeat split; vm_compute; reflexivity.
Qed.

(** The same through [stream-control]: the stream is paused and
    resumed while the loop still waits for a screenshot asked for more
    than a second ago; the resume starts a second loop on the same
    settings object, and the first one goes on when its screenshot
    arrives. *)
Example resume_while_waiting_starts_second_loop :
  let resumed :=
    Scenarios.server
      [SocketService.StreamControlMsg "socket-1" false 1500 (Scenarios.at_time 1500);
       SocketService.StreamControlMsg "socket-1" true 2100 (Scenarios.at_time 2100)]
      Scenarios.after_init in
  let streaming :=
    Scenarios.server
      [SocketService.ScreenshotResolves 0 (Some Scenarios.image_1);
       SocketService.ScreenshotResolves 1 (Some Scenarios.image_2);
       SocketService.TimerFires 0 (Scenarios.at_time 2140);
       SocketService.TimerFires 1 (Scenarios.at_time 2141)] resumed in
  map StreamingService.loop_settings
    (StreamingService.runnable_loops "socket-1" (SocketService.engine resumed))
  = [0%nat; 0%nat]
  /\ map StreamingService.timestamp
       (StreamingService.frames_of "socket-1" (SocketService.engine streaming))
     = [1000; 2100]
  /\ length (StreamingService.runnable_loops "socket-1" (SocketService.engine streaming))
     = 2%nat.
Proof. cbv zeta. repeat split; vm_compute; reflexivity. Qed.

Section Base64Facts.
Import Base64.

(** The 64 characters of the alphabet decode to their index, and none
    of them is the padding character or a comma. *)
Lemma alphabet_checked :
  forallb (fun v => match unbase64 (enc6 v) with
                    | Some w => N.eqb w v
                    | None => false
                    end
                    && negb (Ascii.eqb (enc6 v) "="%char)
                    && negb (Ascii.eqb (enc6 v) ","%char))
    (map N.of_nat (seq 0 64)) = true.
Proof. vm_compute. reflexivity. Qed.

Lemma enc6_valid v :
  (v < 64)%N ->
  unbase64 (enc6 v) = Some v
  /\ Ascii.eqb (enc6 v) "="%char = false
  /\ Ascii.eqb (enc6 v) ","%char = false.
Proof.
  intros Hv. pose proof alphabet_checked as H.
  rewrite forallb_forall in H. specialize (H v).
  assert (Hin : In v (map N.of_nat (seq 0 64))).
  { rewrite <- (N2Nat.id v). apply in_map. apply in_seq. lia. }
  specialize (H Hin).
  apply andb_prop in H as [H H3]. apply andb_prop in H as [H1 H2].
  destruct (unbase64 (enc6 v)) as [w|]; [|discriminate].
  apply N.eqb_eq in H1. subst w.
  apply negb_true_iff in H2. apply negb_true_iff in H3. auto.
Qed.

Lemma sextets_enc6 v r :
  (v < 64)%N -> sextets (String (enc6 v) r) = v :: sextets r.
Proof.
  intros Hv. destruct (enc6_valid v Hv) as (H1 & H2 & _).
  cbn [sextets]. now rewrite H2, H1.
Qed.

Lemma byte_of_to_N b : byte_of_N (Byte.to_N b) = b.
Proof.
  unfold byte_of_N. pose proof (Byte.to_N_bounded b).
  rewrite N.mod_small by lia. now rewrite Byte.of_to_N.
Qed.

Ltac solve_sextet :=
  zify; Z.to_euclidean_division_equations; lia.

(** The arithmetic of one group of three bytes. *)
Lemma group_first x y :
  (x < 256 -> y < 256 -> x / 4 * 4 + (x mod 4 * 16 + y / 16) / 16 = x)%N.
Proof. intros. solve_sextet. Qed.

Lemma group_second' x y z :
  (x < 256 -> y < 256 -> z < 256 ->
   (x mod 4 * 16 + y / 16) mod 16 * 16 + (y mod 16 * 4 + z / 64) / 4 = y)%N.
Proof. intros. solve_sextet. Qed.

Lemma group_single x :
  (x < 256 -> x / 4 * 4 + (x mod 4 * 16) / 16 = x)%N.
Proof. intros. solve_sextet. Qed.

Lemma group_second_padded x y :
  (x < 256 -> y < 256 ->
   (x mod 4 * 16 + y / 16) mod 16 * 16 + (y mod 16 * 4) / 4 = y)%N.
Proof. intros. solve_sextet. Qed.

Lemma group_third y z :
  (y < 256 -> z < 256 -> (y mod 16 * 4 + z / 64) mod 4 * 64 + z mod 64 = z)%N.
Proof. intros. solve_sextet. Qed.

Lemma sextet_bounds x y :
  (x < 256 -> y < 256 ->
   x / 4 < 64 /\ x mod 4 * 16 + y / 16 < 64 /\ x mod 16 * 4 + y / 64 < 64
   /\ x mod 64 < 64 /\ x mod 4 * 16 < 64 /\ x mod 16 * 4 < 64)%N.
Proof. intros. repeat split; solve_sextet. Qed.

Lemma byte_lt b : (Byte.to_N b < 256)%N.
Proof. pose proof (Byte.to_N_bounded b). lia. Qed.

(** [Buffer.from(buf.toString('base64'), 'base64')] is [buf]. *)
Lemma decode_encode_bounded n : forall bs,
  (length bs <= n)%nat -> decode (encode bs) = bs.
Proof.
  induction n as [n IH] using lt_wf_ind. intros bs Hlen.
  destruct bs as [|a [|b [|c rest]]].
  - reflexivity.
  - pose proof (byte_lt a) as Ha.
    destruct (sextet_bounds _ _ Ha Ha) as (B1 & _ & _ & _ & B5 & _).
    unfold decode. cbn [encode].
    rewrite (sextets_enc6 _ _ B1), (sextets_enc6 _ _ B5).
    change (sextets "==") with (@nil N). cbn [bytes_of_sextets].
    now rewrite (group_single _ Ha), byte_of_to_N.
  - pose proof (byte_lt a) as Ha. pose proof (byte_lt b) as Hb.
    destruct (sextet_bounds _ _ Ha Hb) as (B1 & B2 & _).
    destruct (sextet_bounds _ _ Hb Hb) as (_ & _ & _ & _ & _ & B6).
    unfold decode. cbn [encode].
    rewrite (sextets_enc6 _ _ B1), (sextets_enc6 _ _ B2), (sextets_enc6 _ _ B6).
    change (sextets "=") with (@nil N). cbn [bytes_of_sextets].
    now rewrite (group_first _ _ Ha Hb), (group_second_padded _ _ Ha Hb),
      !byte_of_to_N.
  - pose proof (byte_lt a) as Ha. pose proof (byte_lt b) as Hb.
    pose proof (byte_lt c) as Hc.
    destruct (sextet_bounds _ _ Ha Hb) as (B1 & B2 & _).
    destruct (sextet_bounds _ _ Hb Hc) as (_ & _ & B3 & _).
    destruct (sextet_bounds _ _ Hc Hc) as (_ & _ & _ & B4 & _).
    unfold decode. cbn [encode].
    rewrite (sextets_enc6 _ _ B1), (sextets_enc6 _ _ B2),
      (sextets_enc6 _ _ B3), (sextets_enc6 _ _ B4).
    cbn [bytes_of_sextets].
    rewrite (group_first _ _ Ha Hb), (group_second' _ _ _ Ha Hb Hc),
      (group_third _ _ Hb Hc), !byte_of_to_N.
    do 3 f_equal. apply (IH (length rest)); cbn [length] in Hlen; lia.
Qed.

Lemma decode_encode bs : decode (encode bs) = bs.
Proof. exact (decode_encode_bounded (length bs) bs (le_n _)). Qed.

(** A base64 string has no comma. *)
Lemma encode_no_comma_bounded n : forall bs,
  (length bs <= n)%nat -> Compression.occurs ","%char (encode bs) = false.
Proof.
  induction n as [n IH] using lt_wf_ind. intros bs Hlen.
  destruct bs as [|a [|b [|c rest]]].
  - reflexivity.
  - pose proof (byte_lt a) as Ha.
    destruct (sextet_bounds _ _ Ha Ha) as (B1 & _ & _ & _ & B5 & _).
    destruct (enc6_valid _ B1) as (_ & _ & E1).
    destruct (enc6_valid _ B5) as (_ & _ & E5).
    cbn [encode Compression.occurs]. rewrite E1, E5. reflexivity.
  - pose proof (byte_lt a) as Ha. pose proof (byte_lt b) as Hb.
    destruct (sextet_bounds _ _ Ha Hb) as (B1 & B2 & _).
    destruct (sextet_bounds _ _ Hb Hb) as (_ & _ & _ & _ & _ & B6).
    destruct (enc6_valid _ B1) as (_ & _ & E1).
    destruct (enc6_valid _ B2) as (_ & _ & E2).
    destruct (enc6_valid _ B6) as (_ & _ & E6).
    cbn [encode Compression.occurs]. rewrite E1, E2, E6. reflexivity.
  - pose proof (byte_lt a) as Ha. pose proof (byte_lt b) as Hb.
    pose proof (byte_lt c) as Hc.
    destruct (sextet_bounds _ _ Ha Hb) as (B1 & B2 & _).
    destruct (sextet_bounds _ _ Hb Hc) as (_ & _ & B3 & _).
    destruct (sextet_bounds _ _ Hc Hc) as (_ & _ & _ & B4 & _).
    destruct (enc6_valid _ B1) as (_ & _ & E1).
    destruct (enc6_valid _ B2) as (_ & _ & E2).
    destruct (enc6_valid _ B3) as (_ & _ & E3).
    destruct (enc6_valid _ B4) as (_ & _ & E4).
    cbn [encode Compression.occurs]. rewrite E1, E2, E3, E4. cbn [orb].
    apply (IH (length rest)); cbn [length] in Hlen; lia.
Qed.

Lemma encode_no_comma bs : Compression.occurs ","%char (encode bs) = false.
Proof. exact (encode_no_comma_bounded (length bs) bs (le_n _)). Qed.

Lemma encode_nonempty bs : bs <> [] -> encode bs <> EmptyString.
Proof. destruct bs as [|a [|b [|c rest]]]; cbn [encode]; congruence. Qed.

End Base64Facts.

Section CodecFacts.
Import Base64 Compression.

Lemma split_no_sep sep s : occurs sep s = false -> split sep s = [s].
Proof.
  induction s as [|c r IH]; cbn [occurs split]; [reflexivity|].
  intros H. apply orb_false_elim in H as [Hc Hr].
  rewrite Hc, (IH Hr). reflexivity.
Qed.

Lemma split_prefix sep p r :
  occurs sep p = false ->
  split sep (p ++ String sep r) = p :: split sep r.
Proof.
  induction p as [|c p IH]; simpl.
  - intros _. now rewrite Ascii.eqb_refl.
  - intros H. apply orb_false_elim in H as [Hc Hr].
    rewrite Hc, (IH Hr). reflexivity.
Qed.

(** A payload without a prefix is taken as it is. *)
Lemma base64WithoutPrefix_plain bs :
  base64WithoutPrefix (encode bs) = encode bs.
Proof.
  unfold base64WithoutPrefix.
  now rewrite (split_no_sep _ _ (encode_no_comma bs)).
Qed.

(** A prefix is dropped when something follows the comma. *)
Lemma base64WithoutPrefix_prefixed p bs :
  occurs ","%char p = false ->
  bs <> [] ->
  base64WithoutPrefix (p ++ String ","%char (encode bs)) = encode bs.
Proof.
  intros Hp Hbs. unfold base64WithoutPrefix.
  rewrite (split_prefix _ _ _ Hp), (split_no_sep _ _ (encode_no_comma bs)).
  pose proof (encode_nonempty bs Hbs) as Hne.
  destruct (encode bs); [congruence | reflexivity].
Qed.

(** A prefix with nothing after the comma is kept. *)
Lemma base64WithoutPrefix_empty_payload p :
  occurs ","%char p = false ->
  base64WithoutPrefix (p ++ String ","%char EmptyString)
  = (p ++ String ","%char EmptyString)%string.
Proof.
  intros Hp. unfold base64WithoutPrefix.
  rewrite (split_prefix _ _ _ Hp). reflexivity.
Qed.

Context (pako : Pako).
Hypothesis lossless : @pako_lossless pako.

Lemma decompressData_compressData x :
  decompressData (compressData x) = Some x.
Proof. unfold decompressData, compressData. apply lossless. Qed.

(** What comes back from the pair of base64 functions is the base64
    of the bytes [compressBase64] has read. *)
Lemma decompressBase64_compressBase64 base64Data mimeType :
  decompressBase64 (compressBase64 base64Data) false mimeType
  = Some (encode (decode (base64WithoutPrefix base64Data))).
Proof.
  unfold decompressBase64, compressBase64.
  now rewrite decode_encode, decompressData_compressData.
Qed.


End CodecFacts.

(** C2.  With a lossless [pako], compressing at level 6 and
    decompressing gives any bytes back; but the data URL of the empty
    byte sequence, ["data:image/jpeg;base64,"], does not come back as
    its empty payload: the empty string after the comma is falsy, the
    whole URL is read as base64, and the base64 of those fifteen bytes
    is returned. *)
Theorem empty_payload_is_not_round_tripped (pako : Compression.Pako) :
  @Compression.pako_lossless pako ->
  (forall x, @Compression.compressData pako x = Compression.deflate 6 x)
  /\ (forall x, @Compression.decompressData pako (@Compression.compressData pako x)
                = Some x)
  /\ Base64.encode [] = EmptyString
  /\ Compression.base64WithoutPrefix "data:image/jpeg;base64,"
     = "data:image/jpeg;base64,"%string
  /\ @Compression.decompressBase64 pako
       (@Compression.compressBase64 pako "data:image/jpeg;base64,")
       false "image/jpeg"
     = Some "dataimage/jpegbase64"%string.
Proof.
  intros Hl. split; [reflexivity|]. split.
  { intros x. now apply decompressData_compressData. }
  split; [reflexivity|]. split; [reflexivity|].
  rewrite (decompressBase64_compressBase64 pako Hl). reflexivity.
Qed.

Lemma empty_payload_is_not_round_tripped_witness :
  @Compression.decompressBase64 Compression.stored
    (@Compression.compressBase64 Compression.stored "data:image/jpeg;base64,")
    false "image/jpeg"
  = Some "dataimage/jpegbase64"%string.
Proof.
  destruct (empty_payload_is_not_round_tripped Compression.stored) as (_ & _ & _ & _ & H).
  - intros level x. reflexivity.
  - exact H.
Defined.

Section SessionStoreFacts.
Import SessionService.

Lemma consistent_empty : consistent empty_store.
Proof.
  split.
  - intros k s H. cbn in H. now rewrite lookup_empty in H.
  - intros t k H. cbn in H. now rewrite lookup_empty in H.
Qed.

(** Replacing a stored session by one with the same id and token
    keeps the two maps in agreement. *)
Lemma consistent_replace st k s s' :
  consistent st ->
  sessions st !! k = Some s ->
  id s' = id s -> token s' = token s ->
  consistent {| sessions := <[k := s']> (sessions st);
                tokenToSessionMap := tokenToSessionMap st |}.
Proof.
  intros [H1 H2] Hk Hid Htok. split; cbn.
  - intros k0 s0 H0. destruct (decide (k = k0)) as [->|Hne].
    + rewrite lookup_insert_eq in H0. inversion H0; subst s0.
      rewrite Hid, Htok. exact (H1 _ _ Hk).
    + rewrite lookup_insert_ne in H0 by exact Hne. exact (H1 _ _ H0).
  - intros t k0 Ht. destruct (H2 _ _ Ht) as (s0 & Hs0 & Ht0).
    destruct (decide (k = k0)) as [->|Hne].
    + exists s'. rewrite lookup_insert_eq. split; [reflexivity|].
      rewrite Hk in Hs0. inversion Hs0; subst s0. congruence.
    + exists s0. rewrite lookup_insert_ne by exact Hne. auto.
Qed.

Lemma consistent_getSession st k now :
  consistent st -> consistent (snd (getSession k now st)).
Proof.
  intros Hc. unfold getSession.
  destruct (sessions st !! resolve k st) as [s|] eqn:E; cbn [snd]; [|exact Hc].
  now apply (consistent_replace st _ s).
Qed.

Lemma consistent_updateSession st i u now :
  consistent st -> consistent (snd (updateSession i u now st)).
Proof.
  intros Hc. unfold updateSession.
  destruct (sessions st !! i) as [s|] eqn:E; cbn [snd]; [|exact Hc].
  now apply (consistent_replace st _ s).
Qed.

Lemma consistent_updateSessionBrowserId st i b now :
  consistent st -> consistent (snd (updateSessionBrowserId i b now st)).
Proof.
  intros Hc. unfold updateSessionBrowserId.
  destruct (sessions st !! i) as [s|] eqn:E; cbn [snd]; [|exact Hc].
  now apply (consistent_replace st _ s).
Qed.

Lemma consistent_createSession st i t now o :
  consistent st ->
  sessions st !! i = None ->
  tokenToSessionMap st !! t = None ->
  consistent (snd (createSession i t now o st)).
Proof.
  intros [H1 H2] Hi Ht. unfold createSession. cbn [snd]. split; cbn.
  - intros k s Hk. destruct (decide (i = k)) as [->|Hne].
    + rewrite lookup_insert_eq in Hk. inversion Hk; subst s. cbn.
      split; [reflexivity | apply lookup_insert_eq].
    + rewrite lookup_insert_ne in Hk by exact Hne.
      destruct (H1 _ _ Hk) as [Hid Htok]. split; [exact Hid|].
      rewrite lookup_insert_ne; [exact Htok|]. intros ->. congruence.
  - intros t0 k Ht0. destruct (decide (t = t0)) as [->|Hne].
    + rewrite lookup_insert_eq in Ht0. inversion Ht0; subst k.
      eexists. rewrite lookup_insert_eq. split; reflexivity.
    + rewrite lookup_insert_ne in Ht0 by exact Hne.
      destruct (H2 _ _ Ht0) as (s & Hs & Hts). exists s.
      rewrite lookup_insert_ne; [auto|]. intros ->. congruence.
Qed.

Lemma consistent_deleteSession st i :
  consistent st -> consistent (snd (deleteSession i st)).
Proof.
  intros [H1 H2]. unfold deleteSession.
  destruct (sessions st !! i) as [s|] eqn:E; cbn [snd]; [|split; assumption].
  destruct (H1 _ _ E) as [Hid Htok]. split; cbn.
  - intros k s0 Hk. destruct (decide (i = k)) as [->|Hne].
    + now rewrite lookup_delete_eq in Hk.
    + rewrite lookup_delete_ne in Hk by exact Hne.
      destruct (H1 _ _ Hk) as [Hid0 Htok0]. split; [exact Hid0|].
      rewrite lookup_delete_ne; [exact Htok0|].
      intros Heq. rewrite Heq in Htok. congruence.
  - intros t k Ht. destruct (decide (token s = t)) as [<-|Hne].
    + now rewrite lookup_delete_eq in Ht.
    + rewrite lookup_delete_ne in Ht by exact Hne.
      destruct (H2 _ _ Ht) as (s0 & Hs0 & Hts0). exists s0.
      rewrite lookup_delete_ne; [auto|]. intros ->. congruence.
Qed.

(** The session [getSession] returns is stored under the key it
    resolved, so in a consistent store its id is that key. *)
Lemma getSession_id st k now s st' :
  consistent st -> getSession k now st = (Some s, st') -> id s = resolve k st.
Proof.
  intros [H1 _] Hg. destruct (getSession_Some_inv _ _ _ _ _ Hg) as (s0 & Hs0 & -> & _).
  cbn. exact (proj1 (H1 _ _ Hs0)).
Qed.

Lemma consistent_validateSession st tok n1 n2 :
  consistent st -> consistent (snd (validateSession tok n1 n2 st)).
Proof.
  intros Hc. unfold validateSession.
  pose proof (consistent_getSession st tok n1 Hc) as Hg.
  destruct (getSession tok n1 st) as [[s|] st1]; cbn [snd] in *; [|exact Hg].
  destruct (_ >? _); cbn [snd]; [|exact Hg].
  now apply consistent_deleteSession.
Qed.

(** What the reaper leaves, entry by entry. *)
Lemma cleanup_lookups now st :
  let r := cleanupInactiveSessions now st in
  (forall k, sessions r !! k
             = match sessions st !! k with
               | Some s => if expired now s then None else Some s
               | None => None
               end)
  /\ (forall t, (exists k s, sessions st !! k = Some s /\ expired now s = true
                             /\ token s = t) ->
                tokenToSessionMap r !! t = None)
  /\ (forall t, ~ (exists k s, sessions st !! k = Some s /\ expired now s = true
                               /\ token s = t) ->
                tokenToSessionMap r !! t = tokenToSessionMap st !! t).
Proof.
  cbv zeta. unfold cleanupInactiveSessions.
  set (f := fun (sid : string) (s : Session) (acc : Store) =>
              if expired now s
              then {| sessions := delete sid (sessions acc);
                      tokenToSessionMap := delete (token s) (tokenToSessionMap acc) |}
              else acc).
  set (P := fun (r : Store) (m : gmap string Session) =>
       (forall k, sessions r !! k
                  = match m !! k with
                    | Some s => if expired now s then None else sessions st !! k
                    | None => sessions st !! k
                    end)
       /\ (forall t, (exists k s, m !! k = Some s /\ expired now s = true
                                  /\ token s = t) ->
                     tokenToSessionMap r !! t = None)
       /\ (forall t, ~ (exists k s, m !! k = Some s /\ expired now s = true
                                    /\ token s = t) ->
                     tokenToSessionMap r !! t = tokenToSessionMap st !! t)).
  assert (H : forall m : gmap string Session, P (map_fold f st m) m).
  { apply (map_fold_weak_ind P f st); unfold P.
    - split; [|split].
      + intros k. now rewrite lookup_empty.
      + intros t (k & s & Hk & _). now rewrite lookup_empty in Hk.
      + reflexivity.
    - intros i x m r Hi (Hs & Ht1 & Ht2). unfold f.
      destruct (expired now x) eqn:Ex.
      + split; [|split]; cbn.
        * intros k. destruct (decide (i = k)) as [->|Hne].
          -- now rewrite lookup_delete_eq, lookup_insert_eq, Ex.
          -- rewrite lookup_delete_ne, lookup_insert_ne by exact Hne. apply Hs.
        * intros t (k & s & Hk & Hex & Htok).
          destruct (decide (token x = t)) as [->|Hne]; [apply lookup_delete_eq|].
          rewrite lookup_delete_ne by exact Hne. apply Ht1.
          destruct (decide (i = k)) as [->|Hik].
          -- rewrite lookup_insert_eq in Hk. inversion Hk; subst. congruence.
          -- rewrite lookup_insert_ne in Hk by exact Hik. eauto.
        * intros t Hno. destruct (decide (token x = t)) as [<-|Hne].
          -- exfalso. apply Hno. exists i, x. rewrite lookup_insert_eq. auto.
          -- rewrite lookup_delete_ne by exact Hne. apply Ht2.
             intros (k & s & Hk & Hex & Htok). apply Hno. exists k, s.
             rewrite lookup_insert_ne; [auto|]. intros ->. congruence.
      + split; [|split].
        * intros k. destruct (decide (i = k)) as [->|Hne].
          -- rewrite lookup_insert_eq, Ex. rewrite Hs, Hi. reflexivity.
          -- rewrite lookup_insert_ne by exact Hne. apply Hs.
        * intros t (k & s & Hk & Hex & Htok). apply Ht1.
          destruct (decide (i = k)) as [->|Hik].
          -- rewrite lookup_insert_eq in Hk. inversion Hk; subst. congruence.
          -- rewrite lookup_insert_ne in Hk by exact Hik. eauto.
        * intros t Hno. apply Ht2.
          intros (k & s & Hk & Hex & Htok). apply Hno. exists k, s.
          rewrite lookup_insert_ne; [auto|]. intros ->. congruence. }
  destruct (H (sessions st)) as (Hs & Ht1 & Ht2).
  change (map_fold f st (sessions st)) with (cleanupInactiveSessions now st) in *.
  split; [|split; assumption].
  intros k. rewrite Hs. destruct (sessions st !! k) as [s|]; [|reflexivity].
  reflexivity.
Qed.

Lemma consistent_cleanup st now :
  consistent st -> consistent (cleanupInactiveSessions now st).
Proof.
  intros [H1 H2]. destruct (cleanup_lookups now st) as (Hs & Ht1 & Ht2).
  split.
  - intros k s Hk. rewrite Hs in Hk.
    destruct (sessions st !! k) as [s0|] eqn:E; [|discriminate].
    destruct (expired now s0) eqn:Ex; [discriminate|]. inversion Hk; subst s0.
    destruct (H1 _ _ E) as [Hid Htok]. split; [exact Hid|].
    rewrite Ht2; [exact Htok|].
    intros (k' & s' & Hk' & Hex' & Htok').
    destruct (H1 _ _ Hk') as [_ Htok'']. rewrite Htok' in Htok''.
    assert (k' = k) by congruence. subst k'. congruence.
  - intros t k Ht.
    assert (Hno : ~ (exists k0 s0, sessions st !! k0 = Some s0
                                   /\ expired now s0 = true /\ token s0 = t)).
    { intros Hex. rewrite (Ht1 _ Hex) in Ht. discriminate. }
    rewrite (Ht2 _ Hno) in Ht. destruct (H2 _ _ Ht) as (s & Hsk & Hts).
    exists s. split; [|exact Hts]. rewrite Hs, Hsk.
    destruct (expired now s) eqn:Ex; [|reflexivity].
    exfalso. apply Hno. eauto.
Qed.

Lemma consistent_getOrCreateSession st k o i t now now' :
  consistent st ->
  match draws (GetOrCreateSession k o i t now now') st with
  | Some (i0, t0) => sessions st !! i0 = None /\ tokenToSessionMap st !! t0 = None
  | None => True
  end ->
  consistent (snd (getOrCreateSession k o i t now now' st)).
Proof.
  intros Hc Hfresh. unfold getOrCreateSession. cbn [draws] in Hfresh.
  destruct (is_truthy k).
  - set (key := match k with Some v => v | None => EmptyString end) in *.
    pose proof (consistent_getSession st key now Hc) as Hg.
    destruct (getSession key now st) as [[s|] st1] eqn:E; cbn [snd] in Hg.
    + destruct (negb _ || negb _); [|exact Hg].
      pose proof (consistent_updateSession st1 (id s)
                    (address_updates (o_ipAddress o) (o_userAgent o)) now' Hg) as Hu.
      destruct (updateSession _ _ _ st1) as [[s'|] st2]; exact Hu.
    + unfold getSession in E.
      destruct (sessions st !! resolve key st); [discriminate|].
      inversion E; subst st1. destruct Hfresh as [Hi Ht].
      now apply consistent_createSession.
  - destruct Hfresh as [Hi Ht]. now apply consistent_createSession.
Qed.

Lemma consistent_call c st :
  consistent st ->
  match draws c st with
  | Some (i, t) => sessions st !! i = None /\ tokenToSessionMap st !! t = None
  | None => True
  end ->
  consistent (call c st).
Proof.
  intros Hc Hf. destruct c; cbn [call].
  - cbn in Hf. destruct Hf. now apply consistent_createSession.
  - now apply consistent_getSession.
  - now apply consistent_updateSession.
  - now apply consistent_deleteSession.
  - now apply consistent_getOrCreateSession.
  - now apply consistent_validateSession.
  - now apply consistent_updateSessionBrowserId.
  - now apply consistent_cleanup.
Qed.

End SessionStoreFacts.

(** X1.  The id map and the token index stay in agreement along any
    run of the session service whose uuids are new when drawn: every
    session is stored under its own id with its token leading to it,
    and no token is left dangling. *)
Theorem session_index_stays_consistent
    (calls : list SessionService.Call) (st : SessionService.Store) :
  SessionService.consistent st ->
  SessionService.fresh_uuids calls st ->
  SessionService.consistent (SessionService.run calls st).
Proof.
  revert st. induction calls as [|c calls IH]; intros st Hc Hf.
  - exact Hc.
  - cbn [SessionService.run fold_left]. destruct Hf as [Hd Hf].
    apply IH; [|exact Hf]. now apply consistent_call.
Qed.

Lemma session_index_stays_consistent_witness :
  SessionService.consistent
    (SessionService.run Cases.busy_day SessionService.empty_store).
Proof.
  apply session_index_stays_consistent.
  - apply consistent_empty.
  - vm_compute. repeat split.
Defined.

(** X2.  The reaper removes exactly the sessions idle for more than
    two hours: a session is stored afterwards if and only if it was
    stored before, unchanged, and its idle time is within the timeout;
    in a consistent store a token is indexed afterwards if and only if
    it was indexed before and its session stays. *)
Theorem reaper_removes_exactly_the_expired
    (now : Z) (st : SessionService.Store) :
  SessionService.consistent st ->
  let r := SessionService.cleanupInactiveSessions now st in
  (forall k s,
      SessionService.sessions r !! k = Some s
      <-> SessionService.sessions st !! k = Some s
          /\ now - SessionService.lastActivity s <= SessionService.SESSION_TIMEOUT)
  /\ (forall t k,
         SessionService.tokenToSessionMap r !! t = Some k
         <-> SessionService.tokenToSessionMap st !! t = Some k
             /\ exists s, SessionService.sessions st !! k = Some s
                          /\ now - SessionService.lastActivity s
                             <= SessionService.SESSION_TIMEOUT).
Proof.
  intros [H1 H2]. cbv zeta.
  destruct (cleanup_lookups now st) as (Hs & Ht1 & Ht2).
  assert (Hexp : forall s, SessionService.expired now s = false
                           <-> now - SessionService.lastActivity s
                               <= SessionService.SESSION_TIMEOUT).
  { intros s. unfold SessionService.expired. rewrite Z.gtb_ltb, Z.ltb_ge. reflexivity. }
  split.
  - intros k s. rewrite Hs. split.
    + destruct (SessionService.sessions st !! k) as [s0|]; [|discriminate].
      destruct (SessionService.expired now s0) eqn:Ex; [discriminate|].
      intros H; inversion H; subst. split; [reflexivity | now apply Hexp].
    + intros [Hk Hle]. rewrite Hk. apply Hexp in Hle. now rewrite Hle.
  - intros t k. split.
    + intros Ht.
      assert (Hno : ~ (exists k0 s0, SessionService.sessions st !! k0 = Some s0
                                     /\ SessionService.expired now s0 = true
                                     /\ SessionService.token s0 = t)).
      { intros Hex. rewrite (Ht1 _ Hex) in Ht. discriminate. }
      rewrite (Ht2 _ Hno) in Ht. split; [exact Ht|].
      destruct (H2 _ _ Ht) as (s & Hsk & Hts). exists s. split; [exact Hsk|].
      apply Hexp. destruct (SessionService.expired now s) eqn:Ex; [|reflexivity].
      exfalso. apply Hno. eauto.
    + intros (Ht & s & Hsk & Hle). rewrite Ht2; [exact Ht|].
      intros (k' & s' & Hk' & Hex' & Htok').
      destruct (H1 _ _ Hk') as [_ Htok'']. rewrite Htok' in Htok''.
      assert (k' = k) by congruence. subst k'.
      assert (s' = s) by congruence. subst s'.
      apply Hexp in Hle. congruence.
Qed.

Lemma reaper_removes_exactly_the_expired_witness :
  SessionService.sessions
    (SessionService.cleanupInactiveSessions Scenarios.three_hours_later
       Scenarios.old_store) !! "sid-1"%string = None.
Proof.
  destruct (reaper_removes_exactly_the_expired Scenarios.three_hours_later
              Scenarios.old_store) as [H _].
  - split.
    + intros k s Hk. destruct (decide (k = "sid-1"%string)) as [->|Hne].
      * vm_compute in Hk. inversion Hk; subst s. split; reflexivity.
      * unfold Scenarios.old_store in Hk. cbn in Hk.
        rewrite lookup_singleton_ne in Hk by congruence. discriminate.
    + intros t k Ht. destruct (decide (t = "tok-1"%string)) as [->|Hne].
      * vm_compute in Ht. inversion Ht; subst k.
        exists Scenarios.old_session. split; reflexivity.
      * unfold Scenarios.old_store in Ht. cbn in Ht.
        rewrite lookup_singleton_ne in Ht by congruence. discriminate.
  - destruct (SessionService.sessions
                (SessionService.cleanupInactiveSessions Scenarios.three_hours_later
                   Scenarios.old_store) !! "sid-1"%string) as [s|] eqn:E;
      [|reflexivity].
    apply H in E. destruct E as [E Hle]. vm_compute in E. inversion E; subst s.
    vm_compute in Hle. exfalso. apply Hle. reflexivity.
Defined.

(** X3.  A session made with new uuids is found again by its token,
    and by its id when the id is not somebody's token; the lookup
    gives the session with its activity time refreshed.  Deleting it
    by id gives the store back as it was before the creation. *)
Theorem create_lookup_delete_round_trip
    (sessionId sessionToken : string) (now now' : Z)
    (options : SessionService.CreateOptions) (st : SessionService.Store) :
  SessionService.sessions st !! sessionId = None ->
  SessionService.tokenToSessionMap st !! sessionToken = None ->
  let created := SessionService.createSession sessionId sessionToken now options st in
  fst (SessionService.getSession sessionToken now' (snd created))
  = Some (SessionService.set_lastActivity now' (fst created))
  /\ (sessionId <> sessionToken ->
      SessionService.tokenToSessionMap st !! sessionId = None ->
      fst (SessionService.getSession sessionId now' (snd created))
      = Some (SessionService.set_lastActivity now' (fst created)))
  /\ SessionService.deleteSession sessionId (snd created) = (true, st).
Proof.
  intros Hi Ht. cbv zeta. unfold SessionService.createSession. cbn [fst snd].
  split; [|split].
  - unfold SessionService.getSession, SessionService.resolve. cbn.
    rewrite !lookup_insert_eq. reflexivity.
  - intros Hne Hnotok. unfold SessionService.getSession, SessionService.resolve. cbn.
    rewrite (lookup_insert_ne (SessionService.tokenToSessionMap st)
               sessionToken sessionId) by congruence.
    rewrite Hnotok, !lookup_insert_eq. reflexivity.
  - unfold SessionService.deleteSession. cbn. rewrite lookup_insert_eq. cbn.
    rewrite !delete_insert_eq, (delete_id _ _ Hi), (delete_id _ _ Ht).
    destruct st; reflexivity.
Qed.

Lemma create_lookup_delete_round_trip_witness :
  SessionService.deleteSession "sid-9"
    (snd (SessionService.createSession "sid-9" "tok-9" 5 Cases.visitor
            Scenarios.old_store))
  = (true, Scenarios.old_store).
Proof.
  destruct (create_lookup_delete_round_trip "sid-9" "tok-9" 5 6 Cases.visitor
              Scenarios.old_store) as (_ & _ & H).
  - vm_compute. reflexivity.
  - vm_compute. reflexivity.
  - exact H.
Defined.

(** X4.  [getOrCreateSession] with a key that leads to a stored
    session makes no new session: it returns that session, stored
    under the same id with the same token and creation time, and with
    the address and user agent of the request when these are not
    empty; the token index is untouched and so is every other
    session. *)
Theorem getOrCreateSession_reuses_known_session
    (key : string) (options : SessionService.CreateOptions)
    (sessionId sessionToken : string) (now now_update : Z)
    (st : SessionService.Store) (s : SessionService.Session) :
  key <> EmptyString ->
  SessionService.sessions st !! SessionService.resolve key st = Some s ->
  SessionService.id s = SessionService.resolve key st ->
  let r := SessionService.getOrCreateSession (Some key) options
             sessionId sessionToken now now_update st in
  SessionService.id (fst r) = SessionService.id s
  /\ SessionService.token (fst r) = SessionService.token s
  /\ SessionService.createdAt (fst r) = SessionService.createdAt s
  /\ (SessionService.o_ipAddress options <> EmptyString ->
      SessionService.ipAddress (fst r) = SessionService.o_ipAddress options)
  /\ (SessionService.o_userAgent options <> EmptyString ->
      SessionService.userAgent (fst r) = SessionService.o_userAgent options)
  /\ SessionService.sessions (snd r) !! SessionService.resolve key st = Some (fst r)
  /\ (forall k, k <> SessionService.resolve key st ->
        SessionService.sessions (snd r) !! k = SessionService.sessions st !! k)
  /\ SessionService.tokenToSessionMap (snd r) = SessionService.tokenToSessionMap st.
Proof.
  intros Hkey Hs Hid. cbv zeta. unfold SessionService.getOrCreateSession.
  assert (Htr : SessionService.is_truthy (Some key) = true).
  { cbn. destruct (String.eqb_spec key EmptyString); [contradiction | reflexivity]. }
  rewrite Htr. rewrite (getSession_hit key now st s Hs).
  set (k0 := SessionService.resolve key st) in *.
  set (s1 := SessionService.set_lastActivity now s).
  assert (Hid1 : SessionService.id s1 = k0) by exact Hid.
  destruct (negb (String.eqb (SessionService.ipAddress s1)
                    (SessionService.o_ipAddress options))
            || negb (String.eqb (SessionService.userAgent s1)
                       (SessionService.o_userAgent options))) eqn:Hdiff.
  - unfold SessionService.updateSession. cbn [SessionService.sessions].
    rewrite Hid1, lookup_insert_eq, String.eqb_refl. cbn [fst snd].
    cbn [SessionService.apply_updates SessionService.id SessionService.token
         SessionService.createdAt SessionService.ipAddress SessionService.userAgent
         SessionService.address_updates SessionService.u_ipAddress
         SessionService.u_userAgent SessionService.sessions
         SessionService.tokenToSessionMap SessionService.truthy_or].
    repeat split.
    + intros Hne. destruct (String.eqb_spec (SessionService.o_ipAddress options)
                              EmptyString); [contradiction | reflexivity].
    + intros Hne. destruct (String.eqb_spec (SessionService.o_userAgent options)
                              EmptyString); [contradiction | reflexivity].
    + apply lookup_insert_eq.
    + intros k Hk. rewrite !lookup_insert_ne by congruence. reflexivity.
  - cbn [fst snd SessionService.sessions SessionService.tokenToSessionMap].
    apply orb_false_elim in Hdiff as [Hip Hua].
    apply negb_false_iff, String.eqb_eq in Hip.
    apply negb_false_iff, String.eqb_eq in Hua.
    repeat split; try (intros _; assumption).
    + apply lookup_insert_eq.
    + intros k Hk. rewrite lookup_insert_ne by congruence. reflexivity.
Qed.

Lemma getOrCreateSession_reuses_known_session_witness :
  SessionService.ipAddress
    (fst (SessionService.getOrCreateSession (Some "tok-1"%string) Cases.visitor
            "sid-x" "tok-x" 10 11 Scenarios.old_store))
  = "10.0.0.7"%string.
Proof.
  destruct (getOrCreateSession_reuses_known_session "tok-1" Cases.visitor
              "sid-x" "tok-x" 10 11 Scenarios.old_store Scenarios.old_session)
    as (_ & _ & _ & H & _).
  - discriminate.
  - vm_compute. reflexivity.
  - vm_compute. reflexivity.
  - apply H. discriminate.
Defined.

Section PoolOperationFacts.
Import BrowserService.

Lemma get_set_eq k v (m : Pool) : get k (set k v m) = Some v.
Proof.
  induction m as [|[k' v'] r IH]; cbn [set get].
  - now rewrite String.eqb_refl.
  - destruct (String.eqb k k') eqn:E; cbn [get]; rewrite ?String.eqb_refl, ?E; auto.
Qed.

Lemma get_set_ne k k' v (m : Pool) : k <> k' -> get k' (set k v m) = get k' m.
Proof.
  intros Hne. induction m as [|[k0 v0] r IH]; cbn [set get].
  - destruct (String.eqb_spec k' k); [congruence | reflexivity].
  - destruct (String.eqb_spec k k0) as [->|Hk]; cbn [get].
    + destruct (String.eqb_spec k' k0); [congruence | reflexivity].
    + now rewrite IH.
Qed.

Lemma get_delete_eq k (m : Pool) : get k (delete k m) = None.
Proof.
  induction m as [|[k' v'] r IH]; cbn [delete get]; [reflexivity|].
  destruct (String.eqb k k') eqn:E; [exact IH|]. cbn [get]. now rewrite E.
Qed.

Lemma get_delete_ne k k' (m : Pool) : k <> k' -> get k' (delete k m) = get k' m.
Proof.
  intros Hne. induction m as [|[k0 v0] r IH]; cbn [delete get]; [reflexivity|].
  destruct (String.eqb_spec k k0) as [->|Hk]; cbn [get].
  - rewrite IH. destruct (String.eqb_spec k' k0); [congruence | reflexivity].
  - now rewrite IH.
Qed.

Lemma get_None_delete k (m : Pool) : get k m = None -> delete k m = m.
Proof.
  induction m as [|[k' v'] r IH]; cbn [delete get]; [reflexivity|].
  destruct (String.eqb k k'); [discriminate|]. intros H. now rewrite IH.
Qed.

(** Writing to a key that is there changes neither the keys nor their
    order. *)
Lemma keys_set_present k v v' (m : Pool) :
  get k m = Some v -> map fst (set k v' m) = map fst m.
Proof.
  induction m as [|[k' v0] r IH]; cbn [get set map fst]; [discriminate|].
  destruct (String.eqb_spec k k') as [->|Hne]; cbn [map fst]; [reflexivity|].
  intros H. now rewrite IH.
Qed.

Lemma size_keys (m : Pool) : size m = Z.of_nat (length (map fst m)).
Proof. unfold size. now rewrite length_map. Qed.

Lemma size_set_present k v v' (m : Pool) :
  get k m = Some v -> size (set k v' m) = size m.
Proof. intros H. now rewrite !size_keys, (keys_set_present _ _ _ _ H). Qed.

Lemma keys_delete k (m : Pool) :
  map fst (delete k m) = List.filter (fun k' => negb (String.eqb k k')) (map fst m).
Proof.
  induction m as [|[k' v'] r IH]; cbn [delete map fst List.filter]; [reflexivity|].
  destruct (String.eqb k k'); cbn [negb map fst]; now rewrite IH.
Qed.

Lemma nonempty_keys_delete k (m : Pool) :
  Forall (fun e => fst e <> EmptyString) m ->
  Forall (fun e => fst e <> EmptyString) (delete k m).
Proof.
  induction m as [|[k' v'] r IH]; cbn [delete]; [auto|].
  intros H. inversion H; subst. destruct (String.eqb k k'); auto.
Qed.

Lemma nonempty_keys_set k v (m : Pool) :
  k <> EmptyString ->
  Forall (fun e => fst e <> EmptyString) m ->
  Forall (fun e => fst e <> EmptyString) (set k v m).
Proof.
  intros Hk. induction m as [|[k' v'] r IH]; cbn [set]; intros H.
  - constructor; [exact Hk | constructor].
  - inversion H; subst. destruct (String.eqb k k'); constructor; auto.
Qed.

Lemma get_In_key k v (m : Pool) : get k m = Some v -> In (k, v) m.
Proof.
  induction m as [|[k' v'] r IH]; cbn [get]; [discriminate|].
  destruct (String.eqb_spec k k') as [->|Hne].
  - intros H. inversion H. now left.
  - intros H. right. now apply IH.
Qed.

Lemma nonempty_key_of_get k v (m : Pool) :
  Forall (fun e => fst e <> EmptyString) m -> get k m = Some v -> k <> EmptyString.
Proof.
  intros H Hg. rewrite List.Forall_forall in H.
  exact (H _ (get_In_key _ _ _ Hg)).
Qed.

(** The operations that write to an instance: the size and the
    non-empty keys are kept. *)
Lemma closeBrowser_is_delete bid ok (m : Pool) :
  snd (closeBrowser bid ok m) = delete bid m.
Proof.
  unfold closeBrowser. destruct (get bid m) eqn:E; cbn [snd]; [reflexivity|].
  symmetry. now apply get_None_delete.
Qed.

Lemma cleanup_fold now ok (l : Pool) : forall acc : Pool,
  fold_left
    (fun acc e =>
       if idle now (snd e)
       then snd (closeBrowser (fst e) (ok (fst e)) acc)
       else acc) l acc
  = List.filter
      (fun e => negb (existsb (fun e' => String.eqb (fst e') (fst e)
                                          && idle now (snd e')) l)) acc.
Proof.
  induction l as [|e' l IH]; intros acc; cbn [fold_left existsb].
  - cbn [negb]. induction acc as [|a acc IHa]; cbn [List.filter]; [reflexivity|].
    now rewrite <- IHa.
  - rewrite IH. destruct (idle now (snd e')) eqn:Ei.
    + rewrite closeBrowser_is_delete.
      induction acc as [|[k v] acc IHa]; cbn [delete List.filter]; [reflexivity|].
      cbn [fst snd]. destruct (String.eqb (fst e') k) eqn:Ek; cbn [andb orb negb].
      * exact IHa.
      * cbn [List.filter fst snd]. destruct (negb _); now rewrite IHa.
    + induction acc as [|[k v] acc IHa]; cbn [List.filter]; [reflexivity|].
      cbn [fst snd]. rewrite andb_false_r. cbn [orb].
      destruct (negb _); now rewrite IHa.
Qed.

Lemma existsb_same_key now (e : string * BrowserInstance) (m : Pool) :
  List.NoDup (map fst m) -> In e m ->
  existsb (fun e' => String.eqb (fst e') (fst e) && idle now (snd e')) m
  = idle now (snd e).
Proof.
  induction m as [|e0 m IH]; cbn [map In existsb]; [tauto|].
  intros Hnd Hin. apply List.NoDup_cons_iff in Hnd as [Hnot Hnd].
  destruct Hin as [->|Hin].
  - rewrite String.eqb_refl. cbn [andb].
    destruct (idle now (snd e)); [reflexivity|]. cbn [orb].
    apply not_true_is_false. intros Hex. apply existsb_exists in Hex as (e' & Hin' & H).
    apply andb_prop in H as [Hk _]. apply String.eqb_eq in Hk.
    apply Hnot. rewrite <- Hk. now apply in_map.
  - destruct (String.eqb_spec (fst e0) (fst e)) as [Heq|Hne].
    + exfalso. apply Hnot. rewrite Heq. now apply in_map.
    + cbn [andb orb]. now apply IH.
Qed.

End PoolOperationFacts.

(** X5.  [closeBrowser] removes the instance it is given, whether or
    not closing the page went through, and touches no other instance;
    it answers [true] only for an instance that was there; closing the
    same id again answers [false] and changes nothing. *)
Theorem closeBrowser_removes_once
    (bid : string) (closed_ok again_ok : bool) (m : BrowserService.Pool) :
  let r := BrowserService.closeBrowser bid closed_ok m in
  BrowserService.get bid (snd r) = None
  /\ (forall k, k <> bid -> BrowserService.get k (snd r) = BrowserService.get k m)
  /\ fst r = match BrowserService.get bid m with
             | Some _ => closed_ok
             | None => false
             end
  /\ (BrowserService.get bid m = None -> snd r = m)
  /\ BrowserService.closeBrowser bid again_ok (snd r) = (false, snd r).
Proof.
  cbv zeta. rewrite closeBrowser_is_delete.
  split; [apply get_delete_eq|]. split.
  { intros k Hk. apply get_delete_ne. congruence. }
  split.
  { unfold BrowserService.closeBrowser. now destruct (BrowserService.get bid m). }
  split; [apply get_None_delete|].
  unfold BrowserService.closeBrowser at 1. now rewrite get_delete_eq.
Qed.

Section EvictionFacts.
Import BrowserService.

(** The loop that looks for the oldest browser keeps the first of the
    entries that share the smallest timestamp. *)
Lemma oldest_fold_first (m : Pool) : forall acc,
  let r := fold_left oldest_step m acc in
  (r = acc /\ Forall (fun e => snd acc <= lastActivity (snd e)) m)
  \/ exists l1 e l2,
       m = l1 ++ e :: l2
       /\ r = (fst e, lastActivity (snd e))
       /\ lastActivity (snd e) < snd acc
       /\ Forall (fun x => lastActivity (snd e) < lastActivity (snd x)) l1
       /\ Forall (fun x => lastActivity (snd e) <= lastActivity (snd x)) l2.
Proof.
  induction m as [|e0 m IH]; intros acc; cbn [fold_left]; cbv zeta.
  - left. split; [reflexivity | constructor].
  - specialize (IH (oldest_step acc e0)). cbv zeta in IH.
    assert (Hstep : (oldest_step acc e0 = acc /\ snd acc <= lastActivity (snd e0))
                    \/ (oldest_step acc e0 = (fst e0, lastActivity (snd e0))
                        /\ lastActivity (snd e0) < snd acc)).
    { unfold oldest_step. destruct (lastActivity (snd e0) <? snd acc) eqn:E.
      - right. apply Z.ltb_lt in E. auto.
      - left. apply Z.ltb_ge in E. auto. }
    destruct IH as [[Hr Hall] | (l1 & e & l2 & Hm & Hr & Hlt & H1 & H2)].
    + destruct Hstep as [[Hs Hle] | [Hs Hlt]].
      * left. rewrite Hr, Hs. split; [reflexivity|].
        constructor; [exact Hle|]. now rewrite Hs in Hall.
      * right. exists [], e0, m. rewrite Hr, Hs. cbn [snd] in Hall.
        rewrite Hs in Hall. cbn [snd] in Hall. repeat split; auto.
    + right. exists (e0 :: l1), e, l2. rewrite Hr, Hm.
      destruct Hstep as [[Hs Hle] | [Hs Hlt0]]; rewrite Hs in Hlt; cbn [snd] in Hlt;
        (split; [reflexivity|]; split; [reflexivity|]; split; [lia|];
         split; [constructor; [lia | exact H1] | exact H2]).
Qed.

Lemma delete_middle (l1 l2 : Pool) e :
  List.NoDup (map fst (l1 ++ e :: l2)) ->
  delete (fst e) (l1 ++ e :: l2) = l1 ++ l2.
Proof.
  intros Hnd. rewrite map_app in Hnd. cbn [map] in Hnd.
  assert (H1 : ~ In (fst e) (map fst l1)).
  { intros Hin. apply List.NoDup_remove_2 in Hnd. apply Hnd.
    apply in_or_app. now left. }
  assert (H2 : ~ In (fst e) (map fst l2)).
  { intros Hin. apply List.NoDup_remove_2 in Hnd. apply Hnd.
    apply in_or_app. now right. }
  clear Hnd. induction l1 as [|[k v] l1 IH]; cbn [app delete].
  - destruct e as [k v]. cbn [fst] in *. rewrite String.eqb_refl.
    now apply delete_absent.
  - cbn [map fst In] in H1. destruct (String.eqb_spec (fst e) k) as [Heq|Hne].
    + exfalso. apply H1. now left.
    + f_equal. apply IH. intros Hin. apply H1. now right.
Qed.

End EvictionFacts.

(** X6.  When [createBrowser] finds the pool full and some instance
    older than its clock, it closes exactly one instance before it
    launches: the first, in insertion order, of those with the
    smallest [lastActivity].  The others stay in their order. *)
Theorem full_pool_evicts_first_least_recently_used
    (MAX_BROWSERS : Z) (env : BrowserService.CreateEnv) (m : BrowserService.Pool) :
  MAX_BROWSERS <= BrowserService.size m ->
  Exists (fun e => BrowserService.lastActivity (snd e) < BrowserService.now_select env) m ->
  Forall (fun e => fst e <> EmptyString) m ->
  List.NoDup (map fst m) ->
  exists before victim after,
    m = before ++ victim :: after
    /\ Forall (fun x => BrowserService.lastActivity (snd victim)
                        < BrowserService.lastActivity (snd x)) before
    /\ Forall (fun x => BrowserService.lastActivity (snd victim)
                        <= BrowserService.lastActivity (snd x)) after
    /\ BrowserService.make_room MAX_BROWSERS env m = before ++ after
    /\ BrowserService.size (BrowserService.make_room MAX_BROWSERS env m)
       = BrowserService.size m - 1.
Proof.
  intros Hfull Hex Hkeys Hnd.
  pose proof (oldest_fold_first m (EmptyString, BrowserService.now_select env)) as H.
  cbv zeta in H. destruct H as [[_ Hall] | (l1 & e & l2 & Hm & Hr & _ & H1 & H2)].
  { exfalso. cbn [snd] in Hall. apply List.Exists_exists in Hex as (x & Hin & Hlt).
    rewrite List.Forall_forall in Hall. specialize (Hall x Hin). lia. }
  exists l1, e, l2. split; [exact Hm|]. split; [exact H1|]. split; [exact H2|].
  assert (Hne : fst e <> EmptyString).
  { rewrite List.Forall_forall in Hkeys. apply Hkeys. rewrite Hm.
    apply in_or_app. right. now left. }
  assert (Hroom : BrowserService.make_room MAX_BROWSERS env m = l1 ++ l2).
  { unfold BrowserService.make_room, BrowserService.findOldest.
    destruct (BrowserService.size m >=? MAX_BROWSERS) eqn:E.
    - rewrite Hr. cbn [fst]. rewrite (truthy_nonempty _ Hne).
      rewrite closeBrowser_is_delete. rewrite Hm. apply delete_middle.
      now rewrite <- Hm.
    - rewrite Z.geb_leb in E. apply Z.leb_gt in E. lia. }
  split; [exact Hroom|]. rewrite Hroom, Hm. unfold BrowserService.size.
  rewrite !length_app. cbn [length]. lia.
Qed.

Lemma full_pool_evicts_first_least_recently_used_witness :
  BrowserService.make_room 3 (Cases.create_at 200 "browser-d") Cases.three_browsers
  = [Cases.browser "browser-a" 100; Cases.browser "browser-c" 50].
Proof.
  destruct (full_pool_evicts_first_least_recently_used 3
              (Cases.create_at 200 "browser-d") Cases.three_browsers)
    as (l1 & e & l2 & _ & _ & _ & _ & _).
  - vm_compute. discriminate.
  - apply List.Exists_cons_hd. vm_compute. reflexivity.
  - repeat constructor; discriminate.
  - repeat constructor; cbn; intuition discriminate.
  - reflexivity.
Defined.

Section CapacityFacts.
Import BrowserService.

Lemma size_cleanup_le now ok (m : Pool) : size (cleanupInactiveBrowsers now ok m) <= size m.
Proof.
  unfold cleanupInactiveBrowsers. rewrite cleanup_fold. unfold size.
  pose proof (List.filter_length_le
                (fun e => negb (existsb (fun e' => String.eqb (fst e') (fst e)
                                                    && idle now (snd e')) m)) m).
  lia.
Qed.

Lemma nonempty_keys_filter (f : string * BrowserInstance -> bool) (m : Pool) :
  Forall (fun e => fst e <> EmptyString) m ->
  Forall (fun e => fst e <> EmptyString) (List.filter f m).
Proof.
  intros H. rewrite List.Forall_forall in *. intros x Hx.
  apply List.filter_In in Hx as [Hx _]. auto.
Qed.

(** Every operation but a creation leaves the pool no larger, and
    keeps its keys non-empty. *)
Lemma operate_other_size MAX o (m : Pool) :
  (forall u w h env, o <> OpCreate u w h env) ->
  size (operate MAX o m) <= size m
  /\ (Forall (fun e => fst e <> EmptyString) m ->
      Forall (fun e => fst e <> EmptyString) (operate MAX o m)).
Proof.
  intros Hno. destruct o as [u w h env | bid ok | bid options ty now capture
                            | bid u now loaded | bid action now done
                            | bid w h resized | now ok]; cbn [operate].
  - exfalso. now apply (Hno u w h env).
  - rewrite closeBrowser_is_delete. split; [apply size_delete_le|].
    apply nonempty_keys_delete.
  - unfold getScreenshot, screenshot_enter.
    destruct (get bid m) as [inst|] eqn:E; cbn [snd]; [|split; [lia | auto]].
    split; [rewrite (size_set_present _ _ _ _ E); lia|].
    intros H. apply nonempty_keys_set; [|exact H].
    exact (nonempty_key_of_get _ _ _ H E).
  - unfold navigateTo. destruct (get bid m) as [inst|] eqn:E; cbn [snd];
      [|split; [lia | auto]].
    destruct loaded; cbn [snd];
      (split; [rewrite (size_set_present _ _ _ _ E); lia|];
       intros H; apply nonempty_keys_set; [|exact H];
       exact (nonempty_key_of_get _ _ _ H E)).
  - unfold executeAction. destruct (get bid m) as [inst|] eqn:E; cbn [snd];
      [|split; [lia | auto]].
    destruct (known_action action); cbn [snd];
      (split; [rewrite (size_set_present _ _ _ _ E); lia|];
       intros H; apply nonempty_keys_set; [|exact H];
       exact (nonempty_key_of_get _ _ _ H E)).
  - unfold resizeViewport. destruct (get bid m) as [inst|] eqn:E; cbn [snd];
      [|split; [lia | auto]].
    destruct resized; cbn [snd]; [|split; [lia | auto]].
    split; [rewrite (size_set_present _ _ _ _ E); lia|].
    intros H. apply nonempty_keys_set; [|exact H].
    exact (nonempty_key_of_get _ _ _ H E).
  - split; [apply size_cleanup_le|].
    unfold cleanupInactiveBrowsers. rewrite cleanup_fold.
    apply nonempty_keys_filter.
Qed.

Lemma nonempty_keys_make_room MAX env (m : Pool) :
  Forall (fun e => fst e <> EmptyString) m ->
  Forall (fun e => fst e <> EmptyString) (make_room MAX env m).
Proof.
  intros H. unfold make_room. destruct (size m >=? MAX); [|exact H].
  destruct (truthy _); [|exact H]. rewrite closeBrowser_is_delete.
  now apply nonempty_keys_delete.
Qed.

End CapacityFacts.

(** Along any run of pool operations taken in one piece each in which
    every creation that finds the pool full also finds an instance
    older than its clock, the number of live instances never exceeds
    the capacity. *)
Lemma operate_all_within_capacity
    (MAX_BROWSERS : Z) (operations : list BrowserService.Operation)
    (m : BrowserService.Pool) :
  1 <= MAX_BROWSERS ->
  BrowserService.size m <= MAX_BROWSERS ->
  Forall (fun e => fst e <> EmptyString) m ->
  BrowserService.timely MAX_BROWSERS operations m ->
  BrowserService.size (BrowserService.operate_all MAX_BROWSERS operations m)
  <= MAX_BROWSERS.
Proof.
  intros Hmax. revert m.
  induction operations as [|o os IH]; intros m Hsize Hkeys Ht;
    cbn [BrowserService.operate_all fold_left]; [exact Hsize|].
  cbn [BrowserService.timely] in Ht. destruct Ht as [Ho Ht].
  assert (Hstep : BrowserService.size (BrowserService.operate MAX_BROWSERS o m)
                  <= MAX_BROWSERS
                  /\ Forall (fun e => fst e <> EmptyString)
                       (BrowserService.operate MAX_BROWSERS o m)).
  { destruct o as [u w h env | | | | | | ];
      try (match goal with
           | |- context [BrowserService.operate _ ?o _] =>
               destruct (operate_other_size MAX_BROWSERS o m) as [Hs Hk];
               [intros; discriminate | split; [lia | auto]]
           end).
    destruct Ho as [Hroom Huuid]. split.
    - cbn [BrowserService.operate].
      apply createBrowser_within_capacity; [exact Hmax | exact Hsize|].
      destruct Hroom as [Hlt | Hex]; [now left | right; split; assumption].
    - cbn [BrowserService.operate]. unfold BrowserService.createBrowser.
      pose proof (nonempty_keys_make_room MAX_BROWSERS env m Hkeys) as Hk.
      destruct (BrowserService.launched env) as [[uuid t]|]; cbn [snd]; [|exact Hk].
      now apply nonempty_keys_set. }
  destruct Hstep as [Hs Hk]. now apply IH.
Qed.

Ltac find_older :=
  first [ apply List.Exists_cons_hd; reflexivity
        | apply List.Exists_cons_tl; find_older ].

Ltac settle_pool :=
  match goal with
  | |- List.Exists _ ?m =>
      let v := eval vm_compute in m in change m with v
  end.

Section OverlapFacts.
Import BrowserService.

(** A creation that runs alone goes through its three stretches to
    what [createBrowser] gives in one piece. *)
Lemma create_alone MAX u w h env (m : Pool) :
  fly MAX [Enters O (now_select env); Closed O; Stores O u w h (launched env)]
    (on_ground m)
  = on_ground (snd (createBrowser MAX u w h env m)).
Proof.
  unfold fly, on_ground, createBrowser, make_room, closeBrowser.
  cbn [fold_left stretch landed flying].
  destruct (size m >=? MAX); cbn [landed flying].
  - destruct (truthy (fst (findOldest (now_select env) m))).
    + destruct (get (fst (findOldest (now_select env) m)) m) eqn:Eg;
        rewrite lookup_insert_eq; cbn [landed flying snd];
        rewrite ?lookup_insert_eq; cbn [landed flying];
        rewrite ?insert_insert_eq, delete_insert_eq, delete_empty;
        destruct (launched env) as [[uuid t]|]; reflexivity.
    + rewrite lookup_insert_eq. cbn [landed flying].
      rewrite lookup_insert_eq. cbn [landed flying].
      rewrite delete_insert_eq, delete_empty.
      destruct (launched env) as [[uuid t]|]; reflexivity.
  - rewrite lookup_insert_eq. cbn [landed flying].
    rewrite lookup_insert_eq. cbn [landed flying].
    rewrite delete_insert_eq, delete_empty.
    destruct (launched env) as [[uuid t]|]; reflexivity.
Qed.

Lemma fly_app MAX xs ys f : fly MAX (xs ++ ys) f = fly MAX ys (fly MAX xs f).
Proof. unfold fly. apply fold_left_app. Qed.

(** Operations that run one at a time are the operations taken in one
    piece. *)
Lemma fly_one_at_a_time MAX os : forall m : Pool,
  fly MAX (one_at_a_time os) (on_ground m) = on_ground (operate_all MAX os m).
Proof.
  induction os as [|o os IH]; intros m; [reflexivity|].
  cbn [one_at_a_time flat_map]. rewrite fly_app.
  change (flat_map _ os) with (one_at_a_time os).
  assert (Ho : fly MAX
                 match o with
                 | OpCreate u w h env =>
                     [Enters O (now_select env); Closed O;
                      Stores O u w h (launched env)]
                 | _ => [Whole_call o]
                 end (on_ground m)
               = on_ground (operate MAX o m)).
  { destruct o; try reflexivity. apply create_alone. }
  rewrite Ho, IH. reflexivity.
Qed.

(** Two creations that both start before either has stored its
    browser, in a pool with room: both find room, and both store. *)
Lemma creations_that_overlap MAX (m : Pool) now1 now2 u1 w1 h1 id1 t1 u2 w2 h2 id2 t2 :
  size m < MAX ->
  get id1 m = None -> get id2 m = None -> id1 <> id2 ->
  size (landed (fly MAX [Enters 1 now1; Enters 2 now2;
                         Stores 1 u1 w1 h1 (Some (id1, t1));
                         Stores 2 u2 w2 h2 (Some (id2, t2))] (on_ground m)))
  = size m + 2.
Proof.
  intros Hroom H1 H2 Hne. unfold fly, on_ground.
  cbn [fold_left stretch landed flying].
  assert (E : (size m >=? MAX) = false) by (rewrite Z.geb_leb; apply Z.leb_gt; lia).
  rewrite E. cbn [landed flying].
  rewrite (lookup_insert_ne (<[1%nat := Launching]> ∅) 2%nat 1%nat) by lia.
  rewrite lookup_insert_eq. cbn [landed flying].
  rewrite lookup_delete_ne by lia. rewrite lookup_insert_eq. cbn [landed flying].
  rewrite size_set_fresh by (rewrite get_set_ne by exact Hne; exact H2).
  rewrite size_set_fresh by exact H1. lia.
Qed.

End OverlapFacts.

(** X7.  Pool operations that run one at a time -- each
    [createBrowser] through all its stretches before the next
    operation starts -- keep the pool within its capacity: along any
    such run of creations, closes, screenshots, navigations, actions,
    resizes and passes of the reaper in which every creation that
    finds the pool full also finds an instance older than its clock,
    the pool never holds more than [MAX_BROWSERS] instances.  The
    condition is needed: two creations that overlap, both starting
    before either has stored its browser, both find room in a pool
    with room and leave it two larger, over the capacity when only
    one place was free. *)
Theorem pool_stays_within_capacity
    (MAX_BROWSERS : Z) (operations : list BrowserService.Operation)
    (m : BrowserService.Pool) :
  1 <= MAX_BROWSERS ->
  BrowserService.size m <= MAX_BROWSERS ->
  Forall (fun e => fst e <> EmptyString) m ->
  BrowserService.timely MAX_BROWSERS operations m ->
  let alone :=
    BrowserService.fly MAX_BROWSERS (BrowserService.one_at_a_time operations)
      (BrowserService.on_ground m) in
  alone
  = BrowserService.on_ground (BrowserService.operate_all MAX_BROWSERS operations m)
  /\ BrowserService.size (BrowserService.landed alone) <= MAX_BROWSERS
  /\ (forall now1 now2 u1 w1 h1 id1 t1 u2 w2 h2 id2 t2,
        BrowserService.size m = MAX_BROWSERS - 1 ->
        BrowserService.get id1 m = None ->
        BrowserService.get id2 m = None ->
        id1 <> id2 ->
        BrowserService.size
          (BrowserService.landed
             (BrowserService.fly MAX_BROWSERS
                [BrowserService.Enters 1 now1; BrowserService.Enters 2 now2;
                 BrowserService.Stores 1 u1 w1 h1 (Some (id1, t1));
                 BrowserService.Stores 2 u2 w2 h2 (Some (id2, t2))]
                (BrowserService.on_ground m)))
        = MAX_BROWSERS + 1).
Proof.
  intros Hmax Hsize Hkeys Ht. cbv zeta.
  rewrite fly_one_at_a_time. split; [reflexivity|]. split.
  - cbn [BrowserService.landed BrowserService.on_ground].
    apply operate_all_within_capacity; assumption.
  - intros now1 now2 u1 w1 h1 id1 t1 u2 w2 h2 id2 t2 Hone H1 H2 Hne.
    rewrite creations_that_overlap by (try assumption; lia). lia.
Qed.

Lemma pool_stays_within_capacity_witness :
  BrowserService.size
    (BrowserService.landed
       (BrowserService.fly 2 (BrowserService.one_at_a_time Cases.pool_traffic)
          (BrowserService.on_ground []))) <= 2.
Proof.
  refine (proj1 (proj2 (pool_stays_within_capacity 2 Cases.pool_traffic [] _ _ _ _))).
  - lia.
  - vm_compute. discriminate.
  - constructor.
  - cbv [Cases.pool_traffic Cases.create_at].
    cbn [BrowserService.timely BrowserService.launched BrowserService.now_select].
    repeat match goal with |- _ /\ _ => split end;
      try exact I; try discriminate;
      first [ left; reflexivity | right; settle_pool; find_older ].
Defined.

Section NavigationFacts.
Import BrowserService.

Lemma prefix_app p u : String.prefix p (p ++ u) = true.
Proof.
  induction p as [|c p IH].
  - now destruct u.
  - change (String c p +:+ u) with (String c (p +:+ u)).
    cbn [String.prefix].
    destruct (Ascii.ascii_dec c c); [exact IH | congruence].
Qed.

(** The URL [navigateTo] goes to always has a scheme, and a URL with
    a scheme is left as it is. *)
Lemma normalise_url_scheme u :
  String.prefix "http://" (normalise_url u) || String.prefix "https://" (normalise_url u)
  = true.
Proof.
  unfold normalise_url.
  destruct (String.prefix "http://" u) eqn:E1; cbn [negb andb].
  - now rewrite E1.
  - destruct (String.prefix "https://" u) eqn:E2; cbn [negb].
    + now rewrite E1, E2.
    + rewrite (prefix_app "https://" u). apply orb_true_r.
Qed.

Lemma normalise_url_idempotent u : normalise_url (normalise_url u) = normalise_url u.
Proof.
  pose proof (normalise_url_scheme u) as H.
  unfold normalise_url at 1.
  destruct (String.prefix "http://" (normalise_url u));
    destruct (String.prefix "https://" (normalise_url u)); cbn in *;
    try reflexivity; discriminate.
Qed.

End NavigationFacts.

(** X8.  [navigateTo] on an unknown id answers [false] and changes
    nothing.  On a known instance it refreshes [lastActivity] whether
    or not the page loads, answers whether it loaded, stores the URL
    only when it loaded -- with [https://] in front unless the URL
    starts with [http://] or [https://], so that the stored URL always
    has a scheme and normalising it again changes nothing -- and
    touches no other instance. *)
Theorem navigateTo_normalises_and_keeps_url_on_failure
    (bid u : string) (now : Z) (loaded : bool) (m : BrowserService.Pool) :
  let r := BrowserService.navigateTo bid u now loaded m in
  match BrowserService.get bid m with
  | None => r = (false, m)
  | Some instance =>
      fst r = loaded
      /\ BrowserService.get bid (snd r)
         = Some {| BrowserService.id := BrowserService.id instance;
                   BrowserService.url :=
                     if loaded then BrowserService.normalise_url u
                     else BrowserService.url instance;
                   BrowserService.lastActivity := now;
                   BrowserService.viewportWidth := BrowserService.viewportWidth instance;
                   BrowserService.viewportHeight :=
                     BrowserService.viewportHeight instance |}
      /\ (forall k, k <> bid ->
            BrowserService.get k (snd r) = BrowserService.get k m)
      /\ map fst (snd r) = map fst m
  end
  /\ (String.prefix "http://" (BrowserService.normalise_url u)
      || String.prefix "https://" (BrowserService.normalise_url u) = true)
  /\ BrowserService.normalise_url (BrowserService.normalise_url u)
     = BrowserService.normalise_url u
  /\ (String.prefix "http://" u || String.prefix "https://" u = true ->
      BrowserService.normalise_url u = u).
Proof.
  cbv zeta. split; [|split; [apply normalise_url_scheme|
                             split; [apply normalise_url_idempotent|]]].
  - unfold BrowserService.navigateTo.
    destruct (BrowserService.get bid m) as [instance|] eqn:E; [|reflexivity].
    destruct loaded; cbn [fst snd]; (split; [reflexivity|]);
      (split; [apply get_set_eq|]);
      (split; [intros k Hk; apply get_set_ne; congruence|]);
      exact (keys_set_present _ _ _ _ E).
  - intros H. unfold BrowserService.normalise_url.
    destruct (String.prefix "http://" u); destruct (String.prefix "https://" u);
      cbn in *; try reflexivity; discriminate.
Qed.

(** X9.  [executeAction] answers [true] exactly when the instance
    exists, the verb is one of the fifteen of its [switch] and the
    page call went through; [getCurrentUrl] is not one of them.  On a
    known instance it refreshes [lastActivity] even for an unknown
    verb or a failed call, and changes nothing else: same ids in the
    same order, same URL and viewport, other instances untouched. *)
Theorem executeAction_closed_verbs
    (bid action : string) (now : Z) (done : bool) (m : BrowserService.Pool) :
  let r := BrowserService.executeAction bid action now done m in
  match BrowserService.get bid m with
  | None => r = (false, m)
  | Some instance =>
      fst r = (BrowserService.known_action action && done)
      /\ BrowserService.get bid (snd r) = Some (BrowserService.touch now instance)
      /\ (forall k, k <> bid ->
            BrowserService.get k (snd r) = BrowserService.get k m)
      /\ map fst (snd r) = map fst m
  end
  /\ (BrowserService.known_action action = true <-> In action BrowserService.actions)
  /\ BrowserService.known_action "getCurrentUrl" = false.
Proof.
  cbv zeta. split; [|split; [|reflexivity]].
  - unfold BrowserService.executeAction.
    destruct (BrowserService.get bid m) as [instance|] eqn:E; [|reflexivity].
    destruct (BrowserService.known_action action); cbn [fst snd andb];
      (split; [reflexivity|]); (split; [apply get_set_eq|]);
      (split; [intros k Hk; apply get_set_ne; congruence|]);
      exact (keys_set_present _ _ _ _ E).
  - unfold BrowserService.known_action. rewrite existsb_exists. split.
    + intros (x & Hin & Hx). apply String.eqb_eq in Hx. now subst.
    + intros Hin. exists action. split; [exact Hin | apply String.eqb_refl].
Qed.

(** X10.  A pass of the reaper over a pool with distinct ids closes
    exactly the instances idle for more than fifteen minutes: what is
    left is the instances within the timeout, unchanged and in their
    order, whatever the outcome of each close. *)
Theorem reaper_closes_exactly_the_idle
    (now : Z) (closed_ok : string -> bool) (m : BrowserService.Pool) :
  List.NoDup (map fst m) ->
  BrowserService.cleanupInactiveBrowsers now closed_ok m
  = List.filter
      (fun e => now - BrowserService.lastActivity (snd e)
                <=? BrowserService.BROWSER_TIMEOUT) m.
Proof.
  intros Hnd. unfold BrowserService.cleanupInactiveBrowsers. rewrite cleanup_fold.
  apply List.filter_ext_in. intros e Hin.
  rewrite (existsb_same_key now e m Hnd Hin). unfold BrowserService.idle.
  rewrite Z.gtb_ltb. now rewrite Z.leb_antisym.
Qed.

Lemma reaper_closes_exactly_the_idle_witness :
  BrowserService.cleanupInactiveBrowsers 900060 (fun _ => false) Cases.three_browsers
  = [Cases.browser "browser-a" 100].
Proof.
  rewrite (reaper_closes_exactly_the_idle 900060 (fun _ => false) Cases.three_browsers).
  - reflexivity.
  - repeat constructor; cbn; intuition discriminate.
Defined.

Section ResizeFacts.
Import BrowserService.

Lemma activity_set_same k v v' (m : Pool) :
  get k m = Some v ->
  lastActivity v' = lastActivity v -> url v' = url v ->
  map (fun e => (fst e, lastActivity (snd e), url (snd e))) (set k v' m)
  = map (fun e => (fst e, lastActivity (snd e), url (snd e))) m.
Proof.
  intros Hg Hla Hurl. induction m as [|[k' v0] r IH]; cbn [get set map] in *;
    [discriminate|].
  destruct (String.eqb_spec k k') as [->|Hne]; cbn [map fst snd].
  - inversion Hg; subst v0. now rewrite Hla, Hurl.
  - now rewrite IH.
Qed.

End ResizeFacts.

(** X11.  [resizeViewport] is not counted as activity: it changes the
    viewport of the instance it is given, when the page accepts the
    size, and leaves every id, every [lastActivity] and every URL as
    it was; so an instance that is only resized becomes idle for the
    reaper all the same.  [getCurrentUrl] changes nothing at all and
    answers nothing for an unknown id. *)
Theorem resize_is_not_activity
    (bid : string) (w h : Z) (resized : bool) (now : Z)
    (page_url : option string) (m : BrowserService.Pool) :
  let r := BrowserService.resizeViewport bid w h resized m in
  map (fun e => (fst e, BrowserService.lastActivity (snd e), BrowserService.url (snd e)))
    (snd r)
  = map (fun e => (fst e, BrowserService.lastActivity (snd e), BrowserService.url (snd e)))
      m
  /\ map (fun e => BrowserService.idle now (snd e)) (snd r)
     = map (fun e => BrowserService.idle now (snd e)) m
  /\ match BrowserService.get bid m with
     | None => r = (false, m) /\ BrowserService.getCurrentUrl bid page_url m = None
     | Some instance =>
         fst r = resized
         /\ BrowserService.get bid (snd r)
            = Some (if resized then BrowserService.set_viewport w h instance
                    else instance)
         /\ BrowserService.getCurrentUrl bid page_url m = page_url
     end.
Proof.
  cbv zeta.
  assert (H1 : map (fun e => (fst e, BrowserService.lastActivity (snd e),
                               BrowserService.url (snd e)))
                 (snd (BrowserService.resizeViewport bid w h resized m))
               = map (fun e => (fst e, BrowserService.lastActivity (snd e),
                                 BrowserService.url (snd e))) m).
  { unfold BrowserService.resizeViewport.
    destruct (BrowserService.get bid m) as [instance|] eqn:E; [|reflexivity].
    destruct resized; cbn [snd]; [|reflexivity].
    now apply (activity_set_same _ instance). }
  split; [exact H1|]. split.
  - apply (f_equal (map (fun x : string * Z * string =>
                           now - snd (fst x) >? BrowserService.BROWSER_TIMEOUT))) in H1.
    rewrite !map_map in H1. exact H1.
  - unfold BrowserService.resizeViewport, BrowserService.getCurrentUrl.
    destruct (BrowserService.get bid m) as [instance|] eqn:E; [|split; reflexivity].
    destruct resized; cbn [fst snd]; (split; [reflexivity|]);
      (split; [|reflexivity]); [apply get_set_eq | exact E].
Qed.

Ltac fields :=
  cbn [StreamingService.browserId StreamingService.fps StreamingService.quality
       StreamingService.width StreamingService.height StreamingService.active
       StreamingService.adaptiveBitrate StreamingService.lastFrameTime
       StreamingService.frameCount StreamingService.bytesSent
       StreamingService.keyframeCount StreamingService.lastFullFrame
       StreamingService.previousFrame StreamingService.connectionQuality
       StreamingService.deviceType StreamingService.sessionId
       StreamingService.latency andb negb].

Ltac split_guards :=
  repeat (match goal with
          | |- context [if ?b then _ else _] =>
              lazymatch b with
              | context [if _ then _ else _] => fail
              | _ => let E := fresh "E" in destruct b eqn:E
              end
          end; fields).

Ltac guards_to_Z :=
  repeat match goal with
         | H : (_ >? _) = true |- _ => apply Z.gtb_lt in H
         | H : (_ >? _) = false |- _ => rewrite Z.gtb_ltb in H; apply Z.ltb_ge in H
         | H : (_ <? _) = true |- _ => apply Z.ltb_lt in H
         | H : (_ <? _) = false |- _ => apply Z.ltb_ge in H
         | H : (_ =? _) = true |- _ => apply Z.eqb_eq in H
         | H : (_ =? _) = false |- _ => apply Z.eqb_neq in H
         | H : negb _ = true |- _ => apply negb_true_iff in H
         | H : negb _ = false |- _ => apply negb_false_iff in H
         | H : (_ && _) = true |- _ => apply andb_prop in H; destruct H
         end.

Section LatencyDirectionFacts.
Import StreamingService.

Ltac open_report :=
  unfold onLatencyReport, adjustQualityBasedOnLatency, latency_truthy,
    set_latency, set_quality, set_fps,
    LATENCY_THRESHOLD_HIGH, LATENCY_THRESHOLD_MEDIUM, MIN_QUALITY, MAX_QUALITY,
    MIN_FPS, DEFAULT_FPS, DEFAULT_QUALITY;
  fields.

(** The quality and fps after one report, in one expression each. *)
Lemma onLatencyReport_values reported s :
  let s' := onLatencyReport reported s in
  quality s'
  = (if adaptiveBitrate s && negb (reported =? 0) then
       if reported >? 200 then (if quality s >? 30 then Z.max 20 (quality s - 5) else quality s)
       else if reported >? 100 then (if quality s >? 25 then Z.max 20 (quality s - 2) else quality s)
       else (if quality s <? 80 then Z.min 95 (quality s + 1) else quality s)
     else quality s)
  /\ fps s'
     = (if adaptiveBitrate s && negb (reported =? 0) then
          if reported >? 200 then (if fps s >? 10 then Z.max 5 (fps s - 2) else fps s)
          else if reported >? 100 then fps s
          else (if fps s <? 30 then Z.min 30 (fps s + 1) else fps s)
        else fps s).
Proof.
  destruct s as [b f q w h a ad lft fc bs kc lff pf cq dt sid lat].
  cbv zeta. open_report.
  change (20 + 10) with 30. change (20 + 5) with 25. change (5 + 5) with 10.
  destruct ad; fields; [|split; reflexivity].
  destruct (reported =? 0); fields; [split; reflexivity|].
  destruct (reported >? 200); [|destruct (reported >? 100)];
    split_guards; split; reflexivity.
Qed.

(** A report touches [quality], [fps] and [latency] only. *)
Lemma onLatencyReport_frame reported s :
  let s' := onLatencyReport reported s in
  latency s' = Some reported
  /\ browserId s' = browserId s /\ width s' = width s /\ height s' = height s
  /\ active s' = active s /\ adaptiveBitrate s' = adaptiveBitrate s
  /\ lastFrameTime s' = lastFrameTime s /\ frameCount s' = frameCount s
  /\ bytesSent s' = bytesSent s /\ keyframeCount s' = keyframeCount s
  /\ lastFullFrame s' = lastFullFrame s /\ previousFrame s' = previousFrame s
  /\ connectionQuality s' = connectionQuality s /\ deviceType s' = deviceType s
  /\ sessionId s' = sessionId s.
Proof.
  destruct s as [b f q w h a ad lft fc bs kc lff pf cq dt sid lat].
  cbv zeta.
  match goal with
  | |- context [onLatencyReport reported ?s0] =>
      assert (H : exists f' q',
                 onLatencyReport reported s0
                 = set_fps f' (set_quality q' (set_latency (Some reported) s0)))
  end.
  { open_report. split_guards; eexists; eexists; reflexivity. }
  destruct H as (f' & q' & ->). repeat split.
Qed.

End LatencyDirectionFacts.

(** X12.  A latency report never moves the stream the wrong way: above
    100 ms it does not raise quality or fps, at or below 100 ms it
    does not lower them, and with adaptive off or a reported latency
    of 0 it changes neither.  Apart from quality and fps it only
    records the latency: the pause flag, the counters, the browser and
    the resolution are as before. *)
Theorem latency_report_direction
    (reported : Z) (s : StreamingService.StreamSettings) :
  let s' := StreamingService.onLatencyReport reported s in
  (reported > 100 ->
   StreamingService.quality s' <= StreamingService.quality s
   /\ StreamingService.fps s' <= StreamingService.fps s)
  /\ (reported <= 100 ->
      StreamingService.quality s <= StreamingService.quality s'
      /\ StreamingService.fps s <= StreamingService.fps s')
  /\ (StreamingService.adaptiveBitrate s = false \/ reported = 0 ->
      StreamingService.quality s' = StreamingService.quality s
      /\ StreamingService.fps s' = StreamingService.fps s)
  /\ StreamingService.latency s' = Some reported
  /\ StreamingService.active s' = StreamingService.active s
  /\ StreamingService.keyframeCount s' = StreamingService.keyframeCount s
  /\ StreamingService.frameCount s' = StreamingService.frameCount s
  /\ StreamingService.bytesSent s' = StreamingService.bytesSent s
  /\ StreamingService.browserId s' = StreamingService.browserId s
  /\ StreamingService.width s' = StreamingService.width s
  /\ StreamingService.height s' = StreamingService.height s.
Proof.
  cbv zeta.
  destruct (onLatencyReport_values reported s) as [Hq Hf].
  destruct (onLatencyReport_frame reported s)
    as (Hl & Hb & Hw & Hh & Ha & _ & _ & Hfc & Hbs & Hk & _).
  split; [|split; [|split]].
  - intros Hr. rewrite Hq, Hf.
    split_guards; guards_to_Z; split; lia.
  - intros Hr. rewrite Hq, Hf.
    split_guards; guards_to_Z; split; lia.
  - intros Hr. rewrite Hq, Hf. destruct Hr as [Hr | Hr].
    + rewrite Hr. split; reflexivity.
    + subst reported. rewrite andb_false_r. split; reflexivity.
  - repeat split; assumption.
Qed.

Lemma latency_report_direction_witness :
  StreamingService.quality
    (StreamingService.onLatencyReport 150 Scenarios.default_stream)
  <= StreamingService.quality Scenarios.default_stream.
Proof.
  destruct (latency_report_direction 150 Scenarios.default_stream) as (H & _).
  apply H. lia.
Defined.

Section RecoveryFacts.
Import StreamingService.

Lemma onLatencyReport_low reported s :
  adaptiveBitrate s = true ->
  reported <> 0 -> reported <= 100 ->
  quality (onLatencyReport reported s)
  = (if quality s <? 80 then Z.min 95 (quality s + 1) else quality s)
  /\ fps (onLatencyReport reported s)
     = (if fps s <? 30 then Z.min 30 (fps s + 1) else fps s)
  /\ adaptiveBitrate (onLatencyReport reported s) = true.
Proof.
  intros Ha Hn Hr. destruct (onLatencyReport_values reported s) as [Hq Hf].
  destruct (onLatencyReport_frame reported s) as (_ & _ & _ & _ & _ & Had & _).
  rewrite Hq, Hf, Had, Ha. cbn [andb].
  assert (E0 : (reported =? 0) = false) by (apply Z.eqb_neq; exact Hn).
  assert (E1 : (reported >? 200) = false) by (rewrite Z.gtb_ltb; apply Z.ltb_ge; lia).
  assert (E2 : (reported >? 100) = false) by (rewrite Z.gtb_ltb; apply Z.ltb_ge; lia).
  rewrite E0, E1, E2. cbn [negb]. repeat split.
Qed.

Lemma repeated_low_reports reported s n :
  adaptiveBitrate s = true ->
  reported <> 0 -> reported <= 100 ->
  let s' := Nat.iter n (onLatencyReport reported) s in
  quality s' = Z.max (quality s) (Z.min 80 (quality s + Z.of_nat n))
  /\ fps s' = Z.max (fps s) (Z.min 30 (fps s + Z.of_nat n))
  /\ adaptiveBitrate s' = true.
Proof.
  intros Ha Hn Hr. cbv zeta. induction n as [|n IH].
  - cbn [Nat.iter nat_rect]. split; [lia|]. split; [lia | exact Ha].
  - rewrite Nat.iter_succ. destruct IH as (IHq & IHf & IHa).
    destruct (onLatencyReport_low reported _ IHa Hn Hr) as (Eq & Ef & Ea).
    rewrite Eq, Ef, IHq, IHf. split; [|split; [|exact Ea]].
    + match goal with
      | |- context [?a <? ?b] => destruct (Z.ltb_spec a b)
      end; lia.
    + match goal with
      | |- context [?a <? ?b] => destruct (Z.ltb_spec a b)
      end; lia.
Qed.

End RecoveryFacts.

(** X13.  Recovery under good latency, for a stream whose quality and
    fps are whole numbers.  With adaptive on, each run of the
    [latency-report] listener on a latency that is not 0 and at most
    100 ms raises a quality below 80 by one and an fps below 30 by
    one; after [n] runs quality is [max q (min 80 (q + n))] and fps is
    [max f (min 30 (f + n))]: the stream climbs back to the defaults
    80 and 30, not beyond, and values already above them stay.  The
    count is of runs of the listener: a socket that carries the
    listener twice runs it twice for one report. *)
Theorem latency_recovery_stops_at_defaults
    (s : StreamingService.StreamSettings) (reported : Z) (n : nat) :
  StreamingService.adaptiveBitrate s = true ->
  reported <> 0 ->
  reported <= 100 ->
  let s' := Nat.iter n (StreamingService.onLatencyReport reported) s in
  StreamingService.quality s'
  = Z.max (StreamingService.quality s)
      (Z.min 80 (StreamingService.quality s + Z.of_nat n))
  /\ StreamingService.fps s'
     = Z.max (StreamingService.fps s)
         (Z.min 30 (StreamingService.fps s + Z.of_nat n)).
Proof.
  intros Ha Hn Hr. cbv zeta.
  destruct (repeated_low_reports reported s n Ha Hn Hr) as (Hq & Hf & _).
  split; assumption.
Qed.

Lemma latency_recovery_stops_at_defaults_witness :
  let worn := Nat.iter 10 (StreamingService.onLatencyReport 250)
                Scenarios.default_stream in
  StreamingService.quality
    (Nat.iter 60 (StreamingService.onLatencyReport 40) worn) = 80
  /\ StreamingService.fps
       (Nat.iter 60 (StreamingService.onLatencyReport 40) worn) = 30.
Proof.
  cbv zeta.
  destruct (latency_recovery_stops_at_defaults
              (Nat.iter 10 (StreamingService.onLatencyReport 250)
                 Scenarios.default_stream) 40 60) as [Hq Hf].
  - reflexivity.
  - lia.
  - lia.
  - rewrite Hq, Hf. split; reflexivity.
Defined.

Section SettingsMessageFacts.
Import StreamingService.








End SettingsMessageFacts.


Section ControlFacts.
Import StreamingService.
Variable compress : string -> string.
Variable SCREENSHOT_TYPE : option BrowserService.ImageFormat.

Lemma set_active_same s : set_active (active s) s = s.
Proof. destruct s; reflexivity. Qed.

Lemma write_object_same r s e : objects e !! r = Some s -> write_object r s e = e.
Proof.
  intros H. destruct e as [c o l li em]. unfold write_object. cbn in *.
  f_equal. apply list_insert_id. exact H.
Qed.

Lemma active_frame_begin t s : active (fst (frame_begin t s)) = active s.
Proof.
  unfold frame_begin, adaptQuality. cbn [fst].
  repeat match goal with
         | |- context [if ?b then _ else _] => destruct b
         end; reflexivity.
Qed.

Lemma iter_fixed {A} (f : A -> A) y n : f y = y -> Nat.iter n f y = y.
Proof.
  intros H. induction n as [|n IH]; [reflexivity|].
  rewrite Nat.iter_succ, IH. exact H.
Qed.

(** When the second listener has nothing left to do, so have the
    others. *)
Lemma iter_settles {A} (f : A -> A) x n :
  n <> O -> f (f x) = f x -> Nat.iter n f x = f x.
Proof.
  intros Hn H. destruct n as [|n]; [congruence|].
  rewrite Nat.iter_succ_r. apply iter_fixed. exact H.
Qed.

(** A [stream-control] listener that finds the flag as the message
    asks for it does nothing. *)
Lemma streamControlListener_same sock streaming t clk e pool r s :
  clientStreams e !! sock = Some r ->
  objects e !! r = Some s ->
  active s = streaming ->
  streamControlListener sock streaming t clk (e, pool) = (e, pool).
Proof.
  intros Hc Ho Ha. unfold streamControlListener. rewrite Hc, Ho. cbv zeta.
  subst streaming. rewrite set_active_same, (write_object_same _ _ _ Ho).
  destruct (active s); reflexivity.
Qed.

Lemma streamControlListener_pause sock t clk e pool r s :
  clientStreams e !! sock = Some r ->
  objects e !! r = Some s ->
  streamControlListener sock false t clk (e, pool)
  = (write_object r (set_active false s) e, pool).
Proof.
  intros Hc Ho. unfold streamControlListener. rewrite Hc, Ho. reflexivity.
Qed.

Lemma onStreamControlMsg_pause sock t clk e pool r s :
  clientStreams e !! sock = Some r ->
  objects e !! r = Some s ->
  listener_count sock e <> O ->
  onStreamControlMsg sock false t clk e pool
  = (write_object r (set_active false s) e, pool).
Proof.
  intros Hc Ho Hn. unfold onStreamControlMsg.
  rewrite (iter_settles _ _ _ Hn).
  - apply streamControlListener_pause; assumption.
  - rewrite (streamControlListener_pause _ _ _ _ _ _ _ Hc Ho).
    apply (streamControlListener_same _ _ _ _ _ _ r (set_active false s)).
    + exact Hc.
    + exact (lookup_write_object _ _ _ _ Ho).
    + reflexivity.
Qed.

Lemma streamControlListener_resume sock t clk e pool r s :
  clientStreams e !! sock = Some r ->
  objects e !! r = Some s ->
  active s = false ->
  streamControlListener sock true t clk (e, pool)
  = if t - lastFrameTime s >? 1000
    then startStreamLoop sock r clk (write_object r (set_active true s) e) pool
    else (write_object r (set_active true s) e, pool).
Proof.
  intros Hc Ho Ha. unfold streamControlListener. rewrite Hc, Ho. cbv zeta.
  rewrite Ha. reflexivity.
Qed.

(** [startStreamLoop] on an active settings object: one more loop,
    runnable, whether or not its browser is still in the pool; the
    settings object has gone through the first half of a frame. *)
Lemma startStreamLoop_result sock r clk e pool s :
  objects e !! r = Some s ->
  active s = true ->
  exists l pool',
    startStreamLoop sock r clk e pool
    = ({| clientStreams := clientStreams e;
          objects := <[r := fst (frame_begin (now clk) s)]> (objects e);
          loops := loops e ++ [l];
          listeners := listeners e;
          emitted := emitted e |}, pool')
    /\ loop_socket l = sock /\ loop_settings l = r /\ runnable l = true.
Proof.
  intros Ho Ha. unfold startStreamLoop, getNextFrame. cbn [loops objects].
  rewrite list_lookup_middle by reflexivity.
  cbn [loop_settings isStreaming]. rewrite Ho, Ha. cbn [negb orb].
  destruct (frame_begin (now clk) s) as [s1 kf]. cbn [fst].
  destruct (BrowserService.screenshot_enter (browserId s1) (now_shot clk) pool)
    as [pool'|]; eexists; eexists;
    (split;
     [ unfold write_loop, write_object;
       cbn [loops objects clientStreams listeners emitted];
       rewrite insert_app_r_alt by lia; rewrite Nat.sub_diag; reflexivity
     | repeat split ]).
Qed.

End ControlFacts.

(** X15.  Pausing stops the producer loop for good.  A [stream-control]
    message with [streaming] false reaching at least one listener only
    clears [active].  The next timer of a loop on that settings object
    then ends the loop: it takes no screenshot (the pool, and with it
    the browser's [lastActivity], is untouched), sends nothing and
    schedules nothing, so no later timer or screenshot event of that
    loop has any effect. *)
Theorem paused_loop_stops_for_good
    (compress : string -> string)
    (SCREENSHOT_TYPE : option BrowserService.ImageFormat)
    (sock : string) (i : nat) (e : StreamingService.Engine)
    (l : StreamingService.Loop) (s : StreamingService.StreamSettings)
    (t : Z) (clk clk' : StreamingService.Clock) (pool : BrowserService.Pool) :
  StreamingService.clientStreams e !! sock = Some (StreamingService.loop_settings l) ->
  StreamingService.objects e !! StreamingService.loop_settings l = Some s ->
  StreamingService.loops e !! i = Some l ->
  StreamingService.phase l = StreamingService.Timer ->
  StreamingService.listener_count sock e <> O ->
  let paused := StreamingService.onStreamControlMsg sock false t clk e pool in
  let ticked := StreamingService.onTimer i clk' (fst paused) (snd paused) in
  paused
  = (StreamingService.write_object (StreamingService.loop_settings l)
       (StreamingService.set_active false s) e, pool)
  /\ ticked
     = (StreamingService.write_loop i
          (StreamingService.set_phase StreamingService.Stopped l) (fst paused), pool)
  /\ (forall clk'' capture,
        StreamingService.onTimer i clk'' (fst ticked) pool = (fst ticked, pool)
        /\ StreamingService.onScreenshot compress SCREENSHOT_TYPE i capture (fst ticked)
           = fst ticked).
Proof.
  intros Hc Ho Hl Hp Hn. cbv zeta.
  rewrite (onStreamControlMsg_pause sock t clk e pool _ s Hc Ho Hn). cbn [fst snd].
  set (e1 := StreamingService.write_object (StreamingService.loop_settings l)
               (StreamingService.set_active false s) e).
  assert (Hl1 : StreamingService.loops e1 !! i = Some l) by exact Hl.
  assert (Ho1 : StreamingService.objects e1 !! StreamingService.loop_settings l
                = Some (StreamingService.set_active false s))
    by exact (lookup_write_object _ _ _ _ Ho).
  assert (Htick :
    StreamingService.onTimer i clk' e1 pool
    = (StreamingService.write_loop i
         (StreamingService.set_phase StreamingService.Stopped l) e1, pool)).
  { unfold StreamingService.onTimer, StreamingService.getNextFrame.
    rewrite Hl1, Hp. cbn [StreamingService.phase_is_timer]. rewrite Ho1.
    cbn [StreamingService.active StreamingService.set_active negb].
    rewrite orb_true_r. reflexivity. }
  split; [reflexivity|]. split; [exact Htick|].
  rewrite Htick. cbn [fst]. intros clk'' capture.
  pose proof (lookup_write_loop i
                (StreamingService.set_phase StreamingService.Stopped l) e1 l Hl1)
    as Hl2.
  unfold StreamingService.onTimer, StreamingService.onScreenshot.
  rewrite Hl2. split; reflexivity.
Qed.

Lemma paused_loop_stops_for_good_witness :
  let e := SocketService.engine Cases.streaming in
  let pool := SocketService.activeBrowsers Cases.streaming in
  let paused :=
    StreamingService.onStreamControlMsg "socket-1" false 1040
      (Scenarios.at_time 1040) e pool in
  StreamingService.onTimer 0 (Scenarios.at_time 1050) (fst paused) (snd paused)
  = (StreamingService.write_loop 0
       (StreamingService.set_phase StreamingService.Stopped Cases.streaming_loop)
       (fst paused), pool).
Proof.
  cbv zeta.
  apply (paused_loop_stops_for_good
           (@Compression.compressBase64 Compression.stored) None
           "socket-1" 0 (SocketService.engine Cases.streaming)
           Cases.streaming_loop Cases.streaming_object 1040
           (Scenarios.at_time 1040) (Scenarios.at_time 1050)
           (SocketService.activeBrowsers Cases.streaming)).
  - vm_compute. reflexivity.
  - vm_compute. reflexivity.
  - vm_compute. reflexivity.
  - reflexivity.
  - vm_compute. discriminate.
Defined.

(** X16.  Resuming restarts the producer only after a second of
    silence.  On a paused stream a [stream-control] message with
    [streaming] true sets [active]; when at most 1000 ms have passed
    since the last frame it starts no loop -- so a stream whose loop
    has already ended on the pause stays without a producer -- and
    when more than 1000 ms have passed it starts exactly one loop on
    the same settings object, however many listeners the socket has
    collected. *)
Theorem resume_restarts_only_after_a_second
    (sock : string) (e : StreamingService.Engine) (r : nat)
    (s : StreamingService.StreamSettings) (t : Z)
    (clk : StreamingService.Clock) (pool : BrowserService.Pool) :
  StreamingService.clientStreams e !! sock = Some r ->
  StreamingService.objects e !! r = Some s ->
  StreamingService.active s = false ->
  StreamingService.listener_count sock e <> O ->
  let resumed := StreamingService.onStreamControlMsg sock true t clk e pool in
  (t - StreamingService.lastFrameTime s <= 1000 ->
   resumed
   = (StreamingService.write_object r (StreamingService.set_active true s) e, pool))
  /\ (t - StreamingService.lastFrameTime s > 1000 ->
      exists l,
        StreamingService.loops (fst resumed) = StreamingService.loops e ++ [l]
        /\ StreamingService.loop_socket l = sock
        /\ StreamingService.loop_settings l = r
        /\ StreamingService.runnable l = true).
Proof.
  intros Hc Ho Ha Hn. cbv zeta. unfold StreamingService.onStreamControlMsg.
  pose proof (streamControlListener_resume sock t clk e pool r s Hc Ho Ha) as Hfirst.
  assert (Ho1 : StreamingService.objects
                  (StreamingService.write_object r
                     (StreamingService.set_active true s) e) !! r
                = Some (StreamingService.set_active true s))
    by exact (lookup_write_object _ _ _ _ Ho).
  split; intros Ht.
  - assert (E : (t - StreamingService.lastFrameTime s >? 1000) = false)
      by (rewrite Z.gtb_ltb; apply Z.ltb_ge; lia).
    rewrite E in Hfirst.
    rewrite (iter_settles _ _ _ Hn); [exact Hfirst|].
    rewrite Hfirst.
    apply (streamControlListener_same _ _ _ _ _ _ r
             (StreamingService.set_active true s)); [exact Hc | exact Ho1 | reflexivity].
  - assert (E : (t - StreamingService.lastFrameTime s >? 1000) = true)
      by (apply Z.gtb_lt; lia).
    rewrite E in Hfirst.
    destruct (startStreamLoop_result sock r clk
                (StreamingService.write_object r
                   (StreamingService.set_active true s) e) pool
                (StreamingService.set_active true s) Ho1 eq_refl)
      as (l & pool' & Hstart & Hsock & Hr & Hrun).
    rewrite Hstart in Hfirst.
    rewrite (iter_settles _ _ _ Hn).
    + rewrite Hfirst. cbn [fst StreamingService.loops StreamingService.write_object].
      exists l. repeat split; assumption.
    + rewrite Hfirst.
      apply (streamControlListener_same _ _ _ _ _ _ r
               (fst (StreamingService.frame_begin (StreamingService.now clk)
                       (StreamingService.set_active true s)))).
      * exact Hc.
      * cbn [StreamingService.objects StreamingService.write_object].
        apply list_lookup_insert_eq. rewrite length_insert.
        exact (lookup_lt_Some _ _ _ Ho).
      * rewrite active_frame_begin. reflexivity.
Qed.

Lemma resume_restarts_only_after_a_second_witness :
  let e := fst (StreamingService.onStreamControlMsg "socket-1" false 1040
                  (Scenarios.at_time 1040)
                  (SocketService.engine Cases.streaming)
                  (SocketService.activeBrowsers Cases.streaming)) in
  StreamingService.loops
    (fst (StreamingService.onStreamControlMsg "socket-1" true 1900
            (Scenarios.at_time 1900) e
            (SocketService.activeBrowsers Cases.streaming)))
  = StreamingService.loops e.
Proof.
  cbv zeta.
  destruct (resume_restarts_only_after_a_second "socket-1"
              (fst (StreamingService.onStreamControlMsg "socket-1" false 1040
                      (Scenarios.at_time 1040)
                      (SocketService.engine Cases.streaming)
                      (SocketService.activeBrowsers Cases.streaming)))
              0 (StreamingService.set_active false Cases.streaming_object) 1900
              (Scenarios.at_time 1900)
              (SocketService.activeBrowsers Cases.streaming)) as [Hquick _].
  - vm_compute. reflexivity.
  - vm_compute. reflexivity.
  - reflexivity.
  - vm_compute. discriminate.
  - rewrite Hquick; [reflexivity | vm_compute; discriminate].
Defined.

Section DisconnectFacts.
Import StreamingService.

Lemma loop_socket_cancel_for sock l : loop_socket (cancel_for sock l) = loop_socket l.
Proof. unfold cancel_for. destruct (String.eqb _ _); reflexivity. Qed.

Lemma runnable_cancel_for_same sock l :
  loop_socket l = sock -> runnable (cancel_for sock l) = false.
Proof.
  intros H. unfold cancel_for. rewrite H, String.eqb_refl. reflexivity.
Qed.

Lemma cancel_for_other sock l :
  loop_socket l <> sock -> cancel_for sock l = l.
Proof.
  intros H. unfold cancel_for.
  destruct (String.eqb_spec (loop_socket l) sock); [contradiction | reflexivity].
Qed.

Lemma lookup_map_cancel sock (ls : list Loop) i l :
  map (cancel_for sock) ls !! i = Some l ->
  exists l0, ls !! i = Some l0 /\ l = cancel_for sock l0.
Proof.
  revert i. induction ls as [|x ls IH]; intros [|i] H; cbn in H; try discriminate.
  - injection H as <-. exists x. split; reflexivity.
  - apply IH. exact H.
Qed.

Lemma runnable_loops_disconnected sock e :
  runnable_loops sock (disconnectListeners sock e) = [].
Proof.
  unfold runnable_loops, disconnectListeners. cbn [loops].
  change (fun l => if String.eqb (loop_socket l) sock then set_isStreaming false l else l)
    with (cancel_for sock).
  induction (loops e) as [|x ls IH]; [reflexivity|].
  cbn [map]. rewrite filter_cons, IH.
  destruct (decide _) as [H|_]; [|reflexivity].
  apply andb_prop in H. destruct H as [Hs Hr].
  rewrite loop_socket_cancel_for in Hs. apply String.eqb_eq in Hs.
  rewrite (runnable_cancel_for_same sock x Hs) in Hr. discriminate.
Qed.

Lemma runnable_loops_other sock sock' e :
  sock' <> sock ->
  runnable_loops sock' (disconnectListeners sock e) = runnable_loops sock' e.
Proof.
  intros Hne. unfold runnable_loops, disconnectListeners. cbn [loops].
  change (fun l => if String.eqb (loop_socket l) sock then set_isStreaming false l else l)
    with (cancel_for sock).
  induction (loops e) as [|x ls IH]; [reflexivity|].
  cbn [map]. rewrite !filter_cons, IH.
  destruct (String.eqb_spec (loop_socket x) sock) as [Hx|Hx].
  - assert (E : String.eqb (loop_socket x) sock' = false)
      by (apply String.eqb_neq; congruence).
    rewrite loop_socket_cancel_for, E. cbn [andb].
    destruct (decide (false = true)); [discriminate | reflexivity].
  - rewrite (cancel_for_other sock x Hx). reflexivity.
Qed.

(** The timer of a cancelled loop: no screenshot, nothing sent. *)
Lemma onTimer_cancelled i clk e pool l :
  loops e !! i = Some l ->
  isStreaming l = false ->
  snd (onTimer i clk e pool) = pool
  /\ emitted (fst (onTimer i clk e pool)) = emitted e
  /\ objects (fst (onTimer i clk e pool)) = objects e.
Proof.
  intros Hl Hs. unfold onTimer, getNextFrame. rewrite Hl.
  destruct (phase_is_timer (phase l)); [|repeat split].
  destruct (objects e !! loop_settings l); [|repeat split].
  rewrite Hs. cbn [negb orb]. repeat split.
Qed.

End DisconnectFacts.

(** X17.  A disconnect leaves nothing of the client behind: its entry
    in [socketBrowserMap], its stream settings entry and its listeners
    are gone, its browser is out of the pool whether or not closing it
    succeeded, none of its loops is runnable, and the next timer of
    any of its loops takes no screenshot and sends nothing.  Other
    sockets keep their browser mapping, their settings entry and their
    runnable loops; no settings object and no sent frame changes. *)
Theorem disconnect_leaves_nothing_behind
    (sock : string) (closed_ok : bool) (st : SocketService.State) :
  let st' := SocketService.onDisconnect sock closed_ok st in
  let e' := SocketService.engine st' in
  SocketService.socketBrowserMap st' !! sock = None
  /\ StreamingService.clientStreams e' !! sock = None
  /\ StreamingService.listener_count sock e' = O
  /\ StreamingService.runnable_loops sock e' = []
  /\ (forall b, SocketService.socketBrowserMap st !! sock = Some b ->
        BrowserService.get b (SocketService.activeBrowsers st') = None)
  /\ (forall i l clk pool,
        StreamingService.loops e' !! i = Some l ->
        StreamingService.loop_socket l = sock ->
        snd (StreamingService.onTimer i clk e' pool) = pool
        /\ StreamingService.emitted (fst (StreamingService.onTimer i clk e' pool))
           = StreamingService.emitted (SocketService.engine st))
  /\ (forall other, other <> sock ->
        SocketService.socketBrowserMap st' !! other
        = SocketService.socketBrowserMap st !! other
        /\ StreamingService.clientStreams e' !! other
           = StreamingService.clientStreams (SocketService.engine st) !! other
        /\ StreamingService.runnable_loops other e'
           = StreamingService.runnable_loops other (SocketService.engine st))
  /\ StreamingService.objects e' = StreamingService.objects (SocketService.engine st)
  /\ StreamingService.emitted e' = StreamingService.emitted (SocketService.engine st).
Proof.
  cbv zeta.
  assert (He : SocketService.engine (SocketService.onDisconnect sock closed_ok st)
               = StreamingService.disconnectListeners sock (SocketService.engine st)).
  { unfold SocketService.onDisconnect.
    destruct (SocketService.socketBrowserMap st !! sock); reflexivity. }
  rewrite He.
  split; [|split; [|split; [|split; [|split; [|split; [|split; [|split]]]]]]].
  - unfold SocketService.onDisconnect.
    destruct (SocketService.socketBrowserMap st !! sock) eqn:E;
      cbn [SocketService.socketBrowserMap]; [apply lookup_delete_eq | exact E].
  - cbn [StreamingService.disconnectListeners StreamingService.clientStreams].
    apply lookup_delete_eq.
  - unfold StreamingService.listener_count.
    cbn [StreamingService.disconnectListeners StreamingService.listeners].
    rewrite lookup_delete_eq. reflexivity.
  - apply runnable_loops_disconnected.
  - intros b Hb. unfold SocketService.onDisconnect. rewrite Hb.
    cbn [SocketService.activeBrowsers].
    rewrite closeBrowser_is_delete. apply get_delete_eq.
  - intros i l clk pool Hl Hsock.
    cbn [StreamingService.disconnectListeners StreamingService.loops] in Hl.
    destruct (lookup_map_cancel sock _ i l Hl) as (l0 & _ & ->).
    rewrite loop_socket_cancel_for in Hsock.
    assert (Hs : StreamingService.isStreaming (StreamingService.cancel_for sock l0) = false).
    { unfold StreamingService.cancel_for. rewrite Hsock, String.eqb_refl. reflexivity. }
    destruct (onTimer_cancelled i clk
                (StreamingService.disconnectListeners sock (SocketService.engine st))
                pool (StreamingService.cancel_for sock l0) Hl Hs) as (Hp & Hem & _).
    split; [exact Hp | exact Hem].
  - intros other Hne. split; [|split].
    + unfold SocketService.onDisconnect.
      destruct (SocketService.socketBrowserMap st !! sock);
        cbn [SocketService.socketBrowserMap]; [|reflexivity].
      apply lookup_delete_ne. congruence.
    + cbn [StreamingService.disconnectListeners StreamingService.clientStreams].
      apply lookup_delete_ne. congruence.
    + apply runnable_loops_other. exact Hne.
  - reflexivity.
  - reflexivity.
Qed.

Section OwnershipFacts.
Import StreamingService.
Variable compress : string -> string.
Variable SCREENSHOT_TYPE : option BrowserService.ImageFormat.

Lemma same_loops_refl ls : same_loops ls ls.
Proof. intros j x H. exists x. auto. Qed.

Lemma same_loops_trans ls1 ls2 ls3 :
  same_loops ls1 ls2 -> same_loops ls2 ls3 -> same_loops ls1 ls3.
Proof.
  intros H12 H23 j x H. destruct (H23 j x H) as (y & Hy & Hs & Hr).
  destruct (H12 j y Hy) as (z & Hz & Hs' & Hr'). exists z.
  split; [exact Hz|]. split; congruence.
Qed.

Lemma same_loops_insert ls i l l' :
  ls !! i = Some l ->
  loop_socket l' = loop_socket l -> loop_settings l' = loop_settings l ->
  same_loops ls (<[i := l']> ls).
Proof.
  intros Hi Hs Hr j x H.
  apply list_lookup_insert_Some in H as [(-> & <- & _) | (_ & H)]; eauto.
Qed.

Lemma owned_shape e e' :
  clientStreams e' = clientStreams e ->
  length (objects e') = length (objects e) ->
  same_loops (loops e) (loops e') ->
  owned e -> owned e'.
Proof.
  intros Hc Hlen Hl (H1 & H2 & H3). split; [|split].
  - intros sock r H. rewrite Hc in H. rewrite Hlen. eauto.
  - intros s1 s2 r. rewrite Hc. apply H2.
  - intros i l' Hi. destruct (Hl i l' Hi) as (l & Hli & Hs & Hr).
    destruct (H3 i l Hli) as [Hb Ho]. split.
    + rewrite Hr, Hlen. exact Hb.
    + intros sock Hsock. rewrite Hc, Hr in Hsock. rewrite Hs. auto.
Qed.

(** What one [getNextFrame] may change: the object of its loop, the
    phase of its loop. *)
Lemma getNextFrame_shape i clk e pool :
  let e' := fst (getNextFrame i clk e pool) in
  clientStreams e' = clientStreams e
  /\ emitted e' = emitted e
  /\ length (objects e') = length (objects e)
  /\ same_loops (loops e) (loops e')
  /\ (forall k, (forall l, loops e !! i = Some l -> loop_settings l <> k) ->
        objects e' !! k = objects e !! k).
Proof.
  cbv zeta. unfold getNextFrame.
  destruct (loops e !! i) as [l|] eqn:Hl;
    [|repeat split; auto using same_loops_refl].
  destruct (objects e !! loop_settings l) as [s|] eqn:Ho;
    [|repeat split; auto using same_loops_refl].
  destruct (negb (isStreaming l) || negb (active s)).
  - cbn [fst write_loop clientStreams emitted objects loops].
    repeat split; auto.
    apply (same_loops_insert _ _ l); auto.
  - destruct (frame_begin (now clk) s) as [s1 kf].
    destruct (BrowserService.screenshot_enter (browserId s1) (now_shot clk) pool)
      as [pool'|];
      cbn [fst write_loop write_object clientStreams emitted objects loops];
      (split; [reflexivity|]; split; [reflexivity|];
       split; [apply length_insert|];
       split; [apply (same_loops_insert _ _ l); auto|];
       intros k Hk; apply list_lookup_insert_ne; exact (Hk l eq_refl)).
Qed.

Lemma onTimer_shape i clk e pool :
  let e' := fst (onTimer i clk e pool) in
  clientStreams e' = clientStreams e
  /\ emitted e' = emitted e
  /\ length (objects e') = length (objects e)
  /\ same_loops (loops e) (loops e')
  /\ (forall k, (forall l, loops e !! i = Some l -> loop_settings l <> k) ->
        objects e' !! k = objects e !! k).
Proof.
  cbv zeta. unfold onTimer.
  destruct (loops e !! i) as [l|] eqn:Hl;
    [|repeat split; auto using same_loops_refl].
  destruct (phase_is_timer (phase l));
    [|repeat split; auto using same_loops_refl].
  pose proof (getNextFrame_shape i clk e pool) as H. cbv zeta in H.
  rewrite Hl in H. exact H.
Qed.

Lemma frames_of_emit_other B sock fs e :
  sock <> B -> frames_of B (emit sock fs e) = frames_of B e.
Proof.
  intros Hne. unfold frames_of, emit. cbn [emitted].
  rewrite filter_app.
  assert (E : filter (fun p : string * Frame => String.eqb (fst p) B = true)
                (map (pair sock) fs) = []).
  { induction fs as [|f fs IH]; [reflexivity|].
    cbn [map]. rewrite filter_cons, IH. cbn [fst].
    destruct (decide (String.eqb sock B = true)) as [H|_]; [|reflexivity].
    apply String.eqb_eq in H. contradiction. }
  rewrite E, app_nil_r. reflexivity.
Qed.

Lemma onScreenshot_shape i capture e :
  let e' := onScreenshot compress SCREENSHOT_TYPE i capture e in
  clientStreams e' = clientStreams e
  /\ length (objects e') = length (objects e)
  /\ same_loops (loops e) (loops e')
  /\ (forall k, (forall l, loops e !! i = Some l -> loop_settings l <> k) ->
        objects e' !! k = objects e !! k)
  /\ (forall B, (forall l, loops e !! i = Some l -> loop_socket l <> B) ->
        frames_of B e' = frames_of B e).
Proof.
  cbv zeta. unfold onScreenshot.
  destruct (loops e !! i) as [l|] eqn:Hl;
    [|repeat split; auto using same_loops_refl].
  destruct (phase l) as [|t kf options|];
    try solve [repeat split; auto using same_loops_refl].
  destruct (objects e !! loop_settings l) as [s|] eqn:Ho;
    [|repeat split; auto using same_loops_refl].
  cbv zeta. destruct (frame_end compress t kf _ s) as [s' frames].
  split; [reflexivity|]. split; [apply length_insert|].
  split; [apply (same_loops_insert _ _ l); auto|]. split.
  - intros k Hk. cbn [emit write_loop write_object objects].
    apply list_lookup_insert_ne. exact (Hk l eq_refl).
  - intros B HB. rewrite frames_of_emit_other by exact (HB l eq_refl).
    reflexivity.
Qed.

Lemma owned_loops e e' l :
  clientStreams e' = clientStreams e ->
  length (objects e') = length (objects e) ->
  same_loops (loops e ++ [l]) (loops e') ->
  (loop_settings l < length (objects e))%nat ->
  (forall sock, clientStreams e !! sock = Some (loop_settings l) ->
                sock = loop_socket l) ->
  owned e -> owned e'.
Proof.
  intros Hc Hlen Hl Hb Ho (H1 & H2 & H3). split; [|split].
  - intros sock r H. rewrite Hc in H. rewrite Hlen. eauto.
  - intros s1 s2 r. rewrite Hc. apply H2.
  - intros i x Hi. destruct (Hl i x Hi) as (y & Hy & Hs & Hr).
    rewrite Hlen, Hr, Hs.
    assert (Hy' : (loop_settings y < length (objects e))%nat
                  /\ forall sock, clientStreams e !! sock = Some (loop_settings y) ->
                                  sock = loop_socket y).
    { apply lookup_app_Some in Hy as [Hy | [_ Hy]].
      - exact (H3 i y Hy).
      - apply list_lookup_singleton_Some in Hy as [_ <-]. split; assumption. }
    destruct Hy' as [Hb' Ho']. split; [exact Hb'|].
    intros sock Hsock. rewrite Hc in Hsock. auto.
Qed.

Lemma startStreamLoop_shape sock r clk e pool :
  let e' := fst (startStreamLoop sock r clk e pool) in
  clientStreams e' = clientStreams e
  /\ emitted e' = emitted e
  /\ length (objects e') = length (objects e)
  /\ (exists l, loop_socket l = sock /\ loop_settings l = r
                /\ same_loops (loops e ++ [l]) (loops e'))
  /\ (forall k, r <> k -> objects e' !! k = objects e !! k).
Proof.
  cbv zeta. unfold startStreamLoop.
  match goal with
  | |- context [getNextFrame ?i clk ?e0 pool] =>
      pose proof (getNextFrame_shape i clk e0 pool) as H; cbv zeta in H;
      destruct H as (Hc & Hem & Hlen & Hl & Ho)
  end.
  cbn [clientStreams emitted objects loops] in Hc, Hem, Hlen, Hl, Ho.
  split; [exact Hc|]. split; [exact Hem|]. split; [exact Hlen|]. split.
  - eexists. split; [|split; [|exact Hl]]; reflexivity.
  - intros k Hk. apply Ho. intros l Hlk.
    rewrite list_lookup_middle in Hlk by reflexivity.
    injection Hlk as <-. exact Hk.
Qed.

Lemma owned_startStreamLoop sock r clk e pool :
  owned e -> clientStreams e !! sock = Some r ->
  owned (fst (startStreamLoop sock r clk e pool)).
Proof.
  intros Hown Hr.
  destruct (startStreamLoop_shape sock r clk e pool)
    as (Hc & _ & Hlen & (l & Hs & Hl & Hsame) & _).
  apply (owned_loops e _ l Hc Hlen Hsame); [| |exact Hown];
    destruct Hown as (H1 & H2 & _); rewrite Hl.
  - exact (H1 sock r Hr).
  - intros sock' H'. rewrite Hs. exact (H2 sock' sock r H' Hr).
Qed.

Lemma confined_refl sock e : confined sock e e.
Proof.
  split; [reflexivity|]. split; [reflexivity|]. split; [exact (fun H => H)|].
  intros; reflexivity.
Qed.

Lemma confined_trans sock e1 e2 e3 :
  confined sock e1 e2 -> confined sock e2 e3 -> confined sock e1 e3.
Proof.
  intros (Hc & Hem & Hown & Ho) (Hc' & Hem' & Hown' & Ho').
  split; [congruence|]. split; [congruence|]. split; [auto|].
  intros k Hk. rewrite Ho'; [apply Ho; exact Hk|].
  intros r Hr. rewrite Hc in Hr. auto.
Qed.

Lemma confined_write sock r s e :
  clientStreams e !! sock = Some r -> confined sock e (write_object r s e).
Proof.
  intros Hr. split; [reflexivity|]. split; [reflexivity|]. split.
  - apply owned_shape; [reflexivity | apply length_insert | apply same_loops_refl].
  - intros k Hk. cbn [write_object objects].
    apply list_lookup_insert_ne. exact (Hk r Hr).
Qed.

Lemma confined_settings sock m e : confined sock e (streamSettingsListener sock m e).
Proof.
  unfold streamSettingsListener.
  destruct (clientStreams e !! sock) as [r|] eqn:Hr; [|apply confined_refl].
  destruct (objects e !! r); [|apply confined_refl].
  apply confined_write. exact Hr.
Qed.

Lemma confined_latency sock reported e :
  confined sock e (latencyListener sock reported e).
Proof.
  unfold latencyListener.
  destruct (clientStreams e !! sock) as [r|] eqn:Hr; [|apply confined_refl].
  destruct (objects e !! r); [|apply confined_refl].
  apply confined_write. exact Hr.
Qed.

Lemma confined_control sock streaming t clk st :
  confined sock (fst st) (fst (streamControlListener sock streaming t clk st)).
Proof.
  destruct st as [e pool]. unfold streamControlListener. cbn [fst].
  destruct (clientStreams e !! sock) as [r|] eqn:Hr; [|apply confined_refl].
  destruct (objects e !! r) as [s|]; [|apply confined_refl].
  cbv zeta.
  pose proof (confined_write sock r (set_active streaming s) e Hr) as Hw.
  destruct (_ && _ && _); [|exact Hw].
  apply (confined_trans _ _ _ _ Hw).
  destruct (startStreamLoop_shape sock r clk
              (write_object r (set_active streaming s) e) pool)
    as (Hc & Hem & _ & _ & Ho).
  split; [exact Hc|]. split; [exact Hem|]. split.
  - intros Hown. apply owned_startStreamLoop; [exact Hown | exact Hr].
  - intros k Hk. apply Ho. apply Hk. exact Hr.
Qed.

Lemma confined_iter sock (f : Engine -> Engine) n e :
  (forall e0, confined sock e0 (f e0)) -> confined sock e (Nat.iter n f e).
Proof.
  intros Hf. induction n as [|n IH]; [apply confined_refl|].
  rewrite Nat.iter_succ. exact (confined_trans _ _ _ _ IH (Hf _)).
Qed.

Lemma confined_iter_pair sock {P} (f : Engine * P -> Engine * P) n st :
  (forall st0, confined sock (fst st0) (fst (f st0))) ->
  confined sock (fst st) (fst (Nat.iter n f st)).
Proof.
  intros Hf. induction n as [|n IH]; [apply confined_refl|].
  rewrite Nat.iter_succ. exact (confined_trans _ _ _ _ IH (Hf _)).
Qed.

Lemma owned_initializeStream sock device session browser init resolution t clk e pool :
  owned e ->
  owned (fst (initializeStream sock device session browser init resolution t clk e pool)).
Proof.
  intros Hown. unfold initializeStream. cbv zeta.
  match goal with
  | |- context [startStreamLoop sock ?r clk ?e1 pool] =>
      assert (Hown1 : owned e1);
      [| pose proof (owned_startStreamLoop sock r clk e1 pool Hown1) as H;
         destruct (startStreamLoop sock r clk e1 pool) as [e2 pool'] ]
  end.
  - destruct Hown as (H1 & H2 & H3). split; [|split];
      cbn [clientStreams objects loops]; rewrite ?length_app; cbn [length].
    + intros s r Hs. destruct (decide (s = sock)) as [->|Hne].
      * rewrite lookup_insert_eq in Hs. injection Hs as <-. lia.
      * rewrite lookup_insert_ne in Hs by congruence. pose proof (H1 s r Hs). lia.
    + intros s1 s2 r Hs1 Hs2.
      destruct (decide (s1 = sock)) as [->|Hne1];
        destruct (decide (s2 = sock)) as [->|Hne2]; [reflexivity | | |].
      * rewrite lookup_insert_eq in Hs1. injection Hs1 as <-.
        rewrite lookup_insert_ne in Hs2 by congruence.
        pose proof (H1 s2 _ Hs2). lia.
      * rewrite lookup_insert_eq in Hs2. injection Hs2 as <-.
        rewrite lookup_insert_ne in Hs1 by congruence.
        pose proof (H1 s1 _ Hs1). lia.
      * rewrite lookup_insert_ne in Hs1 by congruence.
        rewrite lookup_insert_ne in Hs2 by congruence. eauto.
    + intros i l Hl. destruct (H3 i l Hl) as [Hb Ho]. split; [lia|].
      intros s Hs. destruct (decide (s = sock)) as [->|Hne].
      * rewrite lookup_insert_eq in Hs. injection Hs as Hs. lia.
      * rewrite lookup_insert_ne in Hs by congruence. auto.
  - cbn [fst] in *.
    assert (Hr : clientStreams
                   {| clientStreams := <[sock := length (objects e)]> (clientStreams e);
                      objects := objects e ++
                        [initialSettingsObject browser init device session resolution t];
                      loops := loops e; listeners := listeners e;
                      emitted := emitted e |} !! sock
                 = Some (length (objects e)))
      by (cbn [clientStreams]; apply lookup_insert_eq).
    specialize (H Hr).
    revert H. apply owned_shape; [reflexivity | reflexivity | apply same_loops_refl].
Qed.

Lemma owned_disconnectListeners sock e : owned e -> owned (disconnectListeners sock e).
Proof.
  intros (H1 & H2 & H3). unfold disconnectListeners.
  split; [|split]; cbn [clientStreams objects loops].
  - intros s r Hs. apply lookup_delete_Some in Hs as [_ Hs]. eauto.
  - intros s1 s2 r Hs1 Hs2.
    apply lookup_delete_Some in Hs1 as [_ Hs1].
    apply lookup_delete_Some in Hs2 as [_ Hs2]. eauto.
  - intros i l Hl.
    destruct (lookup_map_cancel sock _ i l Hl) as (l0 & Hl0 & ->).
    rewrite loop_socket_cancel_for.
    assert (E : loop_settings (cancel_for sock l0) = loop_settings l0)
      by (unfold cancel_for; destruct (String.eqb _ _); reflexivity).
    rewrite E. destruct (H3 i l0 Hl0) as [Hb Ho]. split; [exact Hb|].
    intros s Hs. apply lookup_delete_Some in Hs as [_ Hs]. auto.
Qed.

End OwnershipFacts.

Section IsolationFacts.
Import StreamingService SocketService.
Variable MAX_BROWSERS : Z.
Variable compress : string -> string.
Variable SCREENSHOT_TYPE : option BrowserService.ImageFormat.

Lemma owned_empty : owned empty_engine.
Proof.
  split; [|split]; cbn [empty_engine clientStreams loops].
  - intros sock r H. rewrite lookup_empty in H. discriminate.
  - intros s1 s2 r H. rewrite lookup_empty in H. discriminate.
  - intros i l H. rewrite lookup_nil in H. discriminate.
Qed.

Lemma owned_step st ev :
  owned (engine st) -> owned (engine (step MAX_BROWSERS compress SCREENSHOT_TYPE st ev)).
Proof.
  intros Hown. destruct ev as [sock data env resolution t clk | sock m
                              | sock streaming t clk | sock reported
                              | sock closed_ok | i clk | i capture];
    cbn [step].
  - unfold onInit.
    destruct (socketBrowserMap st !! socket_id sock) as [b|].
    + pose proof (owned_initializeStream (socket_id sock) (socket_device sock)
                    (socket_session sock) b (stream_init sock data) resolution t clk
                    (engine st) (activeBrowsers st) Hown) as H.
      destruct (initializeStream _ _ _ _ _ _ _ _ _ _) as [e pool']. exact H.
    + destruct (BrowserService.createBrowser _ _ _ _ _ _) as [[b|] pool];
        [|exact Hown].
      pose proof (owned_initializeStream (socket_id sock) (socket_device sock)
                    (socket_session sock) b (stream_init sock data) resolution t clk
                    (engine st) pool Hown) as H.
      destruct (initializeStream _ _ _ _ _ _ _ _ _ _) as [e pool']. exact H.
  - cbn [engine]. unfold onStreamSettingsMsg.
    destruct (confined_iter sock (streamSettingsListener sock m)
                (listener_count sock (engine st)) (engine st)
                (confined_settings sock m)) as (_ & _ & H & _).
    exact (H Hown).
  - destruct (confined_iter_pair sock (streamControlListener sock streaming t clk)
                (listener_count sock (engine st)) (engine st, activeBrowsers st)
                (confined_control sock streaming t clk)) as (_ & _ & H & _).
    unfold onStreamControlMsg.
    destruct (Nat.iter _ _ _) as [e pool]. exact (H Hown).
  - cbn [engine]. unfold onLatencyMsg.
    destruct (confined_iter sock (latencyListener sock reported)
                (listener_count sock (engine st)) (engine st)
                (confined_latency sock reported)) as (_ & _ & H & _).
    exact (H Hown).
  - unfold onDisconnect.
    destruct (socketBrowserMap st !! sock); cbn [engine];
      apply owned_disconnectListeners; exact Hown.
  - destruct (onTimer_shape i clk (engine st) (activeBrowsers st))
      as (Hc & _ & Hlen & Hl & _).
    destruct (onTimer i clk (engine st) (activeBrowsers st)) as [e pool].
    cbn [fst engine] in *. exact (owned_shape _ _ Hc Hlen Hl Hown).
  - cbn [engine].
    destruct (onScreenshot_shape compress SCREENSHOT_TYPE i capture (engine st))
      as (Hc & Hlen & Hl & _).
    exact (owned_shape _ _ Hc Hlen Hl Hown).
Qed.

Lemma owned_run evs : forall st,
  owned (engine st) ->
  owned (engine (run MAX_BROWSERS compress SCREENSHOT_TYPE evs st)).
Proof.
  induction evs as [|ev evs IH]; intros st Hown; [exact Hown|].
  cbn [run fold_left]. apply IH. apply owned_step. exact Hown.
Qed.

Lemma frames_of_same B e e' : emitted e' = emitted e -> frames_of B e' = frames_of B e.
Proof. intros H. unfold frames_of. rewrite H. reflexivity. Qed.

Lemma confined_other sock B rB e e' :
  owned e -> sock <> B -> clientStreams e !! B = Some rB ->
  confined sock e e' ->
  clientStreams e' !! B = Some rB
  /\ objects e' !! rB = objects e !! rB
  /\ frames_of B e' = frames_of B e.
Proof.
  intros (_ & H2 & _) Hne HB (Hc & Hem & _ & Ho).
  split; [rewrite Hc; exact HB|]. split; [|exact (frames_of_same B _ _ Hem)].
  apply Ho. intros r Hr ->. apply Hne. exact (H2 sock B rB Hr HB).
Qed.

Lemma initializeStream_other sock device session browser init resolution t clk e pool
    B rB :
  owned e -> sock <> B -> clientStreams e !! B = Some rB ->
  let e' := fst (initializeStream sock device session browser init resolution t clk
                   e pool) in
  clientStreams e' !! B = Some rB
  /\ objects e' !! rB = objects e !! rB
  /\ frames_of B e' = frames_of B e.
Proof.
  intros (H1 & _ & _) Hne HB. cbv zeta. unfold initializeStream. cbv zeta.
  match goal with
  | |- context [startStreamLoop sock ?r clk ?e1 pool] =>
      destruct (startStreamLoop_shape sock r clk e1 pool)
        as (Hc & Hem & _ & _ & Ho);
      destruct (startStreamLoop sock r clk e1 pool) as [e2 pool']
  end.
  cbn [fst clientStreams objects emitted] in *.
  pose proof (H1 B rB HB) as Hlt.
  split; [|split].
  - rewrite Hc. rewrite lookup_insert_ne by congruence. exact HB.
  - rewrite Ho by lia. apply lookup_app_l. exact Hlt.
  - apply frames_of_same. exact Hem.
Qed.

Lemma step_isolated st ev B rB :
  owned (engine st) ->
  event_socket st ev <> Some B ->
  clientStreams (engine st) !! B = Some rB ->
  let st' := step MAX_BROWSERS compress SCREENSHOT_TYPE st ev in
  clientStreams (engine st') !! B = Some rB
  /\ objects (engine st') !! rB = objects (engine st) !! rB
  /\ frames_of B (engine st') = frames_of B (engine st)
  /\ socketBrowserMap st' !! B = socketBrowserMap st !! B.
Proof.
  intros Hown Hev HB. cbv zeta.
  destruct ev as [sock data env resolution t clk | sock m
                 | sock streaming t clk | sock reported
                 | sock closed_ok | i clk | i capture];
    cbn [step event_socket] in *.
  - assert (Hne : socket_id sock <> B) by congruence.
    unfold onInit.
    destruct (socketBrowserMap st !! socket_id sock) as [b|].
    + destruct (initializeStream_other (socket_id sock) (socket_device sock)
                  (socket_session sock) b (stream_init sock data) resolution t clk
                  (engine st) (activeBrowsers st) B rB Hown Hne HB) as (Hc & Ho & Hf).
      destruct (initializeStream _ _ _ _ _ _ _ _ _ _) as [e pool'].
      cbn [fst engine socketBrowserMap] in *. auto.
    + destruct (BrowserService.createBrowser _ _ _ _ _ _) as [[b|] pool];
        [|cbn [engine socketBrowserMap]; auto].
      destruct (initializeStream_other (socket_id sock) (socket_device sock)
                  (socket_session sock) b (stream_init sock data) resolution t clk
                  (engine st) pool B rB Hown Hne HB) as (Hc & Ho & Hf).
      destruct (initializeStream _ _ _ _ _ _ _ _ _ _) as [e pool'].
      cbn [fst engine socketBrowserMap] in *.
      repeat split; auto. apply lookup_insert_ne. exact Hne.
  - assert (Hne : sock <> B) by congruence. cbn [engine socketBrowserMap].
    destruct (confined_other sock B rB (engine st) _ Hown Hne HB
                (confined_iter sock (streamSettingsListener sock m)
                   (listener_count sock (engine st)) (engine st)
                   (confined_settings sock m))) as (Hc & Ho & Hf).
    unfold onStreamSettingsMsg. auto.
  - assert (Hne : sock <> B) by congruence.
    pose proof (confined_other sock B rB (engine st) _ Hown Hne HB
                  (confined_iter_pair sock (streamControlListener sock streaming t clk)
                     (listener_count sock (engine st)) (engine st, activeBrowsers st)
                     (confined_control sock streaming t clk))) as H.
    unfold onStreamControlMsg.
    destruct (Nat.iter _ _ _) as [e pool]. cbn [fst engine socketBrowserMap] in *.
    destruct H as (Hc & Ho & Hf). auto.
  - assert (Hne : sock <> B) by congruence. cbn [engine socketBrowserMap].
    destruct (confined_other sock B rB (engine st) _ Hown Hne HB
                (confined_iter sock (latencyListener sock reported)
                   (listener_count sock (engine st)) (engine st)
                   (confined_latency sock reported))) as (Hc & Ho & Hf).
    unfold onLatencyMsg. auto.
  - assert (Hne : sock <> B) by congruence.
    assert (He : engine (onDisconnect sock closed_ok st)
                 = disconnectListeners sock (engine st)).
    { unfold onDisconnect. destruct (socketBrowserMap st !! sock); reflexivity. }
    rewrite He. cbn [disconnectListeners clientStreams objects].
    split; [rewrite lookup_delete_ne by congruence; exact HB|].
    split; [reflexivity|]. split; [reflexivity|].
    unfold onDisconnect. destruct (socketBrowserMap st !! sock);
      cbn [socketBrowserMap]; [|reflexivity].
    apply lookup_delete_ne. congruence.
  - destruct (onTimer_shape i clk (engine st) (activeBrowsers st))
      as (Hc & Hem & _ & _ & Ho).
    assert (Hr : forall l, loops (engine st) !! i = Some l -> loop_settings l <> rB).
    { intros l Hl Heq. apply Hev. rewrite Hl. cbn [option_map]. f_equal.
      destruct Hown as (_ & _ & H3). destruct (H3 i l Hl) as [_ H].
      symmetry. apply H. rewrite Heq. exact HB. }
    specialize (Ho rB Hr).
    destruct (onTimer i clk (engine st) (activeBrowsers st)) as [e pool].
    cbn [fst engine socketBrowserMap] in *.
    split; [rewrite Hc; exact HB|]. split; [exact Ho|].
    split; [exact (frames_of_same B _ _ Hem) | reflexivity].
  - cbn [engine socketBrowserMap].
    destruct (onScreenshot_shape compress SCREENSHOT_TYPE i capture (engine st))
      as (Hc & _ & _ & Ho & Hf).
    assert (Hs : forall l, loops (engine st) !! i = Some l -> loop_socket l <> B).
    { intros l Hl Heq. apply Hev. rewrite Hl. cbn [option_map]. congruence. }
    assert (Hr : forall l, loops (engine st) !! i = Some l -> loop_settings l <> rB).
    { intros l Hl Heq. apply (Hs l Hl).
      destruct Hown as (_ & _ & H3). destruct (H3 i l Hl) as [_ H].
      symmetry. apply H. rewrite Heq. exact HB. }
    split; [rewrite Hc; exact HB|]. split; [exact (Ho rB Hr)|].
    split; [exact (Hf B Hs) | reflexivity].
Qed.

End IsolationFacts.

(** X18.  In every state the server can reach, an event of one client
    -- an [init], [stream-settings], [stream-control],
    [latency-report] or [disconnect] it sends, the timer or the
    screenshot of one of its loops -- leaves the stream of every other
    client as it is: the other socket keeps its settings entry, the
    settings object behind it is unchanged field by field, no frame is
    sent to it, and it keeps its browser mapping.  (The pool is not
    part of this: an [init] at capacity may close another client's
    browser.) *)
Theorem other_clients_stream_is_untouched
    (MAX_BROWSERS : Z) (compress : string -> string)
    (SCREENSHOT_TYPE : option BrowserService.ImageFormat)
    (evs : list SocketService.Event) (ev : SocketService.Event)
    (B : string) (rB : nat) :
  let st := SocketService.run MAX_BROWSERS compress SCREENSHOT_TYPE evs
              SocketService.initial in
  let st' := SocketService.step MAX_BROWSERS compress SCREENSHOT_TYPE st ev in
  SocketService.event_socket st ev <> Some B ->
  StreamingService.clientStreams (SocketService.engine st) !! B = Some rB ->
  StreamingService.clientStreams (SocketService.engine st') !! B = Some rB
  /\ StreamingService.objects (SocketService.engine st') !! rB
     = StreamingService.objects (SocketService.engine st) !! rB
  /\ StreamingService.frames_of B (SocketService.engine st')
     = StreamingService.frames_of B (SocketService.engine st)
  /\ SocketService.socketBrowserMap st' !! B = SocketService.socketBrowserMap st !! B.
Proof.
  cbv zeta. intros Hev HB.
  apply step_isolated; [|exact Hev | exact HB].
  apply owned_run. exact owned_empty.
Qed.

Lemma other_clients_stream_is_untouched_witness :
  let st := Scenarios.server Cases.two_clients SocketService.initial in
  let st' := Scenarios.server
               [SocketService.StreamSettingsMsg "socket-1" Scenarios.quality_50] st in
  StreamingService.objects (SocketService.engine st') !! 1%nat
  = StreamingService.objects (SocketService.engine st) !! 1%nat.
Proof.
  cbv zeta.
  destruct (other_clients_stream_is_untouched BrowserService.DEFAULT_MAX_BROWSERS
              (@Compression.compressBase64 Compression.stored) None
              Cases.two_clients
              (SocketService.StreamSettingsMsg "socket-1" Scenarios.quality_50)
              "socket-2" 1%nat) as (_ & H & _).
  - vm_compute. congruence.
  - vm_compute. reflexivity.
  - exact H.
Defined.

Section FramePipelineFacts.
Import Base64 Compression StreamingService.
Context (pako : Pako).
Hypothesis lossless : @pako_lossless pako.



End FramePipelineFacts.



Section RouterRequestFacts.
Import SocketService.

Lemma with_pool_same st : with_pool (activeBrowsers st) st = st.
Proof. destruct st; reflexivity. Qed.

Lemma browser_of_mapped sock st b :
  browser_of sock st = Some b -> socketBrowserMap st !! sock = Some b.
Proof.
  unfold browser_of. destruct (socketBrowserMap st !! sock) as [b'|]; [|discriminate].
  destruct (String.eqb b' ""); [discriminate|]. intros [= ->]. reflexivity.
Qed.

(** What the three pool functions behind the requests have in
    common. *)
Lemma navigateTo_pool b u now loaded (m : BrowserService.Pool) :
  map fst (snd (BrowserService.navigateTo b u now loaded m)) = map fst m
  /\ (forall k, k <> b ->
        BrowserService.get k (snd (BrowserService.navigateTo b u now loaded m))
        = BrowserService.get k m)
  /\ (BrowserService.get b m = None ->
      BrowserService.navigateTo b u now loaded m = (false, m)).
Proof.
  unfold BrowserService.navigateTo.
  destruct (BrowserService.get b m) as [inst|] eqn:E;
    [|split; [reflexivity|]; split; [reflexivity | reflexivity]].
  destruct loaded; cbn [snd];
    (split; [exact (keys_set_present _ _ _ _ E)|]);
    (split; [intros k Hk; apply get_set_ne; congruence | discriminate]).
Qed.

Lemma executeAction_pool b action now done (m : BrowserService.Pool) :
  map fst (snd (BrowserService.executeAction b action now done m)) = map fst m
  /\ (forall k, k <> b ->
        BrowserService.get k (snd (BrowserService.executeAction b action now done m))
        = BrowserService.get k m)
  /\ (BrowserService.get b m = None ->
      BrowserService.executeAction b action now done m = (false, m)).
Proof.
  unfold BrowserService.executeAction.
  destruct (BrowserService.get b m) as [inst|] eqn:E;
    [|split; [reflexivity|]; split; [reflexivity | reflexivity]].
  destruct (BrowserService.known_action action); cbn [snd];
    (split; [exact (keys_set_present _ _ _ _ E)|]);
    (split; [intros k Hk; apply get_set_ne; congruence | discriminate]).
Qed.

Lemma resizeViewport_pool b w h resized (m : BrowserService.Pool) :
  map fst (snd (BrowserService.resizeViewport b w h resized m)) = map fst m
  /\ (forall k, k <> b ->
        BrowserService.get k (snd (BrowserService.resizeViewport b w h resized m))
        = BrowserService.get k m)
  /\ (BrowserService.get b m = None ->
      BrowserService.resizeViewport b w h resized m = (false, m)).
Proof.
  unfold BrowserService.resizeViewport.
  destruct (BrowserService.get b m) as [inst|] eqn:E;
    [|split; [reflexivity|]; split; [reflexivity | reflexivity]].
  destruct resized; cbn [snd].
  - split; [exact (keys_set_present _ _ _ _ E)|].
    split; [intros k Hk; apply get_set_ne; congruence | discriminate].
  - split; [reflexivity|]. split; [reflexivity | discriminate].
Qed.

End RouterRequestFacts.

(** X20.  A [navigate], [action] or [resize] request works on the
    sender's own browser and on nothing else.  It leaves the streaming
    engine and [socketBrowserMap] alone, neither adds nor removes a
    pool entry nor changes the order of the pool (so the eviction
    order among equally old browsers stays), and leaves every
    instance other than the one mapped to the socket as it was.  A
    socket without a mapped browser gets the "No browser instance
    found" answer; a socket whose mapped browser has left the pool
    gets an answer without error text and without URL; in both cases
    the state is exactly as before. *)
Theorem request_touches_only_own_browser
    (sock : string) (q : SocketService.Request) (st : SocketService.State) :
  let r := SocketService.handle sock q st in
  SocketService.engine (snd r) = SocketService.engine st
  /\ SocketService.socketBrowserMap (snd r) = SocketService.socketBrowserMap st
  /\ BrowserService.getActiveBrowserIds (SocketService.activeBrowsers (snd r))
     = BrowserService.getActiveBrowserIds (SocketService.activeBrowsers st)
  /\ (forall k, SocketService.socketBrowserMap st !! sock <> Some k ->
        BrowserService.get k (SocketService.activeBrowsers (snd r))
        = BrowserService.get k (SocketService.activeBrowsers st))
  /\ match SocketService.browser_of sock st with
     | None => r = (SocketService.no_browser, st)
     | Some b =>
         SocketService.ack_error (fst r) = None
         /\ (BrowserService.get b (SocketService.activeBrowsers st) = None ->
             snd r = st /\ SocketService.ack_url (fst r) = None)
     end.
Proof.
  cbv zeta. unfold BrowserService.getActiveBrowserIds.
  destruct (SocketService.browser_of sock st) as [b|] eqn:Hb.
  - pose proof (browser_of_mapped sock st b Hb) as Hmap.
    assert (Hother : forall k, SocketService.socketBrowserMap st !! sock <> Some k ->
                               k <> b) by (intros k Hk ->; exact (Hk Hmap)).
    destruct q as [u now loaded page_url | action now done page_url | w h resized];
      cbn [SocketService.handle].
    + unfold SocketService.onNavigate. rewrite Hb.
      destruct (navigateTo_pool b u now loaded (SocketService.activeBrowsers st))
        as (Hk & Hg & Hnone).
      destruct (BrowserService.navigateTo b u now loaded
                  (SocketService.activeBrowsers st)) as [success pool].
      cbn [fst snd SocketService.with_pool SocketService.engine
           SocketService.socketBrowserMap SocketService.activeBrowsers
           SocketService.ack_error SocketService.ack_url] in *.
      repeat split; auto.
      * injection (Hnone H) as _ ->. apply with_pool_same.
      * injection (Hnone H) as _ ->. unfold BrowserService.getCurrentUrl.
        rewrite H. reflexivity.
    + unfold SocketService.onAction. rewrite Hb.
      destruct (String.eqb action "getCurrentUrl").
      * cbn [fst snd SocketService.ack_error SocketService.ack_url].
        repeat split; auto.
        unfold BrowserService.getCurrentUrl. rewrite H. reflexivity.
      * destruct (executeAction_pool b action now done
                    (SocketService.activeBrowsers st)) as (Hk & Hg & Hnone).
        destruct (BrowserService.executeAction b action now done
                    (SocketService.activeBrowsers st)) as [success pool].
        cbn [fst snd SocketService.with_pool SocketService.engine
             SocketService.socketBrowserMap SocketService.activeBrowsers
             SocketService.ack_error SocketService.ack_url] in *.
        repeat split; auto.
        injection (Hnone H) as _ ->. apply with_pool_same.
    + unfold SocketService.onResize. rewrite Hb.
      destruct (resizeViewport_pool b w h resized (SocketService.activeBrowsers st))
        as (Hk & Hg & Hnone).
      destruct (BrowserService.resizeViewport b w h resized
                  (SocketService.activeBrowsers st)) as [success pool].
      cbn [fst snd SocketService.with_pool SocketService.engine
           SocketService.socketBrowserMap SocketService.activeBrowsers
           SocketService.ack_error SocketService.ack_url] in *.
      repeat split; auto.
      injection (Hnone H) as _ ->. apply with_pool_same.
  - assert (E : SocketService.handle sock q st = (SocketService.no_browser, st)).
    { destruct q; cbn [SocketService.handle];
        unfold SocketService.onNavigate, SocketService.onAction,
          SocketService.onResize; rewrite Hb; reflexivity. }
    rewrite E. cbn [fst snd]. repeat split.
Qed.

(** X21.  Asking for the current URL is not activity.  The
    [getCurrentUrl] action of the router leaves the whole state as it
    is -- the browser's [lastActivity] included, so a client that only
    polls the URL does not keep its browser from the idle sweep -- and
    answers with success even when the browser has left the pool, in
    which case the URL is missing.  Every other action name, known or
    not, marks a pooled browser as used at the time of the request. *)
Theorem url_poll_is_not_activity
    (sock : string) (now : Z) (done : bool) (page_url : option string)
    (st : SocketService.State) :
  let r := SocketService.onAction sock "getCurrentUrl" now done page_url st in
  snd r = st
  /\ (forall b, SocketService.browser_of sock st = Some b ->
        SocketService.ack_success (fst r) = true
        /\ SocketService.ack_url (fst r)
           = match BrowserService.get b (SocketService.activeBrowsers st) with
             | Some _ => page_url
             | None => None
             end)
  /\ (forall action b instance,
        action <> "getCurrentUrl"%string ->
        SocketService.browser_of sock st = Some b ->
        BrowserService.get b (SocketService.activeBrowsers st) = Some instance ->
        BrowserService.get b
          (SocketService.activeBrowsers
             (snd (SocketService.onAction sock action now done page_url st)))
        = Some (BrowserService.touch now instance)).
Proof.
  cbv zeta. unfold SocketService.onAction.
  split; [|split].
  - destruct (SocketService.browser_of sock st); reflexivity.
  - intros b Hb. rewrite Hb. cbn [String.eqb Ascii.eqb Bool.eqb fst
                                   SocketService.ack_success SocketService.ack_url].
    split; reflexivity.
  - intros action b instance Hne Hb Hg. rewrite Hb.
    destruct (String.eqb_spec action "getCurrentUrl") as [->|_]; [congruence|].
    unfold BrowserService.executeAction. rewrite Hg.
    destruct (BrowserService.known_action action);
      cbn [snd SocketService.with_pool SocketService.activeBrowsers];
      apply get_set_eq.
Qed.

(** X22.  The base64 pair normalises.  With a lossless compression
    library, [decompressBase64 (compressBase64 x)] is defined for
    every string [x] and is the canonical base64 text of the bytes
    that Node reads from the payload of [x]; it gives the input back
    when the input is the base64 text of some bytes, and feeding the
    result through the pair again changes nothing.  A data-URL prefix
    in front of a non-empty payload makes no difference to the
    compressed text. *)
Theorem base64_pair_normalises
    (pako : Compression.Pako) (x mimeType : string) :
  @Compression.pako_lossless pako ->
  let once :=
    @Compression.decompressBase64 pako (@Compression.compressBase64 pako x)
      false mimeType in
  once = Some (Base64.encode (Base64.decode (Compression.base64WithoutPrefix x)))
  /\ (forall r, once = Some r ->
        @Compression.decompressBase64 pako (@Compression.compressBase64 pako r)
          false mimeType = Some r)
  /\ (forall bs, x = Base64.encode bs -> once = Some x)
  /\ (forall p bs,
        Compression.occurs ","%char p = false -> bs <> [] ->
        x = (p ++ String ","%char (Base64.encode bs))%string ->
        @Compression.compressBase64 pako x
        = @Compression.compressBase64 pako (Base64.encode bs)).
Proof.
  intros Hl. cbv zeta.
  rewrite (decompressBase64_compressBase64 pako Hl).
  split; [reflexivity|]. split; [|split].
  - intros r [= <-].
    rewrite (decompressBase64_compressBase64 pako Hl).
    rewrite base64WithoutPrefix_plain, decode_encode. reflexivity.
  - intros bs ->. rewrite base64WithoutPrefix_plain, decode_encode. reflexivity.
  - intros p bs Hp Hbs ->. unfold Compression.compressBase64.
    rewrite (base64WithoutPrefix_prefixed _ _ Hp Hbs), base64WithoutPrefix_plain.
    reflexivity.
Qed.

Lemma base64_pair_normalises_witness :
  @Compression.decompressBase64 Compression.stored
    (@Compression.compressBase64 Compression.stored "data:image/png;base64,QUJD")
    false "image/png"
  = Some "QUJD"%string.
Proof.
  destruct (base64_pair_normalises Compression.stored "data:image/png;base64,QUJD"
              "image/png") as (H & _).
  - intros level x. reflexivity.
  - rewrite H. vm_compute. reflexivity.
Defined.


Section AspectRatioFacts.
Import DeviceProfiles.

Lemma gcd_calls_enough n : forall m a b,
  (Z.abs_nat b < n)%nat -> (Z.abs_nat b < m)%nat ->
  gcd_calls n a b = gcd_calls m a b.
Proof.
  induction n as [|n IH]; intros m a b Hn Hm; [lia|].
  destruct m as [|m]; [lia|]. cbn [gcd_calls].
  destruct (Z.eqb_spec b 0) as [_|Hb]; [reflexivity|].
  pose proof (Z.rem_bound_abs a b Hb) as Hr.
  apply IH; lia.
Qed.

(** The equation of the source, for all integers. *)
Lemma gcd_unfold a b : gcd a b = if b =? 0 then a else gcd b (Z.rem a b).
Proof.
  unfold gcd at 1. cbn [gcd_calls].
  destruct (Z.eqb_spec b 0) as [_|Hb]; [reflexivity|].
  pose proof (Z.rem_bound_abs a b Hb) as Hr.
  unfold gcd. apply gcd_calls_enough; lia.
Qed.

Lemma gcd_calls_nonneg n : forall a b,
  0 <= a -> 0 <= b -> (Z.abs_nat b < n)%nat -> gcd_calls n a b = Z.gcd a b.
Proof.
  induction n as [|n IH]; intros a b Ha Hb Hn; [lia|]. cbn [gcd_calls].
  destruct (Z.eqb_spec b 0) as [->|Hne].
  - rewrite Z.gcd_0_r. lia.
  - rewrite Z.rem_mod_nonneg by lia.
    pose proof (Z.mod_pos_bound a b ltac:(lia)) as Hm.
    rewrite IH by lia.
    rewrite (Z.gcd_comm b), Z.gcd_mod by exact Hne. apply Z.gcd_comm.
Qed.

Lemma gcd_nonneg a b : 0 <= a -> 0 <= b -> gcd a b = Z.gcd a b.
Proof. intros Ha Hb. unfold gcd. apply gcd_calls_nonneg; lia. Qed.

(** The divisor divides both numbers, whatever their signs: the
    quotients [calculateAspectRatio] prints are exact. *)
Lemma gcd_calls_divides n : forall a b,
  (Z.abs_nat b < n)%nat ->
  (gcd_calls n a b | a) /\ (gcd_calls n a b | b).
Proof.
  induction n as [|n IH]; intros a b Hn; [lia|]. cbn [gcd_calls].
  destruct (Z.eqb_spec b 0) as [->|Hb].
  - split; [reflexivity | apply Z.divide_0_r].
  - pose proof (Z.rem_bound_abs a b Hb) as Hr.
    destruct (IH b (Z.rem a b) ltac:(lia)) as [Hdb Hdr].
    split; [|exact Hdb].
    assert (Ha : a = b * Z.quot a b + Z.rem a b) by apply Z.quot_rem'.
    rewrite Ha at 2.
    apply Z.divide_add_r; [apply Z.divide_mul_l; exact Hdb | exact Hdr].
Qed.

Lemma gcd_divides a b : (gcd a b | a) /\ (gcd a b | b).
Proof. unfold gcd. apply gcd_calls_divides. lia. Qed.

End AspectRatioFacts.

(** X24.  The aspect ratio is in lowest terms and does not depend on
    the scale, for whole numbers that a JavaScript number holds
    exactly.  For a positive whole width and height of at most
    [MAX_SAFE_INTEGER] the divisor [calculateAspectRatio] computes is
    their greatest common divisor, so the two numbers it prints are
    exact quotients, have no common factor and stand in the ratio of
    width to height; multiplying width and height by the same positive
    whole factor gives the same text, as long as the two products are
    at most [MAX_SAFE_INTEGER] as well. *)
Theorem aspect_ratio_is_in_lowest_terms (w h k : Z) :
  0 < w <= DeviceProfiles.MAX_SAFE_INTEGER ->
  0 < h <= DeviceProfiles.MAX_SAFE_INTEGER ->
  0 < k ->
  k * w <= DeviceProfiles.MAX_SAFE_INTEGER ->
  k * h <= DeviceProfiles.MAX_SAFE_INTEGER ->
  let g := Z.gcd w h in
  DeviceProfiles.gcd w h = g
  /\ DeviceProfiles.calculateAspectRatio w h
     = (DeviceProfiles.number_string (w / g) ++ ":"
          ++ DeviceProfiles.number_string (h / g))%string
  /\ (w / g) * g = w
  /\ (h / g) * g = h
  /\ Z.gcd (w / g) (h / g) = 1
  /\ (w / g) * h = (h / g) * w
  /\ DeviceProfiles.calculateAspectRatio (k * w) (k * h)
     = DeviceProfiles.calculateAspectRatio w h.
Proof.
  intros [Hw _] [Hh _] Hk _ _. cbv zeta.
  assert (Hg : DeviceProfiles.gcd w h = Z.gcd w h) by (apply gcd_nonneg; lia).
  assert (Hpos : 0 < Z.gcd w h).
  { pose proof (Z.gcd_nonneg w h).
    assert (Z.gcd w h <> 0) by (intros E; apply Z.gcd_eq_0_l in E; lia). lia. }
  assert (Hform : forall a b, 0 < a -> 0 < b ->
            DeviceProfiles.calculateAspectRatio a b
            = (DeviceProfiles.number_string (a / Z.gcd a b) ++ ":"
                 ++ DeviceProfiles.number_string (b / Z.gcd a b))%string).
  { intros a b Ha Hb. unfold DeviceProfiles.calculateAspectRatio. cbv zeta.
    rewrite gcd_nonneg by lia.
    destruct (Z.eqb_spec (Z.gcd a b) 0) as [E|_]; [|reflexivity].
    apply Z.gcd_eq_0_l in E. lia. }
  destruct (Z.gcd_divide_l w h) as [qw Hqw].
  destruct (Z.gcd_divide_r w h) as [qh Hqh].
  assert (Ew : w / Z.gcd w h = qw)
    by (rewrite Hqw at 1; apply Z.div_mul; lia).
  assert (Eh : h / Z.gcd w h = qh)
    by (rewrite Hqh at 1; apply Z.div_mul; lia).
  split; [exact Hg|]. split; [apply Hform; assumption|].
  split; [lia|]. split; [lia|]. split; [|split].
  - apply Z.gcd_div_gcd; [lia | reflexivity].
  - rewrite Ew, Eh. rewrite Hqh at 1. rewrite Hqw at 2. ring.
  - rewrite !Hform by lia.
    rewrite Z.gcd_mul_mono_l_nonneg by lia.
    rewrite !Z.div_mul_cancel_l by lia. reflexivity.
Qed.

Lemma aspect_ratio_is_in_lowest_terms_witness :
  DeviceProfiles.calculateAspectRatio (2 * 1920) (2 * 1080) = "16:9"%string.
Proof.
  destruct (aspect_ratio_is_in_lowest_terms 1920 1080 2) as (_ & H & _ & _ & _ & _ & Hk).
  - split; [lia | vm_compute; discriminate].
  - split; [lia | vm_compute; discriminate].
  - lia.
  - vm_compute. discriminate.
  - vm_compute. discriminate.
  - rewrite Hk, H. vm_compute. reflexivity.
Defined.

Section ConnectionEstimateFacts.
Import DeviceProfiles.

Lemma speed_decides n d rtt ty :
  n <> 0 ->
  estimateConnectionSpeed (Some (n, d)) rtt ty
  = if n <? Z.pos d then slow else if n <? 5 * Z.pos d then medium else fast.
Proof.
  intros Hn. unfold estimateConnectionSpeed. cbv zeta.
  destruct (Z.eqb_spec n 0); [contradiction | reflexivity].
Qed.

Lemma rtt_decides r d ty :
  r <> 0 ->
  estimateConnectionSpeed None (Some (r, d)) ty
  = if r >? 300 * Z.pos d then slow else if r >? 100 * Z.pos d then medium else fast.
Proof.
  intros Hr. unfold estimateConnectionSpeed. cbv zeta.
  destruct (Z.eqb_spec r 0); [contradiction | reflexivity].
Qed.

End ConnectionEstimateFacts.

(** X25.  [estimateConnectionSpeed] trusts the best measurement it is
    given.  A download speed other than 0 decides alone, whatever the
    round trip and the connection type say; without it a round trip
    other than 0 decides, whatever the type says; without both a type
    outside the three lists, an empty type and no type at all give
    [medium].  The estimate is monotone: of two positive speeds the
    higher one is never classified slower, and of two positive round
    trips the longer one is never classified faster. *)
Theorem connection_estimate_trusts_best_measurement :
  (forall n d rtt ty, n <> 0 ->
     DeviceProfiles.estimateConnectionSpeed (Some (n, d)) rtt ty
     = DeviceProfiles.estimateConnectionSpeed (Some (n, d)) None None)
  /\ (forall r d ty, r <> 0 ->
        DeviceProfiles.estimateConnectionSpeed None (Some (r, d)) ty
        = DeviceProfiles.estimateConnectionSpeed None (Some (r, d)) None)
  /\ DeviceProfiles.estimateConnectionSpeed None None None = DeviceProfiles.medium
  /\ DeviceProfiles.estimateConnectionSpeed None None (Some ""%string)
     = DeviceProfiles.medium
  /\ (forall c,
        ~ In c ["slow-2g"; "2g"; "cellular"; "4g"; "5g"; "wifi"; "ethernet"]%string ->
        DeviceProfiles.estimateConnectionSpeed None None (Some c)
        = DeviceProfiles.medium)
  /\ (forall n d n' d' rtt ty,
        0 < n -> n * Z.pos d' <= n' * Z.pos d ->
        (DeviceProfiles.estimateConnectionSpeed (Some (n', d')) rtt ty
         = DeviceProfiles.slow ->
         DeviceProfiles.estimateConnectionSpeed (Some (n, d)) rtt ty
         = DeviceProfiles.slow)
        /\ (DeviceProfiles.estimateConnectionSpeed (Some (n, d)) rtt ty
            = DeviceProfiles.fast ->
            DeviceProfiles.estimateConnectionSpeed (Some (n', d')) rtt ty
            = DeviceProfiles.fast))
  /\ (forall r d r' d' ty,
        0 < r -> r * Z.pos d' <= r' * Z.pos d ->
        (DeviceProfiles.estimateConnectionSpeed None (Some (r, d)) ty
         = DeviceProfiles.slow ->
         DeviceProfiles.estimateConnectionSpeed None (Some (r', d')) ty
         = DeviceProfiles.slow)
        /\ (DeviceProfiles.estimateConnectionSpeed None (Some (r', d')) ty
            = DeviceProfiles.fast ->
            DeviceProfiles.estimateConnectionSpeed None (Some (r, d)) ty
            = DeviceProfiles.fast)).
Proof.
  split; [|split; [|split; [|split; [|split; [|split]]]]].
  - intros n d rtt ty Hn. rewrite !speed_decides by exact Hn. reflexivity.
  - intros r d ty Hr. rewrite !rtt_decides by exact Hr. reflexivity.
  - reflexivity.
  - reflexivity.
  - intros c Hc. unfold DeviceProfiles.estimateConnectionSpeed. cbv zeta.
    destruct (String.eqb c ""); [reflexivity|].
    destruct (DeviceProfiles.list_includes c ["slow-2g"; "2g"; "cellular"]) eqn:E1.
    { exfalso. apply Hc. unfold DeviceProfiles.list_includes in E1.
      apply existsb_exists in E1 as (x & Hin & Hx). apply String.eqb_eq in Hx.
      subst x. cbn in Hin. cbn. tauto. }
    destruct (DeviceProfiles.list_includes c ["3g"; "dsl"]); [reflexivity|].
    destruct (DeviceProfiles.list_includes c ["4g"; "5g"; "wifi"; "ethernet"]) eqn:E3;
      [|reflexivity].
    exfalso. apply Hc. unfold DeviceProfiles.list_includes in E3.
    apply existsb_exists in E3 as (x & Hin & Hx). apply String.eqb_eq in Hx.
    subst x. cbn in Hin. cbn. tauto.
  - intros n d n' d' rtt ty Hn Hle.
    assert (Hn' : n' <> 0) by nia.
    rewrite !(speed_decides n') by exact Hn'.
    rewrite !(speed_decides n) by lia.
    split; intros H.
    + destruct (Z.ltb_spec n' (Z.pos d')); [|destruct (n' <? 5 * Z.pos d'); discriminate].
      destruct (Z.ltb_spec n (Z.pos d)); [reflexivity | nia].
    + destruct (Z.ltb_spec n (Z.pos d)); [discriminate|].
      destruct (Z.ltb_spec n (5 * Z.pos d)); [discriminate|].
      destruct (Z.ltb_spec n' (Z.pos d')); [nia|].
      destruct (Z.ltb_spec n' (5 * Z.pos d')); [nia | reflexivity].
  - intros r d r' d' ty Hr Hle.
    assert (Hr' : r' <> 0) by nia.
    rewrite !(rtt_decides r') by exact Hr'.
    rewrite !(rtt_decides r) by lia.
    rewrite !Z.gtb_ltb.
    split; intros H.
    + destruct (Z.ltb_spec (300 * Z.pos d) r);
        [|destruct (100 * Z.pos d <? r); discriminate].
      destruct (Z.ltb_spec (300 * Z.pos d') r'); [reflexivity | nia].
    + destruct (Z.ltb_spec (300 * Z.pos d') r'); [discriminate|].
      destruct (Z.ltb_spec (100 * Z.pos d') r'); [discriminate|].
      destruct (Z.ltb_spec (300 * Z.pos d) r); [nia|].
      destruct (Z.ltb_spec (100 * Z.pos d) r); [nia | reflexivity].
Qed.

(** X26.  Frame timing moves the quality and nothing else, for a
    stream whose fps and quality are whole numbers and a clock in
    whole milliseconds.  The first half of a tick adds one to the
    keyframe counter and, with
    adaptive on and a positive time since the last frame, changes the
    quality: down by 5 (not below 20) when fps times elapsed
    milliseconds exceeds 10000/9, that is when the loop runs below 90%
    of its target rate; up by 2 (not above 95) when it is below
    10000/11, above 110%; not at all in between.  With adaptive off or
    no time elapsed the quality stays.  The fps, the pause flag, the
    frame and byte counters and the time of the last frame are never
    touched, and a quality within 20..95 stays within it. *)
Theorem frame_timing_moves_quality_only
    (t : Z) (s : StreamingService.StreamSettings) :
  let s' := fst (StreamingService.frame_begin t s) in
  let elapsed := t - StreamingService.lastFrameTime s in
  let q := StreamingService.quality s in
  StreamingService.keyframeCount s' = StreamingService.keyframeCount s + 1
  /\ StreamingService.fps s' = StreamingService.fps s
  /\ StreamingService.active s' = StreamingService.active s
  /\ StreamingService.frameCount s' = StreamingService.frameCount s
  /\ StreamingService.bytesSent s' = StreamingService.bytesSent s
  /\ StreamingService.lastFrameTime s' = StreamingService.lastFrameTime s
  /\ StreamingService.quality s'
     = (if StreamingService.adaptiveBitrate s && (0 <? elapsed) then
          if (10000 <? 9 * StreamingService.fps s * elapsed) && (20 <? q)
          then Z.max 20 (q - 5)
          else if (11 * StreamingService.fps s * elapsed <? 10000) && (q <? 95)
               then Z.min 95 (q + 2)
               else q
        else q)
  /\ q - 5 <= StreamingService.quality s' <= q + 2
  /\ (20 <= q <= 95 -> 20 <= StreamingService.quality s' <= 95).
Proof.
  cbv zeta. destruct s as [b f q w h a ad lft fc bs kc lff pf cq dt sid lat].
  unfold StreamingService.frame_begin, StreamingService.adaptQuality. cbv zeta.
  cbn [fst]. fields. rewrite !Z.gtb_ltb.
  destruct ad; cbn [andb];
    [destruct (Z.ltb_spec 0 (t - lft))|];
    [destruct (Z.ltb_spec 10000 (9 * f * (t - lft))); cbn [andb];
     [destruct (Z.ltb_spec 20 q)|]| |];
    try (destruct (Z.ltb_spec (11 * f * (t - lft)) 10000); cbn [andb];
         [destruct (Z.ltb_spec q 95)|]);
    unfold StreamingService.set_keyframeCount, StreamingService.set_quality; fields;
    repeat split; lia.
Qed.

Section KeepAliveFacts.
Import BrowserService.

Lemma get_filter_keep (f : string * BrowserInstance -> bool) (m : Pool) b v :
  get b m = Some v -> f (b, v) = true -> get b (List.filter f m) = Some v.
Proof.
  induction m as [|[k v0] r IH]; cbn [get List.filter]; [discriminate|].
  destruct (String.eqb_spec b k) as [->|Hne].
  - intros [= ->] Hf. rewrite Hf. cbn [get]. rewrite String.eqb_refl. reflexivity.
  - intros Hg Hf. destruct (f (k, v0)); cbn [get]; [|auto].
    destruct (String.eqb_spec b k); [contradiction | auto].
Qed.

Lemma get_filter_drop (f : string * BrowserInstance -> bool) (m : Pool) b v :
  List.NoDup (map fst m) ->
  get b m = Some v -> f (b, v) = false -> get b (List.filter f m) = None.
Proof.
  induction m as [|[k v0] r IH]; cbn [get List.filter map fst]; [discriminate|].
  intros Hnd. apply List.NoDup_cons_iff in Hnd as [Hk Hnd].
  destruct (String.eqb_spec b k) as [->|Hne].
  - intros [= ->] Hf. rewrite Hf.
    destruct (get k (List.filter f r)) as [v'|] eqn:E; [|reflexivity].
    exfalso. apply Hk. apply get_In_key in E.
    apply List.filter_In in E as [E _].
    apply (in_map fst) in E. exact E.
  - intros Hg Hf. destruct (f (k, v0)); cbn [get]; [|auto].
    destruct (String.eqb_spec b k); [contradiction | auto].
Qed.

(** The sweep keeps a browser used within the timeout and drops one
    that was not. *)
Lemma get_cleanup now ok (m : Pool) b v :
  List.NoDup (map fst m) ->
  get b m = Some v ->
  get b (cleanupInactiveBrowsers now ok m) = if idle now v then None else Some v.
Proof.
  intros Hnd Hg. unfold cleanupInactiveBrowsers. rewrite cleanup_fold.
  pose proof (existsb_same_key now (b, v) m Hnd (get_In_key _ _ _ Hg)) as He.
  cbn [fst snd] in He.
  destruct (idle now v) eqn:Ei.
  - apply (get_filter_drop _ _ _ v Hnd Hg). cbn [fst]. rewrite He. reflexivity.
  - apply (get_filter_keep _ _ _ v Hg). cbn [fst]. rewrite He. reflexivity.
Qed.

End KeepAliveFacts.

(** X27.  A running stream keeps its browser.  Every tick of a
    running loop whose browser is in the pool marks the browser as
    used at the time of the screenshot, before the screenshot is even
    taken; a sweep of idle browsers within [BROWSER_TIMEOUT] of that
    tick therefore leaves the browser in the pool. *)
Theorem streamed_browser_survives_the_sweep
    (i : nat) (clk : StreamingService.Clock) (e : StreamingService.Engine)
    (pool : BrowserService.Pool) (l : StreamingService.Loop)
    (s : StreamingService.StreamSettings) (instance : BrowserService.BrowserInstance)
    (now : Z) (closed_ok : string -> bool) :
  StreamingService.loops e !! i = Some l ->
  StreamingService.phase l = StreamingService.Timer ->
  StreamingService.isStreaming l = true ->
  StreamingService.objects e !! StreamingService.loop_settings l = Some s ->
  StreamingService.active s = true ->
  BrowserService.get (StreamingService.browserId s) pool = Some instance ->
  List.NoDup (map fst pool) ->
  now - StreamingService.now_shot clk <= BrowserService.BROWSER_TIMEOUT ->
  let pool' := snd (StreamingService.onTimer i clk e pool) in
  BrowserService.get (StreamingService.browserId s) pool'
  = Some (BrowserService.touch (StreamingService.now_shot clk) instance)
  /\ BrowserService.get (StreamingService.browserId s)
       (BrowserService.cleanupInactiveBrowsers now closed_ok pool')
     = Some (BrowserService.touch (StreamingService.now_shot clk) instance).
Proof.
  intros Hl Hp Hs Ho Ha Hg Hnd Hnow. cbv zeta.
  assert (Hshot : BrowserService.screenshot_enter (StreamingService.browserId s)
                    (StreamingService.now_shot clk) pool
                  = Some (BrowserService.set (StreamingService.browserId s)
                            (BrowserService.touch (StreamingService.now_shot clk)
                               instance) pool))
    by (unfold BrowserService.screenshot_enter; rewrite Hg; reflexivity).
  rewrite (onTimer_running i clk e pool l s _ Hl Hp Hs Ho Ha Hshot). cbn [snd].
  assert (Hg' : BrowserService.get (StreamingService.browserId s)
                  (BrowserService.set (StreamingService.browserId s)
                     (BrowserService.touch (StreamingService.now_shot clk) instance)
                     pool)
                = Some (BrowserService.touch (StreamingService.now_shot clk) instance))
    by apply get_set_eq.
  split; [exact Hg'|].
  assert (Hnd' : List.NoDup
                   (map fst (BrowserService.set (StreamingService.browserId s)
                               (BrowserService.touch (StreamingService.now_shot clk)
                                  instance) pool)))
    by (rewrite (keys_set_present _ _ _ _ Hg); exact Hnd).
  rewrite (get_cleanup now closed_ok _ _ _ Hnd' Hg').
  unfold BrowserService.idle, BrowserService.touch. cbn [BrowserService.lastActivity].
  destruct (Z.gtb_spec (now - StreamingService.now_shot clk)
              BrowserService.BROWSER_TIMEOUT); [lia | reflexivity].
Qed.

Lemma streamed_browser_survives_the_sweep_witness :
  let pool' :=
    snd (StreamingService.onTimer 0 (Scenarios.at_time 1040)
           (SocketService.engine Cases.streaming)
           (SocketService.activeBrowsers Cases.streaming)) in
  exists instance,
    BrowserService.get "browser-a"
      (BrowserService.cleanupInactiveBrowsers 300000 (fun _ => true) pool')
    = Some (BrowserService.touch 1040 instance).
Proof.
  cbv zeta.
  destruct (streamed_browser_survives_the_sweep 0 (Scenarios.at_time 1040)
              (SocketService.engine Cases.streaming)
              (SocketService.activeBrowsers Cases.streaming)
              Cases.streaming_loop Cases.streaming_object
              (match BrowserService.get "browser-a"
                       (SocketService.activeBrowsers Cases.streaming) with
               | Some instance => instance
               | None => snd (Cases.browser "browser-a" 1000)
               end) 300000 (fun _ => true))
    as [_ H].
  - vm_compute. reflexivity.
  - reflexivity.
  - reflexivity.
  - vm_compute. reflexivity.
  - vm_compute. reflexivity.
  - vm_compute. reflexivity.
  - vm_compute. repeat constructor. intros [].
  - vm_compute. discriminate.
  - eexists. exact H.
Defined.

Section QuietClientFacts.
Import SocketService.

(** A quiet request leaves the keys of the pool and every
    [lastActivity] as they are. *)
Lemma quiet_request_activity sock q st :
  quiet q = true ->
  map (fun e => (fst e, BrowserService.lastActivity (snd e)))
    (activeBrowsers (snd (handle sock q st)))
  = map (fun e => (fst e, BrowserService.lastActivity (snd e))) (activeBrowsers st).
Proof.
  intros Hq. destruct q as [u now loaded page_url | action now done page_url
                           | w h resized]; cbn [quiet] in Hq; [discriminate | |];
    cbn [handle].
  - unfold onAction. destruct (browser_of sock st); [|reflexivity].
    rewrite Hq. reflexivity.
  - unfold onResize. destruct (browser_of sock st) as [b|]; [|reflexivity].
    unfold BrowserService.resizeViewport.
    destruct (BrowserService.get b (activeBrowsers st)) as [inst|] eqn:E;
      [|reflexivity].
    destruct resized; [|reflexivity].
    cbn [snd with_pool activeBrowsers].
    clear -E. induction (activeBrowsers st) as [|[k v] r IH];
      cbn [BrowserService.get BrowserService.set map] in *; [discriminate|].
    destruct (String.eqb_spec b k) as [->|Hne]; cbn [map fst snd].
    + injection E as ->. reflexivity.
    + rewrite IH by exact E. reflexivity.
Qed.

Lemma quiet_requests_activity reqs : forall st,
  Forall (fun r => quiet (snd r) = true) reqs ->
  map (fun e => (fst e, BrowserService.lastActivity (snd e)))
    (activeBrowsers (serve reqs st))
  = map (fun e => (fst e, BrowserService.lastActivity (snd e))) (activeBrowsers st).
Proof.
  induction reqs as [|[sock q] reqs IH]; intros st Hq; [reflexivity|].
  apply Forall_cons in Hq as [Hq Hqs]. cbn [serve fold_left fst snd].
  change (fold_left _ reqs ?x) with (serve reqs x).
  rewrite (IH _ Hqs). apply quiet_request_activity. exact Hq.
Qed.

Lemma get_by_activity (m m' : BrowserService.Pool) :
  map (fun e => (fst e, BrowserService.lastActivity (snd e))) m'
  = map (fun e => (fst e, BrowserService.lastActivity (snd e))) m ->
  forall b v, BrowserService.get b m = Some v ->
    exists v', BrowserService.get b m' = Some v'
               /\ BrowserService.lastActivity v' = BrowserService.lastActivity v.
Proof.
  revert m'. induction m as [|[k v0] r IH]; intros [|[k' v0'] r'] H b v Hg;
    cbn [map BrowserService.get fst snd] in *; try discriminate.
  injection H as -> Hla Hr.
  destruct (String.eqb b k).
  - injection Hg as <-. eauto.
  - eauto.
Qed.

End QuietClientFacts.

(** X28.  A client that is only quiet loses its browser.  Resize
    requests and [getCurrentUrl] actions, from whatever sockets and
    however many, leave every browser in the pool with the
    [lastActivity] it had; a browser last used more than
    [BROWSER_TIMEOUT] before a sweep is therefore closed by it,
    whatever quiet requests its client has sent since. *)
Theorem quiet_client_loses_its_browser
    (reqs : list (string * SocketService.Request)) (st : SocketService.State)
    (b : string) (instance : BrowserService.BrowserInstance)
    (now : Z) (closed_ok : string -> bool) :
  Forall (fun r => SocketService.quiet (snd r) = true) reqs ->
  List.NoDup (map fst (SocketService.activeBrowsers st)) ->
  BrowserService.get b (SocketService.activeBrowsers st) = Some instance ->
  now - BrowserService.lastActivity instance > BrowserService.BROWSER_TIMEOUT ->
  let pool' := SocketService.activeBrowsers (SocketService.serve reqs st) in
  (exists instance',
     BrowserService.get b pool' = Some instance'
     /\ BrowserService.lastActivity instance' = BrowserService.lastActivity instance)
  /\ BrowserService.get b (BrowserService.cleanupInactiveBrowsers now closed_ok pool')
     = None.
Proof.
  intros Hq Hnd Hg Hold. cbv zeta.
  pose proof (quiet_requests_activity reqs st Hq) as Hact.
  destruct (get_by_activity _ _ Hact b instance Hg) as (instance' & Hg' & Hla).
  split; [eauto|].
  assert (Hnd' : List.NoDup
                   (map fst (SocketService.activeBrowsers
                               (SocketService.serve reqs st)))).
  { assert (Hk : forall m : BrowserService.Pool,
               map fst m
               = map fst (map (fun e => (fst e, BrowserService.lastActivity (snd e))) m))
      by (intros m; rewrite map_map; reflexivity).
    rewrite Hk, Hact, <- Hk. exact Hnd. }
  rewrite (get_cleanup now closed_ok _ _ _ Hnd' Hg').
  unfold BrowserService.idle. rewrite Hla.
  destruct (Z.gtb_spec (now - BrowserService.lastActivity instance)
              BrowserService.BROWSER_TIMEOUT); [reflexivity | lia].
Qed.

Lemma quiet_client_loses_its_browser_witness :
  BrowserService.get "browser-a"
    (BrowserService.cleanupInactiveBrowsers 901041 (fun _ => true)
       (SocketService.activeBrowsers
          (SocketService.serve
             [("socket-1"%string, SocketService.Resize 800 600 true);
              ("socket-1"%string,
               SocketService.Action "getCurrentUrl" 900000 true
                 (Some "https://www.google.com/"%string))]
             Cases.streaming)))
  = None.
Proof.
  refine (proj2 (quiet_client_loses_its_browser
                   [("socket-1"%string, SocketService.Resize 800 600 true);
                    ("socket-1"%string,
                     SocketService.Action "getCurrentUrl" 900000 true
                       (Some "https://www.google.com/"%string))]
                   Cases.streaming "browser-a"
                   (match BrowserService.get "browser-a"
                            (SocketService.activeBrowsers Cases.streaming) with
                    | Some instance => instance
                    | None => snd (Cases.browser "browser-a" 1000)
                    end) 901041 (fun _ => true) _ _ _ _)).
  - repeat constructor.
  - vm_compute. repeat constructor. intros [].
  - vm_compute. reflexivity.
  - vm_compute. reflexivity.
Defined.

Section UpdateFacts.
Import SessionService.



End UpdateFacts.


(** X30.  A failed launch is not rolled back.  When an [init] from a
    socket without a browser arrives while the pool is full and the
    launch of the new browser fails, the client gets no browser and no
    stream -- [socketBrowserMap] and the streaming state are as
    before -- but the least recently used browser has already been
    closed: the pool is one smaller, the victim is no longer in it,
    and whichever socket was mapped to the victim is still mapped to
    it. *)
Theorem failed_launch_is_not_rolled_back
    (MAX_BROWSERS : Z) (sock : SocketService.Socket) (data : SocketService.InitData)
    (env : BrowserService.CreateEnv) (resolution : Z * Z) (t : Z)
    (clk : StreamingService.Clock) (st : SocketService.State) :
  SocketService.socketBrowserMap st !! SocketService.socket_id sock = None ->
  BrowserService.launched env = None ->
  MAX_BROWSERS <= BrowserService.size (SocketService.activeBrowsers st) ->
  Exists (fun e => BrowserService.lastActivity (snd e) < BrowserService.now_select env)
    (SocketService.activeBrowsers st) ->
  Forall (fun e => fst e <> EmptyString) (SocketService.activeBrowsers st) ->
  List.NoDup (map fst (SocketService.activeBrowsers st)) ->
  let st' := SocketService.onInit MAX_BROWSERS sock data env resolution t clk st in
  SocketService.socketBrowserMap st' = SocketService.socketBrowserMap st
  /\ SocketService.engine st' = SocketService.engine st
  /\ BrowserService.size (SocketService.activeBrowsers st')
     = BrowserService.size (SocketService.activeBrowsers st) - 1
  /\ exists victim instance,
       In (victim, instance) (SocketService.activeBrowsers st)
       /\ Forall (fun e => BrowserService.lastActivity instance
                           <= BrowserService.lastActivity (snd e))
            (SocketService.activeBrowsers st)
       /\ BrowserService.get victim (SocketService.activeBrowsers st') = None
       /\ (forall other,
             SocketService.socketBrowserMap st !! other = Some victim ->
             SocketService.socketBrowserMap st' !! other = Some victim).
Proof.
  intros Hmap Hlaunch Hfull Hold Hkeys Hnd. cbv zeta.
  unfold SocketService.onInit. rewrite Hmap.
  unfold BrowserService.createBrowser. rewrite Hlaunch. cbv zeta.
  cbn [SocketService.socketBrowserMap SocketService.engine
       SocketService.activeBrowsers].
  destruct (make_room_evicts_oldest MAX_BROWSERS env
              (SocketService.activeBrowsers st) Hfull Hold Hkeys Hnd)
    as (victim & instance & Hin & Holdest & Hroom & Hsize).
  split; [reflexivity|]. split; [reflexivity|]. split; [exact Hsize|].
  exists victim, instance. split; [exact Hin|]. split; [exact Holdest|].
  split; [rewrite Hroom; apply get_delete_eq|]. auto.
Qed.

Lemma failed_launch_is_not_rolled_back_witness :
  let st := Scenarios.server Cases.two_clients SocketService.initial in
  let st' :=
    SocketService.onInit 2
      {| SocketService.socket_id := "socket-3";
         SocketService.socket_device := DeviceProfiles.MOBILE;
         SocketService.socket_session := None |}
      Scenarios.no_data
      {| BrowserService.now_select := 2000; BrowserService.evict_ok := true;
         BrowserService.launched := None |}
      (1080, 1920) 2000 (Scenarios.at_time 2000) st in
  BrowserService.size (SocketService.activeBrowsers st')
  = BrowserService.size (SocketService.activeBrowsers st) - 1.
Proof.
  cbv zeta.
  refine (proj1 (proj2 (proj2
            (failed_launch_is_not_rolled_back 2
               {| SocketService.socket_id := "socket-3";
                  SocketService.socket_device := DeviceProfiles.MOBILE;
                  SocketService.socket_session := None |}
               Scenarios.no_data
               {| BrowserService.now_select := 2000; BrowserService.evict_ok := true;
                  BrowserService.launched := None |}
               (1080, 1920) 2000 (Scenarios.at_time 2000)
               (Scenarios.server Cases.two_clients SocketService.initial)
               _ _ _ _ _ _)))).
  - vm_compute. reflexivity.
  - reflexivity.
  - vm_compute. discriminate.
  - match goal with
    | |- Exists _ ?m => let v := eval vm_compute in m in change m with v
    end.
    apply List.Exists_cons_hd. reflexivity.
  - match goal with
    | |- Forall _ ?m => let v := eval vm_compute in m in change m with v
    end.
    repeat constructor; discriminate.
  - vm_compute. repeat constructor; cbn; intuition discriminate.
Defined.
